(** * BuildMVP: estimates, invoices and their totals

    A shallow embedding of the data store (the SQL migration with its
    triggers and unique indexes) and of the handlers of the web client that
    write to it (estimate and invoice forms, estimate detail, invoice detail,
    invoice list, the send-estimate server action, the list pages).

    Conventions of the model.
    - A NUMERIC value of display scale [s] is carried as the integer [v]
      standing for [v / 10^s]: DECIMAL(12,2) columns hold hundredths.
    - A DATE is the number of days since 1970-01-01 (UTC); an instant is a
      number of milliseconds since the epoch, as [Date.now()] returns it.
    - [uuid_generate_v4()] yields an identifier its table does not hold yet.
    - A string is carried as the bytes of its UTF-8 encoding.
    - The bookkeeping columns created_at / updated_at, the VARCHAR length
      limits and the row-level security policies are left out: every handler
      below runs in the session of the tenant who owns the rows it addresses.
    - A JSON number read from a DECIMAL column and written back to one
      travels unchanged; a number typed into a form enters the model as the
      value its column stores.
    - A statement that fails leaves the store as it was; the statements of a
      handler are separate requests, so the earlier ones stay written. *)

From Stdlib Require Import Ascii String.
From stdpp Require Import gmap strings list fin_maps infinite.

Local Open Scope Z_scope.

(** ** Errors of the store and the result of a statement *)

Inductive db_error :=
  | unique_violation
  | foreign_key_violation
  | numeric_value_out_of_range.

Inductive result (A : Type) :=
  | Ok (a : A)
  | Err (e : db_error).
Arguments Ok {A} a.
Arguments Err {A} e.

Definition bind {A B} (r : result A) (k : A → result B) : result B :=
  match r with
  | Ok a => k a
  | Err e => Err e
  end.

Notation "x <- e ;; k" := (bind e (fun x => k))
  (at level 100, e at next level, right associativity).

Definition guard (b : bool) (e : db_error) : result unit :=
  if b then Ok tt else Err e.

(** ** NUMERIC arithmetic *)

Module Numeric.

(** [n / d] rounded to the nearest integer, ties away from zero, as
    PostgreSQL rounds a numeric to a smaller scale. *)
Definition round_div (n d : Z) : Z :=
  Z.sgn n * ((2 * Z.abs n + d) / (2 * d)).

(** A value carried at [scale] decimal digits ([2 <= scale]) rounded to
    two decimal digits. *)
Definition round2 (scale : Z) (v : Z) : Z :=
  round_div v (10 ^ (scale - 2)).

(** The assignment cast to DECIMAL(p,2) of a value already at scale 2:
    at most [p] digits in all, or the statement fails. *)
Definition numeric (p : Z) (v : Z) : result Z :=
  if Z.abs v <? 10 ^ p then Ok v else Err numeric_value_out_of_range.

End Numeric.
Import Numeric.

(** ** Identifiers, dates, instants *)

Abbreviation uuid := positive (only parsing).
Abbreviation date := Z (only parsing).
Abbreviation instant := Z (only parsing).

Definition ms_per_day : Z := 24 * 60 * 60 * 1000.

(** [new Date(t).toISOString().split('T')[0]]: the UTC calendar day of [t]. *)
Definition utc_date (t : instant) : date := t `div` ms_per_day.

(** [new Date(d)] for a date-only string: midnight UTC of that day. *)
Definition date_instant (d : date) : instant := d * ms_per_day.

(** ** Strings of the client *)

Module Js.

Definition digit_char (d : Z) : ascii :=
  ascii_of_nat (48 + Z.to_nat d).

Fixpoint digits (fuel : nat) (n : Z) (acc : string) : string :=
  match fuel with
  | O => acc
  | S fuel' =>
      let acc' := String (digit_char (n `mod` 10)) acc in
      if n `div` 10 =? 0 then acc' else digits fuel' (n `div` 10) acc'
  end.

(** [n.toString()] for a non-negative integer. *)
Definition toString (n : Z) : string :=
  digits (S (Z.to_nat (Z.log2 n))) n EmptyString.

Fixpoint drop_chars (k : nat) (s : string) : string :=
  match k, s with
  | O, _ => s
  | S k', EmptyString => EmptyString
  | S k', String _ s' => drop_chars k' s'
  end.

(** [s.slice(-k)]: the last [k] characters, all of [s] when it is shorter. *)
Definition slice_last (k : nat) (s : string) : string :=
  drop_chars (String.length s - k) s.

(** U+0009 to U+000D and U+0020. *)
Definition is_space (c : ascii) : bool :=
  let n := nat_of_ascii c in
  ((9 <=? n) && (n <=? 13) || (n =? 32))%nat.

(** U+00A0, by the two bytes of its UTF-8 encoding. *)
Definition is_space2 (c1 c2 : ascii) : bool :=
  ((nat_of_ascii c1 =? 194) && (nat_of_ascii c2 =? 160))%nat.

(** U+1680, U+2000 to U+200A, U+2028, U+2029, U+202F, U+205F, U+3000 and
    U+FEFF, by the three bytes of their UTF-8 encoding. *)
Definition is_space3 (c1 c2 c3 : ascii) : bool :=
  let n1 := nat_of_ascii c1 in
  let n2 := nat_of_ascii c2 in
  let n3 := nat_of_ascii c3 in
  ((n1 =? 225) && (n2 =? 154) && (n3 =? 128)
   || (n1 =? 226) && (n2 =? 128)
      && ((128 <=? n3) && (n3 <=? 138) || (n3 =? 168) || (n3 =? 169)
          || (n3 =? 175))
   || (n1 =? 226) && (n2 =? 129) && (n3 =? 159)
   || (n1 =? 227) && (n2 =? 128) && (n3 =? 128)
   || (n1 =? 239) && (n2 =? 187) && (n3 =? 191))%nat.

(** The string is made of white space and line terminators only, the
    characters [String.prototype.trim] strips. *)
Fixpoint all_space (s : string) : bool :=
  match s with
  | EmptyString => true
  | String c1 s1 =>
      is_space c1 && all_space s1
      || match s1 with
         | EmptyString => false
         | String c2 s2 =>
             is_space2 c1 c2 && all_space s2
             || match s2 with
                | EmptyString => false
                | String c3 s3 => is_space3 c1 c2 c3 && all_space s3
                end
         end
  end.

(** [!s.trim()] *)
Definition blank (s : string) : bool := all_space s.

(** [s || null] *)
Definition or_null (s : string) : option string :=
  if decide (s = EmptyString) then None else Some s.

(** Truthiness of a [string | null] value. *)
Definition truthy (s : option string) : bool :=
  match s with
  | Some s' => negb (bool_decide (s' = EmptyString))
  | None => false
  end.

End Js.

(** [`${prefix}-${Date.now().toString().slice(-6)}`] *)
Definition document_number (prefix : string) (now : instant) : string :=
  prefix +:+ "-" +:+ Js.slice_last 6 (Js.toString now).

(** ** Rows of the schema *)

Inductive estimate_status := draft | sent | approved | declined.
Inductive invoice_status := unpaid | paid.

#[export] Instance estimate_status_eq_dec : EqDecision estimate_status.
Proof. solve_decision. Defined.
#[export] Instance invoice_status_eq_dec : EqDecision invoice_status.
Proof. solve_decision. Defined.

Record client := {
  client_user_id : uuid;
  client_name : string;
  client_email : option string;
}.

Record estimate := {
  e_user_id : uuid;
  e_client_id : option uuid;
  e_estimate_number : string;
  e_title : string;
  e_description : option string;
  e_status : estimate_status;
  e_issue_date : date;
  e_valid_until : option date;
  e_subtotal : Z;
  e_tax_rate : Z;
  e_tax_amount : Z;
  e_total : Z;
  e_notes : option string;
  e_job_site_address : option string;
  e_archived_at : option instant;
}.

Record invoice := {
  inv_user_id : uuid;
  inv_client_id : option uuid;
  inv_source_estimate_id : option uuid;
  inv_invoice_number : string;
  inv_title : string;
  inv_description : option string;
  inv_status : invoice_status;
  inv_issue_date : date;
  inv_due_date : option date;
  inv_paid_date : option date;
  inv_subtotal : Z;
  inv_tax_rate : Z;
  inv_tax_amount : Z;
  inv_total : Z;
  inv_notes : option string;
  inv_archived_at : option instant;
}.

(** A row of estimate_items or of invoice_items; [item_doc] is the column
    estimate_id, respectively invoice_id. *)
Record item_row := {
  item_id : uuid;
  item_doc : uuid;
  item_description : string;
  item_quantity : Z;
  item_unit : string;
  item_unit_price : Z;
  item_amount : Z;
  item_sort_order : Z;
}.

(** The object a handler sends for one new line item. *)
Record item_input := {
  in_doc : uuid;
  in_description : string;
  in_quantity : Z;
  in_unit : string;
  in_unit_price : Z;
  in_sort_order : Z;
}.

(** The columns an UPDATE of a line item may set. *)
Record item_patch := {
  set_doc : option uuid;
  set_description : option string;
  set_quantity : option Z;
  set_unit : option string;
  set_unit_price : option Z;
  set_sort_order : option Z;
}.

Record db := {
  clients : gmap uuid client;
  estimates : gmap uuid estimate;
  estimate_items : list item_row;
  invoices : gmap uuid invoice;
  invoice_items : list item_row;
}.

Definition with_estimates (es : gmap uuid estimate) (d : db) : db :=
  {| clients := clients d; estimates := es; estimate_items := estimate_items d;
     invoices := invoices d; invoice_items := invoice_items d |}.

Definition with_invoices (ivs : gmap uuid invoice) (d : db) : db :=
  {| clients := clients d; estimates := estimates d;
     estimate_items := estimate_items d;
     invoices := ivs; invoice_items := invoice_items d |}.

(** The two line-item tables share one shape and one set of statements. *)
Inductive item_table := estimate_items_table | invoice_items_table.

Definition items_of (t : item_table) (d : db) : list item_row :=
  match t with
  | estimate_items_table => estimate_items d
  | invoice_items_table => invoice_items d
  end.

Definition with_items (t : item_table) (rows : list item_row) (d : db) : db :=
  match t with
  | estimate_items_table =>
      {| clients := clients d; estimates := estimates d; estimate_items := rows;
         invoices := invoices d; invoice_items := invoice_items d |}
  | invoice_items_table =>
      {| clients := clients d; estimates := estimates d;
         estimate_items := estimate_items d;
         invoices := invoices d; invoice_items := rows |}
  end.

(** The foreign key of a line item: its document exists. *)
Definition doc_exists (t : item_table) (d : db) (doc : uuid) : bool :=
  match t with
  | estimate_items_table => bool_decide (is_Some (estimates d !! doc))
  | invoice_items_table => bool_decide (is_Some (invoices d !! doc))
  end.

(** Setters of the totals columns. *)
Definition estimate_with_totals (sub tax tot : Z) (e : estimate) : estimate :=
  {| e_user_id := e_user_id e; e_client_id := e_client_id e;
     e_estimate_number := e_estimate_number e; e_title := e_title e;
     e_description := e_description e; e_status := e_status e;
     e_issue_date := e_issue_date e; e_valid_until := e_valid_until e;
     e_subtotal := sub; e_tax_rate := e_tax_rate e; e_tax_amount := tax;
     e_total := tot; e_notes := e_notes e;
     e_job_site_address := e_job_site_address e;
     e_archived_at := e_archived_at e |}.

Definition invoice_with_totals (sub tax tot : Z) (i : invoice) : invoice :=
  {| inv_user_id := inv_user_id i; inv_client_id := inv_client_id i;
     inv_source_estimate_id := inv_source_estimate_id i;
     inv_invoice_number := inv_invoice_number i; inv_title := inv_title i;
     inv_description := inv_description i; inv_status := inv_status i;
     inv_issue_date := inv_issue_date i; inv_due_date := inv_due_date i;
     inv_paid_date := inv_paid_date i;
     inv_subtotal := sub; inv_tax_rate := inv_tax_rate i; inv_tax_amount := tax;
     inv_total := tot; inv_notes := inv_notes i;
     inv_archived_at := inv_archived_at i |}.

(** ** The recalculation triggers *)

(** The row variables of a row-level trigger: [NEW] is unset on DELETE,
    [OLD] on INSERT. *)
Record trigger_row := {
  NEW : option item_row;
  OLD : option item_row;
}.

Definition on_insert (n : item_row) : trigger_row :=
  {| NEW := Some n; OLD := None |}.
Definition on_update (o n : item_row) : trigger_row :=
  {| NEW := Some n; OLD := Some o |}.
Definition on_delete (o : item_row) : trigger_row :=
  {| NEW := None; OLD := Some o |}.

(** [COALESCE(NEW.estimate_id, OLD.estimate_id)] *)
Definition coalesce_doc (tg : trigger_row) : option uuid :=
  match NEW tg with
  | Some n => Some (item_doc n)
  | None => item_doc <$> OLD tg
  end.

(** [SUM(quantity * unit_price)] over the items of one document, at scale 4;
    zero when there is none (the COALESCE of the query). *)
Definition sum_products (doc : uuid) (rows : list item_row) : Z :=
  foldr (λ r acc, item_quantity r * item_unit_price r + acc) 0
        (filter (λ r, item_doc r = doc) rows).

(** [recalculate_estimate_totals()]. The SELECT ... INTO rounds the sum into
    the DECIMAL(12,2) variable [v_subtotal]; [v_tax_rate / 100] is exact, so
    [v_subtotal * (v_tax_rate / 100)] is [v_subtotal * v_tax_rate] read at
    scale 6, rounded into [v_tax_amount]; the UPDATE casts the total to its
    column. With no such estimate [v_tax_rate] is NULL and the UPDATE finds
    no row. A cast that does not fit raises, and the statement fails. *)
Definition recalculate_estimate_totals (tg : trigger_row) (d : db) : result db :=
  match coalesce_doc tg with
  | None => Ok d
  | Some doc =>
      v_subtotal <- numeric 12 (round2 4 (sum_products doc (estimate_items d))) ;;
      match estimates d !! doc with
      | None => Ok d
      | Some e =>
          let v_tax_rate := e_tax_rate e in
          v_tax_amount <- numeric 12 (round2 6 (v_subtotal * v_tax_rate)) ;;
          total <- numeric 12 (v_subtotal + v_tax_amount) ;;
          Ok (with_estimates
                (<[doc := estimate_with_totals v_subtotal v_tax_amount total e]>
                   (estimates d)) d)
      end
  end.

(** [recalculate_invoice_totals()], the same function on invoices. *)
Definition recalculate_invoice_totals (tg : trigger_row) (d : db) : result db :=
  match coalesce_doc tg with
  | None => Ok d
  | Some doc =>
      v_subtotal <- numeric 12 (round2 4 (sum_products doc (invoice_items d))) ;;
      match invoices d !! doc with
      | None => Ok d
      | Some i =>
          let v_tax_rate := inv_tax_rate i in
          v_tax_amount <- numeric 12 (round2 6 (v_subtotal * v_tax_rate)) ;;
          total <- numeric 12 (v_subtotal + v_tax_amount) ;;
          Ok (with_invoices
                (<[doc := invoice_with_totals v_subtotal v_tax_amount total i]>
                   (invoices d)) d)
      end
  end.

(** [CREATE TRIGGER ... AFTER INSERT OR UPDATE OR DELETE ... FOR EACH ROW] *)
Definition after_row_trigger (t : item_table) : trigger_row → db → result db :=
  match t with
  | estimate_items_table => recalculate_estimate_totals
  | invoice_items_table => recalculate_invoice_totals
  end.

(** The queued row triggers of a statement run once its rows are written. *)
Fixpoint fire (t : item_table) (tgs : list trigger_row) (d : db) : result db :=
  match tgs with
  | [] => Ok d
  | tg :: rest => d' <- after_row_trigger t tg d ;; fire t rest d'
  end.

(** ** Statements on a line-item table *)

(** The cast to INTEGER of [sort_order]. *)
Definition int4 (v : Z) : result Z :=
  if (- 2 ^ 31 <=? v) && (v <? 2 ^ 31) then Ok v
  else Err numeric_value_out_of_range.

(** The column casts of one row and its generated column
    [amount DECIMAL(12,2) GENERATED ALWAYS AS (quantity * unit_price)]. *)
Definition checked_row (id doc : uuid) (descr : string) (q : Z) (unit : string)
    (price : Z) (sort : Z) : result item_row :=
  quantity <- numeric 10 q ;;
  unit_price <- numeric 12 price ;;
  amount <- numeric 12 (round2 4 (quantity * unit_price)) ;;
  sort_order <- int4 sort ;;
  Ok {| item_id := id; item_doc := doc; item_description := descr;
        item_quantity := quantity; item_unit := unit;
        item_unit_price := unit_price; item_amount := amount;
        item_sort_order := sort_order |}.

(** The rows of one INSERT, each with an [id] not among the [used] ones. *)
Fixpoint new_rows (used : list uuid) (inputs : list item_input)
    : result (list item_row) :=
  match inputs with
  | [] => Ok []
  | i :: rest =>
      let id := fresh used in
      r <- checked_row id (in_doc i) (in_description i) (in_quantity i)
             (in_unit i) (in_unit_price i) (in_sort_order i) ;;
      rs <- new_rows (id :: used) rest ;;
      Ok (r :: rs)
  end.

(** [.insert(rows)]: one INSERT of several rows. *)
Definition insert_items (t : item_table) (inputs : list item_input) (d : db)
    : result db :=
  rows <- new_rows (item_id <$> items_of t d) inputs ;;
  _ <- guard (forallb (λ r, doc_exists t d (item_doc r)) rows)
             foreign_key_violation ;;
  fire t (on_insert <$> rows) (with_items t (items_of t d ++ rows) d).

Inductive item_filter :=
  | by_id (i : uuid)
  | by_doc (doc : uuid).

Definition selects (f : item_filter) (r : item_row) : bool :=
  match f with
  | by_id i => bool_decide (item_id r = i)
  | by_doc doc => bool_decide (item_doc r = doc)
  end.

Definition patched (p : item_patch) (r : item_row) : result item_row :=
  checked_row (item_id r)
    (default (item_doc r) (set_doc p))
    (default (item_description r) (set_description p))
    (default (item_quantity r) (set_quantity p))
    (default (item_unit r) (set_unit p))
    (default (item_unit_price r) (set_unit_price p))
    (default (item_sort_order r) (set_sort_order p)).

Fixpoint update_rows (f : item_filter) (p : item_patch) (rows : list item_row)
    : result (list item_row * list trigger_row) :=
  match rows with
  | [] => Ok ([], [])
  | r :: rest =>
      upd <- update_rows f p rest ;;
      if selects f r then
        r' <- patched p r ;;
        Ok (r' :: upd.1, on_update r r' :: upd.2)
      else Ok (r :: upd.1, upd.2)
  end.

Definition new_doc_exists (t : item_table) (d : db) (tg : trigger_row) : bool :=
  match NEW tg with
  | Some n => doc_exists t d (item_doc n)
  | None => true
  end.

(** [.update(patch).eq(column, value)] *)
Definition update_items (t : item_table) (f : item_filter) (p : item_patch)
    (d : db) : result db :=
  upd <- update_rows f p (items_of t d) ;;
  _ <- guard (forallb (new_doc_exists t d) upd.2) foreign_key_violation ;;
  fire t upd.2 (with_items t upd.1 d).

(** [.delete().eq(column, value)] *)
Definition delete_items (t : item_table) (f : item_filter) (d : db) : result db :=
  let gone := filter (λ r, selects f r) (items_of t d) in
  let kept := filter (λ r, ¬ selects f r) (items_of t d) in
  fire t (on_delete <$> gone) (with_items t kept d).

Inductive item_statement :=
  | INSERT (inputs : list item_input)
  | UPDATE (f : item_filter) (p : item_patch)
  | DELETE (f : item_filter).

Definition execute (t : item_table) (s : item_statement) (d : db) : result db :=
  match s with
  | INSERT inputs => insert_items t inputs d
  | UPDATE f p => update_items t f p d
  | DELETE f => delete_items t f d
  end.

(** A statement whose error the caller does not look at: the store is as it
    was when the statement failed. *)
Definition unchecked (r : result db) (d : db) : db :=
  match r with
  | Ok d' => d'
  | Err _ => d
  end.

(** ** Statements on estimates and invoices *)

(** The foreign key [client_id REFERENCES clients(id)]. *)
Definition client_exists (d : db) (c : option uuid) : bool :=
  match c with
  | Some id => bool_decide (is_Some (clients d !! id))
  | None => true
  end.

(** [idx_estimates_number_user]: another estimate of the tenant has the number. *)
Definition estimate_number_taken (d : db) (self : option uuid) (user : uuid)
    (number : string) : bool :=
  bool_decide (map_Exists (λ k e, Some k ≠ self ∧ e_user_id e = user
                                  ∧ e_estimate_number e = number) (estimates d)).

(** [idx_invoices_number_user] *)
Definition invoice_number_taken (d : db) (self : option uuid) (user : uuid)
    (number : string) : bool :=
  bool_decide (map_Exists (λ k i, Some k ≠ self ∧ inv_user_id i = user
                                  ∧ inv_invoice_number i = number) (invoices d)).

Definition estimate_casts (e : estimate) : result unit :=
  _ <- numeric 12 (e_subtotal e) ;;
  _ <- numeric 5 (e_tax_rate e) ;;
  _ <- numeric 12 (e_tax_amount e) ;;
  _ <- numeric 12 (e_total e) ;;
  Ok tt.

Definition invoice_casts (i : invoice) : result unit :=
  _ <- numeric 12 (inv_subtotal i) ;;
  _ <- numeric 5 (inv_tax_rate i) ;;
  _ <- numeric 12 (inv_tax_amount i) ;;
  _ <- numeric 12 (inv_total i) ;;
  Ok tt.

(** [.from('estimates').insert(row).select().single()] *)
Definition insert_estimate (e : estimate) (d : db) : result (uuid * db) :=
  let id := fresh (dom (estimates d)) in
  _ <- estimate_casts e ;;
  _ <- guard (negb (estimate_number_taken d None (e_user_id e) (e_estimate_number e)))
             unique_violation ;;
  _ <- guard (client_exists d (e_client_id e)) foreign_key_violation ;;
  Ok (id, with_estimates (<[id := e]> (estimates d)) d).

Definition insert_invoice (i : invoice) (d : db) : result (uuid * db) :=
  let id := fresh (dom (invoices d)) in
  _ <- invoice_casts i ;;
  _ <- guard (negb (invoice_number_taken d None (inv_user_id i) (inv_invoice_number i)))
             unique_violation ;;
  _ <- guard (client_exists d (inv_client_id i)) foreign_key_violation ;;
  _ <- guard (match inv_source_estimate_id i with
              | Some s => bool_decide (is_Some (estimates d !! s))
              | None => true
              end) foreign_key_violation ;;
  Ok (id, with_invoices (<[id := i]> (invoices d)) d).

(** [.from('estimates').update(columns).eq('id', id)] where [set] writes the
    columns; no row with that id is no error. *)
Definition update_estimate (id : uuid) (set : estimate → estimate) (d : db)
    : result db :=
  match estimates d !! id with
  | None => Ok d
  | Some e =>
      let e' := set e in
      _ <- estimate_casts e' ;;
      _ <- guard (negb (estimate_number_taken d (Some id) (e_user_id e')
                          (e_estimate_number e'))) unique_violation ;;
      _ <- guard (client_exists d (e_client_id e')) foreign_key_violation ;;
      Ok (with_estimates (<[id := e']> (estimates d)) d)
  end.

Definition update_invoice (id : uuid) (set : invoice → invoice) (d : db)
    : result db :=
  match invoices d !! id with
  | None => Ok d
  | Some i =>
      let i' := set i in
      _ <- invoice_casts i' ;;
      _ <- guard (negb (invoice_number_taken d (Some id) (inv_user_id i')
                          (inv_invoice_number i'))) unique_violation ;;
      _ <- guard (client_exists d (inv_client_id i')) foreign_key_violation ;;
      Ok (with_invoices (<[id := i']> (invoices d)) d)
  end.

(** ** Column setters used by the handlers *)

Definition estimate_set_status (s : estimate_status) (e : estimate) : estimate :=
  {| e_user_id := e_user_id e; e_client_id := e_client_id e;
     e_estimate_number := e_estimate_number e; e_title := e_title e;
     e_description := e_description e; e_status := s;
     e_issue_date := e_issue_date e; e_valid_until := e_valid_until e;
     e_subtotal := e_subtotal e; e_tax_rate := e_tax_rate e;
     e_tax_amount := e_tax_amount e; e_total := e_total e;
     e_notes := e_notes e; e_job_site_address := e_job_site_address e;
     e_archived_at := e_archived_at e |}.

Definition estimate_set_archived_at (a : option instant) (e : estimate) : estimate :=
  {| e_user_id := e_user_id e; e_client_id := e_client_id e;
     e_estimate_number := e_estimate_number e; e_title := e_title e;
     e_description := e_description e; e_status := e_status e;
     e_issue_date := e_issue_date e; e_valid_until := e_valid_until e;
     e_subtotal := e_subtotal e; e_tax_rate := e_tax_rate e;
     e_tax_amount := e_tax_amount e; e_total := e_total e;
     e_notes := e_notes e; e_job_site_address := e_job_site_address e;
     e_archived_at := a |}.

Definition invoice_set_paid (s : invoice_status) (p : option date) (i : invoice)
    : invoice :=
  {| inv_user_id := inv_user_id i; inv_client_id := inv_client_id i;
     inv_source_estimate_id := inv_source_estimate_id i;
     inv_invoice_number := inv_invoice_number i; inv_title := inv_title i;
     inv_description := inv_description i; inv_status := s;
     inv_issue_date := inv_issue_date i; inv_due_date := inv_due_date i;
     inv_paid_date := p;
     inv_subtotal := inv_subtotal i; inv_tax_rate := inv_tax_rate i;
     inv_tax_amount := inv_tax_amount i; inv_total := inv_total i;
     inv_notes := inv_notes i; inv_archived_at := inv_archived_at i |}.

Definition invoice_set_archived_at (a : option instant) (i : invoice) : invoice :=
  {| inv_user_id := inv_user_id i; inv_client_id := inv_client_id i;
     inv_source_estimate_id := inv_source_estimate_id i;
     inv_invoice_number := inv_invoice_number i; inv_title := inv_title i;
     inv_description := inv_description i; inv_status := inv_status i;
     inv_issue_date := inv_issue_date i; inv_due_date := inv_due_date i;
     inv_paid_date := inv_paid_date i;
     inv_subtotal := inv_subtotal i; inv_tax_rate := inv_tax_rate i;
     inv_tax_amount := inv_tax_amount i; inv_total := inv_total i;
     inv_notes := inv_notes i; inv_archived_at := a |}.

(** ** The forms *)

(** [LineItem] of the line-items editor (its React key left out). *)
Record LineItem := {
  li_description : string;
  li_quantity : Z;
  li_unit : string;
  li_unit_price : Z;
}.

(** [items.map((item, index) => ({ <doc>_id, description, quantity, unit,
    unit_price, sort_order: index }))] *)
Definition itemsToInsert (doc : uuid) (items : list LineItem) : list item_input :=
  imap (λ index item,
          {| in_doc := doc; in_description := li_description item;
             in_quantity := li_quantity item; in_unit := li_unit item;
             in_unit_price := li_unit_price item;
             in_sort_order := Z.of_nat index |}) items.

Inductive form_mode := create | edit.

(** The state of [EstimateForm]. The component's [subtotal], [taxAmount] and
    [total] are binary floating-point values; they enter the model as the
    values the DECIMAL(12,2) columns take from them. *)
Record EstimateFormState := {
  ef_clientId : option uuid;
  ef_estimateNumber : string;
  ef_title : string;
  ef_description : string;
  ef_status : estimate_status;
  ef_issueDate : date;
  ef_validUntil : option date;
  ef_taxRate : Z;
  ef_notes : string;
  ef_jobSiteAddress : string;
  ef_items : list LineItem;
  ef_subtotal : Z;
  ef_taxAmount : Z;
  ef_total : Z;
}.

(** What [handleSubmit] reads of the props. *)
Record EstimateFormProps := {
  efp_mode : form_mode;
  efp_userId : uuid;
  efp_initial_id : uuid;
  efp_initial_status : estimate_status;
  efp_clientsList : list (uuid * client);
}.

(** The row of the create branch. *)
Definition estimate_of_form (userId : uuid) (status : estimate_status)
    (f : EstimateFormState) : estimate :=
  {| e_user_id := userId; e_client_id := ef_clientId f;
     e_estimate_number := ef_estimateNumber f; e_title := ef_title f;
     e_description := Js.or_null (ef_description f); e_status := status;
     e_issue_date := ef_issueDate f; e_valid_until := ef_validUntil f;
     e_subtotal := ef_subtotal f; e_tax_rate := ef_taxRate f;
     e_tax_amount := ef_taxAmount f; e_total := ef_total f;
     e_notes := Js.or_null (ef_notes f);
     e_job_site_address := Js.or_null (ef_jobSiteAddress f);
     e_archived_at := None |}.

(** The columns of the edit branch. *)
Definition estimate_set_form (status : estimate_status) (f : EstimateFormState)
    (e : estimate) : estimate :=
  {| e_user_id := e_user_id e; e_client_id := ef_clientId f;
     e_estimate_number := ef_estimateNumber f; e_title := ef_title f;
     e_description := Js.or_null (ef_description f); e_status := status;
     e_issue_date := ef_issueDate f; e_valid_until := ef_validUntil f;
     e_subtotal := ef_subtotal f; e_tax_rate := ef_taxRate f;
     e_tax_amount := ef_taxAmount f; e_total := ef_total f;
     e_notes := Js.or_null (ef_notes f);
     e_job_site_address := Js.or_null (ef_jobSiteAddress f);
     e_archived_at := e_archived_at e |}.

(** *** The send-estimate server action *)

Record email := {
  mail_to : string;
  mail_clientName : string;
  mail_estimateNumber : string;
  mail_estimateTitle : string;
  mail_total : Z;
  mail_validUntil : option date;
}.

(** What the mail provider answers; [refused_domain] is the 403 answer whose
    message asks to verify a domain. *)
Inductive mail_answer := delivered | refused_domain | refused.

Inductive action_error :=
  | Unauthorized
  | Estimate_not_found
  | Client_has_no_email
  | Verify_a_domain
  | Failed_to_send_email.

Inductive action_result :=
  | success
  | failure (why : action_error).

(** The parameters of [sendEstimateEmail] (the view URL and the business
    name of the profile left out). *)
Definition estimate_mail (e : estimate) (cl : client) (address : string) : email :=
  {| mail_to := address; mail_clientName := client_name cl;
     mail_estimateNumber := e_estimate_number e; mail_estimateTitle := e_title e;
     mail_total := e_total e; mail_validUntil := e_valid_until e |}.

Definition sendEstimateAction (session : option uuid) (resend : email → mail_answer)
    (estimateId : uuid) (d : db) : action_result * db :=
  match session with
  | None => (failure Unauthorized, d)
  | Some user =>
      match estimates d !! estimateId with
      | None => (failure Estimate_not_found, d)
      | Some estimate =>
          let client := e_client_id estimate ≫= (λ c, clients d !! c) in
          match client, client ≫= client_email with
          | Some cl, Some address =>
              if Js.truthy (Some address) then
                match resend (estimate_mail estimate cl address) with
                | delivered =>
                    (success,
                     with_estimates
                       (alter (estimate_set_status sent) estimateId (estimates d)) d)
                | refused_domain => (failure Verify_a_domain, d)
                | refused => (failure Failed_to_send_email, d)
                end
              else (failure Client_has_no_email, d)
          | _, _ => (failure Client_has_no_email, d)
          end
      end
  end.

(** *** EstimateForm.handleSubmit *)

Inductive submit_outcome :=
  | rejected                                  (* a validation toast, nothing written *)
  | save_failed (e : db_error)                (* the catch branch *)
  | send_failed (id : uuid) (why : action_error)
  | sent_to_client (id : uuid)
  | saved (id : uuid).

(** The writes of the try block up to the send. *)
Definition save_estimate (props : EstimateFormProps) (f : EstimateFormState)
    (saveStatus : estimate_status) (sendEmail : bool) (d : db)
    : result uuid * db :=
  match efp_mode props with
  | create =>
      match insert_estimate
              (estimate_of_form (efp_userId props)
                 (if sendEmail then draft else saveStatus) f) d with
      | Err e => (Err e, d)
      | Ok (id, d1) =>
          match insert_items estimate_items_table (itemsToInsert id (ef_items f)) d1 with
          | Err e => (Err e, d1)
          | Ok d2 => (Ok id, d2)
          end
      end
  | edit =>
      let id := efp_initial_id props in
      match update_estimate id
              (estimate_set_form
                 (if sendEmail then efp_initial_status props else saveStatus) f) d with
      | Err e => (Err e, d)
      | Ok d1 =>
          let d2 := unchecked (delete_items estimate_items_table (by_doc id) d1) d1 in
          let rows := itemsToInsert id (ef_items f) in
          if bool_decide (0 < length rows)%nat then
            match insert_items estimate_items_table rows d2 with
            | Err e => (Err e, d2)
            | Ok d3 => (Ok id, d3)
            end
          else (Ok id, d2)
      end
  end.

Definition selected_client_has_email (props : EstimateFormProps)
    (f : EstimateFormState) : bool :=
  match ef_clientId f with
  | None => false
  | Some c =>
      match list_find (λ p, p.1 = c) (efp_clientsList props) with
      | Some (_, (_, cl)) => Js.truthy (client_email cl)
      | None => false
      end
  end.

Definition handleSubmit (props : EstimateFormProps) (f : EstimateFormState)
    (saveStatus : estimate_status) (sendEmail : bool)
    (session : option uuid) (resend : email → mail_answer) (d : db)
    : submit_outcome * db :=
  if Js.blank (ef_title f) then (rejected, d)
  else if Js.blank (ef_estimateNumber f) then (rejected, d)
  else if bool_decide (length (ef_items f) = 0%nat) then (rejected, d)
  else if sendEmail && negb (selected_client_has_email props f) then (rejected, d)
  else
    match save_estimate props f saveStatus sendEmail d with
    | (Err e, d') => (save_failed e, d')
    | (Ok estimateId, d') =>
        if sendEmail then
          match sendEstimateAction session resend estimateId d' with
          | (failure why, d'') => (send_failed estimateId why, d'')
          | (success, d'') => (sent_to_client estimateId, d'')
          end
        else (saved estimateId, d')
    end.

(** *** InvoiceForm.handleSubmit *)

Record InvoiceFormState := {
  if_clientId : option uuid;
  if_invoiceNumber : string;
  if_title : string;
  if_description : string;
  if_status : invoice_status;
  if_issueDate : date;
  if_dueDate : option date;
  if_taxRate : Z;
  if_notes : string;
  if_items : list LineItem;
}.

Record InvoiceFormProps := {
  ifp_mode : form_mode;
  ifp_userId : uuid;
  ifp_initial_id : uuid;
}.

(** The row of the create branch; the columns it leaves out take their
    defaults (totals 0, the other ones NULL). *)
Definition invoice_of_form (userId : uuid) (f : InvoiceFormState) : invoice :=
  {| inv_user_id := userId; inv_client_id := if_clientId f;
     inv_source_estimate_id := None;
     inv_invoice_number := if_invoiceNumber f; inv_title := if_title f;
     inv_description := Js.or_null (if_description f);
     inv_status := if_status f;
     inv_issue_date := if_issueDate f; inv_due_date := if_dueDate f;
     inv_paid_date := None;
     inv_subtotal := 0; inv_tax_rate := if_taxRate f; inv_tax_amount := 0;
     inv_total := 0; inv_notes := Js.or_null (if_notes f);
     inv_archived_at := None |}.

(** The columns of the edit branch. *)
Definition invoice_set_form (f : InvoiceFormState) (i : invoice) : invoice :=
  {| inv_user_id := inv_user_id i; inv_client_id := if_clientId f;
     inv_source_estimate_id := inv_source_estimate_id i;
     inv_invoice_number := if_invoiceNumber f; inv_title := if_title f;
     inv_description := Js.or_null (if_description f);
     inv_status := if_status f;
     inv_issue_date := if_issueDate f; inv_due_date := if_dueDate f;
     inv_paid_date := inv_paid_date i;
     inv_subtotal := inv_subtotal i; inv_tax_rate := if_taxRate f;
     inv_tax_amount := inv_tax_amount i; inv_total := inv_total i;
     inv_notes := Js.or_null (if_notes f);
     inv_archived_at := inv_archived_at i |}.

Definition save_invoice (props : InvoiceFormProps) (f : InvoiceFormState) (d : db)
    : result uuid * db :=
  match ifp_mode props with
  | create =>
      match insert_invoice (invoice_of_form (ifp_userId props) f) d with
      | Err e => (Err e, d)
      | Ok (id, d1) =>
          match insert_items invoice_items_table (itemsToInsert id (if_items f)) d1 with
          | Err e => (Err e, d1)
          | Ok d2 => (Ok id, d2)
          end
      end
  | edit =>
      let id := ifp_initial_id props in
      match update_invoice id (invoice_set_form f) d with
      | Err e => (Err e, d)
      | Ok d1 =>
          let d2 := unchecked (delete_items invoice_items_table (by_doc id) d1) d1 in
          let rows := itemsToInsert id (if_items f) in
          if bool_decide (0 < length rows)%nat then
            match insert_items invoice_items_table rows d2 with
            | Err e => (Err e, d2)
            | Ok d3 => (Ok id, d3)
            end
          else (Ok id, d2)
      end
  end.

Definition InvoiceForm_handleSubmit (props : InvoiceFormProps)
    (f : InvoiceFormState) (d : db) : submit_outcome * db :=
  if Js.blank (if_title f) then (rejected, d)
  else if Js.blank (if_invoiceNumber f) then (rejected, d)
  else if bool_decide (length (if_items f) = 0%nat) then (rejected, d)
  else
    match save_invoice props f d with
    | (Err e, d') => (save_failed e, d')
    | (Ok id, d') => (saved id, d')
    end.

(** ** The invoice detail and the invoice list *)

(** [status === 'unpaid' && due_date && new Date(due_date) < new Date()],
    the expression of both [InvoiceDetail] and [InvoicesList]. *)
Definition isOverdue (status : invoice_status) (due_date : option date)
    (now : instant) : bool :=
  bool_decide (status = unpaid) &&
  match due_date with
  | Some due => date_instant due <? now
  | None => false
  end.

(** The state [InvoiceDetail] keeps next to its props. *)
Record InvoiceDetailState := {
  currentStatus : invoice_status;
  paidDate : option date;
  inv_archivedAt : option instant;
}.

Definition InvoiceDetail_init (i : invoice) : InvoiceDetailState :=
  {| currentStatus := inv_status i; paidDate := inv_paid_date i;
     inv_archivedAt := inv_archived_at i |}.

Definition toggled (s : invoice_status) : invoice_status :=
  match s with paid => unpaid | unpaid => paid end.

Definition newPaidDate (newStatus : invoice_status) (now : instant) : option date :=
  match newStatus with
  | paid => Some (utc_date now)
  | unpaid => None
  end.

(** [InvoiceDetail.handleTogglePaid] *)
Definition InvoiceDetail_handleTogglePaid (id : uuid) (st : InvoiceDetailState)
    (now : instant) (d : db) : InvoiceDetailState * db :=
  let newStatus := toggled (currentStatus st) in
  let paid_date := newPaidDate newStatus now in
  ({| currentStatus := newStatus; paidDate := paid_date;
      inv_archivedAt := inv_archivedAt st |},
   with_invoices (alter (invoice_set_paid newStatus paid_date) id (invoices d)) d).

(** [InvoicesList.handleTogglePaid], from the status of the listed invoice. *)
Definition InvoicesList_handleTogglePaid (id : uuid) (listed : invoice_status)
    (now : instant) (d : db) : db :=
  let newStatus := toggled listed in
  let paidDate := newPaidDate newStatus now in
  with_invoices (alter (invoice_set_paid newStatus paidDate) id (invoices d)) d.

(** [archivedAt ? null : new Date().toISOString()] *)
Definition newArchivedAt (archivedAt : option instant) (now : instant)
    : option instant :=
  match archivedAt with
  | Some _ => None
  | None => Some now
  end.

(** [InvoiceDetail.handleArchive] *)
Definition InvoiceDetail_handleArchive (id : uuid) (st : InvoiceDetailState)
    (now : instant) (d : db) : InvoiceDetailState * db :=
  let a := newArchivedAt (inv_archivedAt st) now in
  ({| currentStatus := currentStatus st; paidDate := paidDate st;
      inv_archivedAt := a |},
   with_invoices (alter (invoice_set_archived_at a) id (invoices d)) d).

(** ** The estimate detail *)

(** The estimate as [EstimatePage] selects it by id, with its client and
    its estimate_items rows embedded. *)
Record EstimateView := {
  ev_id : uuid;
  ev_estimate : estimate;
  ev_client : option (uuid * client);
  ev_items : list item_row;
}.

Definition EstimatePage (id : uuid) (d : db) : option EstimateView :=
  e ← estimates d !! id;
  Some {| ev_id := id; ev_estimate := e;
          ev_client := c ← e_client_id e; cl ← clients d !! c; Some (c, cl);
          ev_items := filter (λ r, item_doc r = id) (estimate_items d) |}.

(** [EstimateDetail.handleStatusChange] *)
Definition handleStatusChange (id : uuid) (newStatus : estimate_status) (d : db)
    : db :=
  with_estimates (alter (estimate_set_status newStatus) id (estimates d)) d.

(** [EstimateDetail.handleArchive]; the component state is [archivedAt]. *)
Definition handleArchive (id : uuid) (archivedAt : option instant) (now : instant)
    (d : db) : option instant * db :=
  let a := newArchivedAt archivedAt now in
  (a, with_estimates (alter (estimate_set_archived_at a) id (estimates d)) d).

Inductive convert_outcome :=
  | converted (invoice_id : uuid)
  | convert_failed (e : db_error).

(** The row [handleConvertToInvoice] inserts; [t_number], [t_issue] and
    [t_due] are its three readings of the clock. *)
Definition invoice_of_estimate (userId : uuid) (v : EstimateView)
    (t_number t_issue t_due : instant) : invoice :=
  {| inv_user_id := userId;
     inv_client_id := fst <$> ev_client v;
     inv_source_estimate_id := Some (ev_id v);
     inv_invoice_number := document_number "INV" t_number;
     inv_title := e_title (ev_estimate v);
     inv_description := e_description (ev_estimate v);
     inv_status := unpaid;
     inv_issue_date := utc_date t_issue;
     inv_due_date := Some (utc_date (t_due + 30 * 24 * 60 * 60 * 1000));
     inv_paid_date := None;
     inv_subtotal := 0;
     inv_tax_rate := e_tax_rate (ev_estimate v);
     inv_tax_amount := 0;
     inv_total := 0;
     inv_notes := e_notes (ev_estimate v);
     inv_archived_at := None |}.

(** [estimate.items.map((item, index) => ({ invoice_id, description, quantity,
    unit, unit_price, sort_order: index }))] *)
Definition copied_items (invoice_id : uuid) (items : list item_row)
    : list item_input :=
  imap (λ index item,
          {| in_doc := invoice_id; in_description := item_description item;
             in_quantity := item_quantity item; in_unit := item_unit item;
             in_unit_price := item_unit_price item;
             in_sort_order := Z.of_nat index |}) items.

Definition handleConvertToInvoice (userId : uuid) (v : EstimateView)
    (t_number t_issue t_due : instant) (d : db) : convert_outcome * db :=
  match insert_invoice (invoice_of_estimate userId v t_number t_issue t_due) d with
  | Err e => (convert_failed e, d)
  | Ok (id, d1) =>
      let rows := copied_items id (ev_items v) in
      if bool_decide (0 < length rows)%nat then
        match insert_items invoice_items_table rows d1 with
        | Err e => (convert_failed e, d1)
        | Ok d2 => (converted id, d2)
        end
      else (converted id, d1)
  end.

(** ** The list pages *)

(** [EstimatesPage]: [.from('estimates').select(...).is('archived_at', null)] *)
Definition EstimatesPage (d : db) : gmap uuid estimate :=
  filter (λ kv, e_archived_at kv.2 = None) (estimates d).

(** [InvoicesPage]: [.from('invoices').select(...)], ordered by created_at. *)
Definition InvoicesPage (d : db) : gmap uuid invoice :=
  invoices d.

(** ** The vocabulary of the specification *)

(** The totals the aggregator derives for document [doc] with tax rate [rate]
    from the rows of its line-item table. *)
Definition subtotal_of (rows : list item_row) (doc : uuid) : Z :=
  round2 4 (sum_products doc rows).

Definition tax_amount_of (rows : list item_row) (doc : uuid) (rate : Z) : Z :=
  round2 6 (subtotal_of rows doc * rate).

Definition total_of (rows : list item_row) (doc : uuid) (rate : Z) : Z :=
  subtotal_of rows doc + tax_amount_of rows doc rate.

Definition estimate_recalculated (rows : list item_row) (doc : uuid) (e : estimate)
    : estimate :=
  estimate_with_totals (subtotal_of rows doc)
    (tax_amount_of rows doc (e_tax_rate e)) (total_of rows doc (e_tax_rate e)) e.

Definition invoice_recalculated (rows : list item_row) (doc : uuid) (i : invoice)
    : invoice :=
  invoice_with_totals (subtotal_of rows doc)
    (tax_amount_of rows doc (inv_tax_rate i)) (total_of rows doc (inv_tax_rate i)) i.

(** Tax rate, subtotal, tax amount and total as stored for a document. *)
Definition stored_totals (t : item_table) (d : db) (doc : uuid)
    : option (Z * Z * Z * Z) :=
  match t with
  | estimate_items_table =>
      (λ e, (e_tax_rate e, e_subtotal e, e_tax_amount e, e_total e))
        <$> estimates d !! doc
  | invoice_items_table =>
      (λ i, (inv_tax_rate i, inv_subtotal i, inv_tax_amount i, inv_total i))
        <$> invoices d !! doc
  end.

(** The stored totals of [doc] are those of its current line items:
    subtotal = round2(sum of quantity x unit_price),
    tax_amount = round2(subtotal x rate / 100), total = subtotal + tax_amount. *)
Definition totals_agree (t : item_table) (d : db) (doc : uuid) : Prop :=
  ∀ rate sub tax tot,
    stored_totals t d doc = Some (rate, sub, tax, tot) →
    sub = round2 4 (sum_products doc (items_of t d))
    ∧ tax = round2 6 (sub * rate)
    ∧ tot = sub + tax.

(** The documents whose row trigger a statement fires. *)
Definition recalculated (t : item_table) (s : item_statement) (d : db) : list uuid :=
  match s with
  | INSERT inputs => in_doc <$> inputs
  | UPDATE f p =>
      (λ r, default (item_doc r) (set_doc p))
        <$> filter (λ r, selects f r) (items_of t d)
  | DELETE f => item_doc <$> filter (λ r, selects f r) (items_of t d)
  end.

(** The documents one of whose line items a statement inserts, updates or
    deletes. *)
Definition touched (t : item_table) (s : item_statement) (d : db) : list uuid :=
  match s with
  | INSERT inputs => in_doc <$> inputs
  | UPDATE f p => item_doc <$> filter (λ r, selects f r) (items_of t d)
  | DELETE f => item_doc <$> filter (λ r, selects f r) (items_of t d)
  end.

(** The foreign key of a line-item table holds in the store. *)
Definition items_reference_documents (t : item_table) (d : db) : Prop :=
  Forall (λ r, doc_exists t d (item_doc r)) (items_of t d).

(** The document table a line-item table refers to, and its rows. *)
Definition doc_row (t : item_table) : Type :=
  match t with
  | estimate_items_table => estimate
  | invoice_items_table => invoice
  end.

Definition docs (t : item_table) (d : db) : gmap uuid (doc_row t) :=
  match t return gmap uuid (doc_row t) with
  | estimate_items_table => estimates d
  | invoice_items_table => invoices d
  end.

Definition with_docs (t : item_table) : gmap uuid (doc_row t) → db → db :=
  match t return gmap uuid (doc_row t) → db → db with
  | estimate_items_table => with_estimates
  | invoice_items_table => with_invoices
  end.

Definition row_recalculated (t : item_table) (rows : list item_row) (k : uuid)
    : doc_row t → doc_row t :=
  match t return doc_row t → doc_row t with
  | estimate_items_table => estimate_recalculated rows k
  | invoice_items_table => invoice_recalculated rows k
  end.

Definition row_totals (t : item_table) : doc_row t → Z * Z * Z * Z :=
  match t return doc_row t → Z * Z * Z * Z with
  | estimate_items_table =>
      λ e, (e_tax_rate e, e_subtotal e, e_tax_amount e, e_total e)
  | invoice_items_table =>
      λ i, (inv_tax_rate i, inv_subtotal i, inv_tax_amount i, inv_total i)
  end.

Definition row_tax_rate (t : item_table) (r : doc_row t) : Z :=
  (row_totals t r).1.1.1.

(** The totals of [doc] fit their DECIMAL(12,2) columns. *)
Definition totals_fit (rows : list item_row) (doc : uuid) (rate : Z) : Prop :=
  Z.abs (subtotal_of rows doc) < 10 ^ 12
  ∧ Z.abs (tax_amount_of rows doc rate) < 10 ^ 12
  ∧ Z.abs (total_of rows doc rate) < 10 ^ 12.

(** A new row holds what the handler sent, and its generated amount. *)
Definition stored_as (i : item_input) (r : item_row) : Prop :=
  r = {| item_id := item_id r; item_doc := in_doc i;
         item_description := in_description i; item_quantity := in_quantity i;
         item_unit := in_unit i; item_unit_price := in_unit_price i;
         item_amount := round2 4 (in_quantity i * in_unit_price i);
         item_sort_order := in_sort_order i |}.

(** [Σ quantity x unit_price] of a list of (quantity, unit_price) pairs. *)
Definition sum_of_products (qps : list (Z * Z)) : Z :=
  foldr (λ qp acc, qp.1 * qp.2 + acc) 0 qps.

(** Row [dst] holds line item [src] for invoice [invoice_id], numbered
    [index]. *)
Definition copied_as (invoice_id : uuid) (index : nat) (src dst : item_row) : Prop :=
  item_doc dst = invoice_id
  ∧ item_description dst = item_description src
  ∧ item_quantity dst = item_quantity src
  ∧ item_unit dst = item_unit src
  ∧ item_unit_price dst = item_unit_price src
  ∧ item_sort_order dst = Z.of_nat index.

(** Overdue in the words of the specification: the invoice is unpaid, has a
    due date, and the due date is before today. *)
Definition overdue_as_specified (status : invoice_status) (due_date : option date)
    (now : instant) : bool :=
  bool_decide (status = unpaid) &&
  match due_date with
  | Some due => due <? utc_date now
  | None => false
  end.

(** The estimate row holds the fields of the form. *)
Definition form_stored (f : EstimateFormState) (e : estimate) : Prop :=
  e_client_id e = ef_clientId f
  ∧ e_estimate_number e = ef_estimateNumber f
  ∧ e_title e = ef_title f
  ∧ e_description e = Js.or_null (ef_description f)
  ∧ e_issue_date e = ef_issueDate f
  ∧ e_valid_until e = ef_validUntil f
  ∧ e_tax_rate e = ef_taxRate f
  ∧ e_notes e = Js.or_null (ef_notes f)
  ∧ e_job_site_address e = Js.or_null (ef_jobSiteAddress f).

(** The rows of [doc] among [rows] are the line items of the form, in its
    order and numbered by position. *)
Definition line_items_stored (doc : uuid) (items : list LineItem)
    (rows : list item_row) : Prop :=
  Forall2 stored_as (itemsToInsert doc items)
          (filter (λ r, item_doc r = doc) rows).

(** The status "save and send" writes before it calls the send action. *)
Definition pre_send_status (props : EstimateFormProps) : estimate_status :=
  match efp_mode props with
  | create => draft
  | edit => efp_initial_status props
  end.

(** ** Stores and requests used as examples *)

Module Example.

Definition tenant : uuid := 100%positive.
Definition other_tenant : uuid := 200%positive.

Definition ann : client :=
  {| client_user_id := tenant; client_name := "Ann";
     client_email := Some "ann@example.com" |}.

(** An estimate of 1.00 hr at 100.00 with 8% tax, and an empty one. *)
Definition deck : estimate :=
  {| e_user_id := tenant; e_client_id := Some 1%positive;
     e_estimate_number := "EST-000001"; e_title := "Deck";
     e_description := None; e_status := approved;
     e_issue_date := 20000; e_valid_until := None;
     e_subtotal := 10000; e_tax_rate := 800; e_tax_amount := 800;
     e_total := 10800; e_notes := None; e_job_site_address := None;
     e_archived_at := None |}.

Definition fence : estimate :=
  {| e_user_id := tenant; e_client_id := Some 1%positive;
     e_estimate_number := "EST-000002"; e_title := "Fence";
     e_description := None; e_status := draft;
     e_issue_date := 20000; e_valid_until := None;
     e_subtotal := 0; e_tax_rate := 800; e_tax_amount := 0;
     e_total := 0; e_notes := None; e_job_site_address := None;
     e_archived_at := None |}.

Definition labor (sort : Z) : item_row :=
  {| item_id := 5; item_doc := 2; item_description := "Labor";
     item_quantity := 100; item_unit := "hr"; item_unit_price := 10000;
     item_amount := 10000; item_sort_order := sort |}.

(** Estimate 2 is [deck] with its one line item, estimate 3 is [fence]. *)
Definition store (sort : Z) : db :=
  {| clients := {[ 1%positive := ann ]};
     estimates := {[ 2%positive := deck; 3%positive := fence ]};
     estimate_items := [labor sort];
     invoices := ∅;
     invoice_items := [] |}.

(** [UPDATE estimate_items SET estimate_id = 3 WHERE id = 5] *)
Definition move_item : item_statement :=
  UPDATE (by_id 5)
    {| set_doc := Some 3%positive; set_description := None;
       set_quantity := None; set_unit := None; set_unit_price := None;
       set_sort_order := None |}.

(** The estimate of the conversion example: 10 hr at 50.00 and 1 each at
    200.00, tax rate 8, shown with the stored totals of [deck]. *)
Definition quote_items : list item_row :=
  [ {| item_id := 6; item_doc := 2; item_description := "Labor";
       item_quantity := 1000; item_unit := "hr"; item_unit_price := 5000;
       item_amount := 50000; item_sort_order := 0 |};
    {| item_id := 7; item_doc := 2; item_description := "Materials";
       item_quantity := 100; item_unit := "each"; item_unit_price := 20000;
       item_amount := 20000; item_sort_order := 1 |} ].

Definition quote : EstimateView :=
  {| ev_id := 2; ev_estimate := deck; ev_client := Some (1%positive, ann);
     ev_items := quote_items |}.

(** [deck] read after its line items are gone, the stored totals still
    100.00, 8.00 and 108.00. *)
Definition emptied_quote : EstimateView :=
  {| ev_id := 2; ev_estimate := deck; ev_client := Some (1%positive, ann);
     ev_items := [] |}.

(** 2026-11-02T10:00:00.000Z *)
Definition now : instant := 1793613600000.

(** An unpaid invoice of one line item, and the store that holds it. *)
Definition bill : invoice :=
  {| inv_user_id := tenant; inv_client_id := Some 1%positive;
     inv_source_estimate_id := None;
     inv_invoice_number := "INV-000001"; inv_title := "Deck";
     inv_description := None; inv_status := unpaid;
     inv_issue_date := 20000; inv_due_date := Some 20030;
     inv_paid_date := None;
     inv_subtotal := 10000; inv_tax_rate := 800; inv_tax_amount := 800;
     inv_total := 10800; inv_notes := None; inv_archived_at := None |}.

Definition billing : db :=
  {| clients := {[ 1%positive := ann ]};
     estimates := ∅;
     estimate_items := [];
     invoices := {[ 4%positive := bill ]};
     invoice_items :=
       [ {| item_id := 8; item_doc := 4; item_description := "Labor";
            item_quantity := 100; item_unit := "hr"; item_unit_price := 10000;
            item_amount := 10000; item_sort_order := 0 |} ] |}.

(** The edit form of [bill] with the status select set to Paid. *)
Definition bill_marked_paid : InvoiceFormState :=
  {| if_clientId := Some 1%positive; if_invoiceNumber := "INV-000001";
     if_title := "Deck"; if_description := ""; if_status := paid;
     if_issueDate := 20000; if_dueDate := Some 20030; if_taxRate := 800;
     if_notes := "";
     if_items := [ {| li_description := "Labor"; li_quantity := 100;
                      li_unit := "hr"; li_unit_price := 10000 |} ] |}.

Definition edit_bill : InvoiceFormProps :=
  {| ifp_mode := edit; ifp_userId := tenant; ifp_initial_id := 4 |}.

(** The edit form of [deck] (estimate 2) with a new title and two line items. *)
Definition deck_form : EstimateFormState :=
  {| ef_clientId := Some 1%positive; ef_estimateNumber := "EST-000001";
     ef_title := "Deck and stairs"; ef_description := "";
     ef_status := approved; ef_issueDate := 20000; ef_validUntil := None;
     ef_taxRate := 800; ef_notes := ""; ef_jobSiteAddress := "";
     ef_items := [ {| li_description := "Labor"; li_quantity := 1000;
                      li_unit := "hr"; li_unit_price := 5000 |};
                   {| li_description := "Materials"; li_quantity := 100;
                      li_unit := "each"; li_unit_price := 20000 |} ];
     ef_subtotal := 70000; ef_taxAmount := 5600; ef_total := 75600 |}.

Definition edit_deck : EstimateFormProps :=
  {| efp_mode := edit; efp_userId := tenant; efp_initial_id := 2;
     efp_initial_status := approved;
     efp_clientsList := [(1%positive, ann)] |}.

(** The create form of a tenant, with the number of [deck]. *)
Definition new_estimate (user : uuid) : EstimateFormProps :=
  {| efp_mode := create; efp_userId := user; efp_initial_id := 1;
     efp_initial_status := draft; efp_clientsList := [(1%positive, ann)] |}.

(** A new estimate without client, numbered EST-000777. *)
Definition new_form : EstimateFormState :=
  {| ef_clientId := None; ef_estimateNumber := "EST-000777";
     ef_title := "Porch"; ef_description := "";
     ef_status := draft; ef_issueDate := 20000; ef_validUntil := None;
     ef_taxRate := 800; ef_notes := ""; ef_jobSiteAddress := "";
     ef_items := [ {| li_description := "Labor"; li_quantity := 1000;
                      li_unit := "hr"; li_unit_price := 5000 |} ];
     ef_subtotal := 50000; ef_taxAmount := 4000; ef_total := 54000 |}.

(** The create form of an invoice of a tenant, numbered INV-000777. *)
Definition new_invoice (user : uuid) : InvoiceFormProps :=
  {| ifp_mode := create; ifp_userId := user; ifp_initial_id := 1 |}.

Definition new_invoice_form : InvoiceFormState :=
  {| if_clientId := None; if_invoiceNumber := "INV-000777";
     if_title := "Porch"; if_description := ""; if_status := unpaid;
     if_issueDate := 20000; if_dueDate := Some 20030; if_taxRate := 800;
     if_notes := "";
     if_items := [ {| li_description := "Labor"; li_quantity := 1000;
                      li_unit := "hr"; li_unit_price := 5000 |} ] |}.

End Example.

(** ** Deleting documents and clients *)

Definition with_clients (cs : gmap uuid client) (d : db) : db :=
  {| clients := cs; estimates := estimates d; estimate_items := estimate_items d;
     invoices := invoices d; invoice_items := invoice_items d |}.

Definition estimate_set_client_id (c : option uuid) (e : estimate) : estimate :=
  {| e_user_id := e_user_id e; e_client_id := c;
     e_estimate_number := e_estimate_number e; e_title := e_title e;
     e_description := e_description e; e_status := e_status e;
     e_issue_date := e_issue_date e; e_valid_until := e_valid_until e;
     e_subtotal := e_subtotal e; e_tax_rate := e_tax_rate e;
     e_tax_amount := e_tax_amount e; e_total := e_total e;
     e_notes := e_notes e; e_job_site_address := e_job_site_address e;
     e_archived_at := e_archived_at e |}.

Definition invoice_set_client_id (c : option uuid) (i : invoice) : invoice :=
  {| inv_user_id := inv_user_id i; inv_client_id := c;
     inv_source_estimate_id := inv_source_estimate_id i;
     inv_invoice_number := inv_invoice_number i; inv_title := inv_title i;
     inv_description := inv_description i; inv_status := inv_status i;
     inv_issue_date := inv_issue_date i; inv_due_date := inv_due_date i;
     inv_paid_date := inv_paid_date i;
     inv_subtotal := inv_subtotal i; inv_tax_rate := inv_tax_rate i;
     inv_tax_amount := inv_tax_amount i; inv_total := inv_total i;
     inv_notes := inv_notes i; inv_archived_at := inv_archived_at i |}.

Definition invoice_set_source_estimate_id (s : option uuid) (i : invoice)
    : invoice :=
  {| inv_user_id := inv_user_id i; inv_client_id := inv_client_id i;
     inv_source_estimate_id := s;
     inv_invoice_number := inv_invoice_number i; inv_title := inv_title i;
     inv_description := inv_description i; inv_status := inv_status i;
     inv_issue_date := inv_issue_date i; inv_due_date := inv_due_date i;
     inv_paid_date := inv_paid_date i;
     inv_subtotal := inv_subtotal i; inv_tax_rate := inv_tax_rate i;
     inv_tax_amount := inv_tax_amount i; inv_total := inv_total i;
     inv_notes := inv_notes i; inv_archived_at := inv_archived_at i |}.

(** [source_estimate_id UUID REFERENCES estimates(id) ON DELETE SET NULL] *)
Definition source_estimate_set_null (id : uuid) (i : invoice) : invoice :=
  if decide (inv_source_estimate_id i = Some id)
  then invoice_set_source_estimate_id None i else i.

(** [client_id UUID REFERENCES clients(id) ON DELETE SET NULL], of estimates
    and of invoices. *)
Definition estimate_client_set_null (id : uuid) (e : estimate) : estimate :=
  if decide (e_client_id e = Some id) then estimate_set_client_id None e else e.

Definition invoice_client_set_null (id : uuid) (i : invoice) : invoice :=
  if decide (inv_client_id i = Some id) then invoice_set_client_id None i else i.

(** [.from('estimates').delete().eq('id', id)]. The row goes; the foreign key
    of estimate_items (ON DELETE CASCADE) deletes its line items in one
    statement, whose row triggers fire when the estimate is gone already; the
    one of invoices (ON DELETE SET NULL) clears [source_estimate_id]. No row
    with that id is no error. *)
Definition delete_estimate (id : uuid) (d : db) : result db :=
  match estimates d !! id with
  | None => Ok d
  | Some _ =>
      delete_items estimate_items_table (by_doc id)
        (with_invoices (source_estimate_set_null id <$> invoices d)
           (with_estimates (delete id (estimates d)) d))
  end.

(** [.from('invoices').delete().eq('id', id)], with the cascade to
    invoice_items. *)
Definition delete_invoice (id : uuid) (d : db) : result db :=
  match invoices d !! id with
  | None => Ok d
  | Some _ =>
      delete_items invoice_items_table (by_doc id)
        (with_invoices (delete id (invoices d)) d)
  end.

(** [.from('clients').delete().eq('id', id)]: estimates and invoices of the
    client stay, with [client_id] NULL. *)
Definition delete_client (id : uuid) (d : db) : db :=
  match clients d !! id with
  | None => d
  | Some _ =>
      {| clients := delete id (clients d);
         estimates := estimate_client_set_null id <$> estimates d;
         estimate_items := estimate_items d;
         invoices := invoice_client_set_null id <$> invoices d;
         invoice_items := invoice_items d |}
  end.

Inductive delete_outcome :=
  | not_confirmed                    (* confirm(...) answered with Cancel *)
  | deleted
  | delete_failed (e : db_error).    (* the catch branch *)

(** [EstimateDetail.handleDelete]; [confirmed] is the answer to [confirm]. *)
Definition EstimateDetail_handleDelete (confirmed : bool) (id : uuid) (d : db)
    : delete_outcome * db :=
  if confirmed then
    match delete_estimate id d with
    | Ok d' => (deleted, d')
    | Err e => (delete_failed e, d)
    end
  else (not_confirmed, d).

(** [InvoiceDetail.handleDelete] *)
Definition InvoiceDetail_handleDelete (confirmed : bool) (id : uuid) (d : db)
    : delete_outcome * db :=
  if confirmed then
    match delete_invoice id d with
    | Ok d' => (deleted, d')
    | Err e => (delete_failed e, d)
    end
  else (not_confirmed, d).

(** [ClientList.handleDelete], with the [clients] state of the component:
    [setClients((prev) => prev.filter((c) => c.id !== client.id))]. *)
Definition ClientList_handleDelete (confirmed : bool) (id : uuid)
    (prev : list (uuid * client)) (d : db)
    : delete_outcome * list (uuid * client) * db :=
  if confirmed then
    (deleted, filter (λ c, c.1 ≠ id) prev, delete_client id d)
  else (not_confirmed, prev, d).

(** ** The estimate detail, continued *)

(** [EstimateDetail.handleSendToClient]: the guard reads the client of the
    estimate as the page loaded it; [None] when it returns before the call. *)
Definition handleSendToClient (v : EstimateView) (session : option uuid)
    (resend : email → mail_answer) (d : db) : option action_result * db :=
  if Js.truthy (ev_client v ≫= (λ c, client_email c.2)) then
    let r := sendEstimateAction session resend (ev_id v) d in (Some r.1, r.2)
  else (None, d).

(** ** The handlers as requests to the store *)

(** One call of a handler of the client, with what it reads besides the
    store: its props and component state (which may be out of date), the
    clock, the session and the answer of the mail provider. *)
Inductive request :=
  | EstimateForm_submit (props : EstimateFormProps) (f : EstimateFormState)
      (saveStatus : estimate_status) (sendEmail : bool)
      (session : option uuid) (resend : email → mail_answer)
  | InvoiceForm_submit (props : InvoiceFormProps) (f : InvoiceFormState)
  | EstimateDetail_send (v : EstimateView) (session : option uuid)
      (resend : email → mail_answer)
  | EstimateDetail_status (id : uuid) (newStatus : estimate_status)
  | EstimateDetail_archive (id : uuid) (archivedAt : option instant) (now : instant)
  | EstimateDetail_convert (userId : uuid) (v : EstimateView)
      (t_number t_issue t_due : instant)
  | EstimateDetail_delete (confirmed : bool) (id : uuid)
  | InvoiceDetail_toggle (id : uuid) (st : InvoiceDetailState) (now : instant)
  | InvoiceDetail_archive (id : uuid) (st : InvoiceDetailState) (now : instant)
  | InvoiceDetail_delete (confirmed : bool) (id : uuid)
  | InvoicesList_toggle (id : uuid) (listed : invoice_status) (now : instant)
  | ClientList_delete (confirmed : bool) (id : uuid).

(** The store a request leaves. *)
Definition handle (r : request) (d : db) : db :=
  match r with
  | EstimateForm_submit props f saveStatus sendEmail session resend =>
      (handleSubmit props f saveStatus sendEmail session resend d).2
  | InvoiceForm_submit props f => (InvoiceForm_handleSubmit props f d).2
  | EstimateDetail_send v session resend =>
      (handleSendToClient v session resend d).2
  | EstimateDetail_status id newStatus => handleStatusChange id newStatus d
  | EstimateDetail_archive id archivedAt now => (handleArchive id archivedAt now d).2
  | EstimateDetail_convert userId v t_number t_issue t_due =>
      (handleConvertToInvoice userId v t_number t_issue t_due d).2
  | EstimateDetail_delete confirmed id => (EstimateDetail_handleDelete confirmed id d).2
  | InvoiceDetail_toggle id st now => (InvoiceDetail_handleTogglePaid id st now d).2
  | InvoiceDetail_archive id st now => (InvoiceDetail_handleArchive id st now d).2
  | InvoiceDetail_delete confirmed id => (InvoiceDetail_handleDelete confirmed id d).2
  | InvoicesList_toggle id listed now => InvoicesList_handleTogglePaid id listed now d
  | ClientList_delete confirmed id => (ClientList_handleDelete confirmed id [] d).2
  end.

(** The requests of a session, one after the other. *)
Definition run (rs : list request) (d : db) : db :=
  foldl (λ d r, handle r d) d rs.

(** Every invoice line item belongs to an invoice, and the stored totals
    of every invoice are those of its line items. *)
Definition invoice_totals_consistent (d : db) : Prop :=
  items_reference_documents invoice_items_table d
  ∧ ∀ id, totals_agree invoice_items_table d id.

(** Every estimate line item belongs to an estimate, and the stored totals
    of every estimate that has line items are those of its line items. *)
Definition estimate_totals_consistent (d : db) : Prop :=
  items_reference_documents estimate_items_table d
  ∧ ∀ id, filter (λ r, item_doc r = id) (estimate_items d) ≠ [] →
          totals_agree estimate_items_table d id.

(** The estimates and their line items are the same. *)
Definition same_estimates (d d' : db) : Prop :=
  estimates d' = estimates d ∧ estimate_items d' = estimate_items d.

(** The invoices and their line items are the same. *)
Definition same_invoices (d d' : db) : Prop :=
  invoices d' = invoices d ∧ invoice_items d' = invoice_items d.

(** ** Document numbers *)

(** The last six decimal digits of [n], most significant first. *)
Definition last_six (n : Z) : string :=
  String (Js.digit_char ((n `div` 100000) `mod` 10))
 (String (Js.digit_char ((n `div` 10000) `mod` 10))
 (String (Js.digit_char ((n `div` 1000) `mod` 10))
 (String (Js.digit_char ((n `div` 100) `mod` 10))
 (String (Js.digit_char ((n `div` 10) `mod` 10))
 (String (Js.digit_char (n `mod` 10)) ""))))).


(** ** Opening a stored document in its form *)

(** [items.map((item) => ({ id: item.id, description: item.description,
    quantity: item.quantity, unit: item.unit, unit_price: item.unit_price }))],
    the line items of a stored document as the line-items editor takes them
    (the React key left out, as in [LineItem]). *)
Definition line_item_of (r : item_row) : LineItem :=
  {| li_description := item_description r; li_quantity := item_quantity r;
     li_unit := item_unit r; li_unit_price := item_unit_price r |}.

(** [EditInvoicePage]: the invoice selected by id with its invoice_items
    rows, as the page hands it to [InvoiceForm] in its props, and the state
    the [useState] initialisers of the form make of it. The page replaces a
    NULL description or notes by the empty string; the rows come in the order
    of the table. [None] is the 404 page. *)
Definition EditInvoicePage (userId id : uuid) (d : db)
    : option (InvoiceFormProps * InvoiceFormState) :=
  i ← invoices d !! id;
  Some ({| ifp_mode := edit; ifp_userId := userId; ifp_initial_id := id |},
        {| if_clientId := inv_client_id i;
           if_invoiceNumber := inv_invoice_number i;
           if_title := inv_title i;
           if_description := default "" (inv_description i);
           if_status := inv_status i;
           if_issueDate := inv_issue_date i;
           if_dueDate := inv_due_date i;
           if_taxRate := inv_tax_rate i;
           if_notes := default "" (inv_notes i);
           if_items := line_item_of
                         <$> filter (λ r, item_doc r = id) (invoice_items d) |}).

(** A text column after a form was opened and saved with the field
    untouched: the empty string has become NULL. *)
Definition text_saved_back (x : option string) : option string :=
  Js.or_null (default "" x).

(** ** The list components *)

(** [groupedEstimates] of [EstimatesList], its four Kanban columns, keyed by
    the status: [estimates.filter((e) => e.status === status)]. *)
Definition groupedEstimates (estimates : list (uuid * estimate))
    (status : estimate_status) : list (uuid * estimate) :=
  filter (λ e, e_status e.2 = status) estimates.

(** [groupedInvoices] of [InvoicesList]. *)
Definition groupedInvoices (invoices : list (uuid * invoice))
    (status : invoice_status) : list (uuid * invoice) :=
  filter (λ i, inv_status i.2 = status) invoices.

(** The rows [InvoicesPage] hands to [InvoicesList] are rows of the store. *)
Definition listed_from (d : db) (invoices : list (uuid * invoice)) : Prop :=
  Forall (λ inv, InvoicesPage d !! inv.1 = Some inv.2) invoices.

(** The state update of [InvoicesList.handleTogglePaid], after the store
    has taken the update:
    [setInvoices((prev) => prev.map((inv) => inv.id === invoice.id
       ? { ...inv, status: newStatus, paid_date: paidDate } : inv))]. *)
Definition InvoicesList_setInvoices (id : uuid) (listed : invoice_status)
    (now : instant) (prev : list (uuid * invoice)) : list (uuid * invoice) :=
  let newStatus := toggled listed in
  let paidDate := newPaidDate newStatus now in
  (λ inv, if decide (inv.1 = id)
          then (inv.1, invoice_set_paid newStatus paidDate inv.2) else inv)
    <$> prev.

(** ** The business profile *)

Record profile := {
  business_name : option string;
  business_address : option string;
  business_phone : option string;
  business_email : option string;
  license_number : option string;
  logo_url : option string;
  default_payment_terms : option string;
  business_intro : option string;
}.

(** [handle_new_user()], the row trigger AFTER INSERT ON auth.users:
    [INSERT INTO profiles (id, business_email) VALUES (NEW.id, NEW.email)];
    the other columns take their default, NULL. *)
Definition handle_new_user (id : uuid) (email : option string)
    (profiles : gmap uuid profile) : result (gmap uuid profile) :=
  match profiles !! id with
  | Some _ => Err unique_violation
  | None =>
      Ok (<[id := {| business_name := None; business_address := None;
                     business_phone := None; business_email := email;
                     license_number := None; logo_url := None;
                     default_payment_terms := None; business_intro := None |}]>
            profiles)
  end.

(** The [formData] state of [SettingsForm]. *)
Record SettingsFormData := {
  sf_business_name : string;
  sf_business_address : string;
  sf_business_phone : string;
  sf_business_email : string;
  sf_license_number : string;
  sf_logo_url : string;
  sf_default_payment_terms : string;
  sf_business_intro : string;
}.

(** The [useState] initialiser: [profile?.column || ''] for every column. *)
Definition SettingsForm_init (p : option profile) : SettingsFormData :=
  {| sf_business_name := default "" (p ≫= business_name);
     sf_business_address := default "" (p ≫= business_address);
     sf_business_phone := default "" (p ≫= business_phone);
     sf_business_email := default "" (p ≫= business_email);
     sf_license_number := default "" (p ≫= license_number);
     sf_logo_url := default "" (p ≫= logo_url);
     sf_default_payment_terms := default "" (p ≫= default_payment_terms);
     sf_business_intro := default "" (p ≫= business_intro) |}.

(** [handleLogoUpload] and [handleLogoRemove]. *)
Definition handleLogoUpload (url : string) (prev : SettingsFormData)
    : SettingsFormData :=
  {| sf_business_name := sf_business_name prev;
     sf_business_address := sf_business_address prev;
     sf_business_phone := sf_business_phone prev;
     sf_business_email := sf_business_email prev;
     sf_license_number := sf_license_number prev;
     sf_logo_url := url;
     sf_default_payment_terms := sf_default_payment_terms prev;
     sf_business_intro := sf_business_intro prev |}.

Definition handleLogoRemove (prev : SettingsFormData) : SettingsFormData :=
  handleLogoUpload "" prev.

(** The columns [SettingsForm.handleSubmit] writes: [column || null]. *)
Definition profile_of_form (f : SettingsFormData) : profile :=
  {| business_name := Js.or_null (sf_business_name f);
     business_address := Js.or_null (sf_business_address f);
     business_phone := Js.or_null (sf_business_phone f);
     business_email := Js.or_null (sf_business_email f);
     license_number := Js.or_null (sf_license_number f);
     logo_url := Js.or_null (sf_logo_url f);
     default_payment_terms := Js.or_null (sf_default_payment_terms f);
     business_intro := Js.or_null (sf_business_intro f) |}.

(** [SettingsForm.handleSubmit]:
    [.from('profiles').update({...}).eq('id', userId)]. An update that
    matches no row is no error: the form reports success. *)
Definition SettingsForm_handleSubmit (userId : uuid) (f : SettingsFormData)
    (profiles : gmap uuid profile) : gmap uuid profile :=
  alter (λ _, profile_of_form f) userId profiles.

(** A profile with every empty text column NULL. *)
Definition profile_saved_back (p : profile) : profile :=
  {| business_name := text_saved_back (business_name p);
     business_address := text_saved_back (business_address p);
     business_phone := text_saved_back (business_phone p);
     business_email := text_saved_back (business_email p);
     license_number := text_saved_back (license_number p);
     logo_url := text_saved_back (logo_url p);
     default_payment_terms := text_saved_back (default_payment_terms p);
     business_intro := text_saved_back (business_intro p) |}.

(** ** The line-items editor *)

(** A [LineItem] of the editor with its [id], the React key: the id of the
    stored row, or a random one for a line item added in the editor. *)
Record EditorItem := {
  editor_id : string;
  editor_item : LineItem;
}.

(** [addItem]; [new_id] is [crypto.randomUUID()]. A quantity of 1 is 100
    hundredths. *)
Definition addItem (new_id : string) (items : list EditorItem) : list EditorItem :=
  items ++ [ {| editor_id := new_id;
                editor_item := {| li_description := ""; li_quantity := 100;
                                  li_unit := "each"; li_unit_price := 0 |} |} ].

Definition removeItem (id : string) (items : list EditorItem) : list EditorItem :=
  filter (λ item, editor_id item ≠ id) items.

(** The four calls of [updateItem(item.id, field, value)] the editor makes,
    by field. *)
Inductive item_edit :=
  | edit_description (value : string)
  | edit_quantity (value : Z)
  | edit_unit (value : string)
  | edit_unit_price (value : Z).

(** [{ ...item, [field]: value }] *)
Definition edited (e : item_edit) (item : LineItem) : LineItem :=
  match e with
  | edit_description value =>
      {| li_description := value; li_quantity := li_quantity item;
         li_unit := li_unit item; li_unit_price := li_unit_price item |}
  | edit_quantity value =>
      {| li_description := li_description item; li_quantity := value;
         li_unit := li_unit item; li_unit_price := li_unit_price item |}
  | edit_unit value =>
      {| li_description := li_description item; li_quantity := li_quantity item;
         li_unit := value; li_unit_price := li_unit_price item |}
  | edit_unit_price value =>
      {| li_description := li_description item; li_quantity := li_quantity item;
         li_unit := li_unit item; li_unit_price := value |}
  end.

Definition updateItem (id : string) (e : item_edit) (items : list EditorItem)
    : list EditorItem :=
  (λ item, if decide (editor_id item = id)
           then {| editor_id := editor_id item;
                   editor_item := edited e (editor_item item) |}
           else item) <$> items.

(** ** The invoice form, in the words of the forms *)

(** The invoice row holds the fields of the form. *)
Definition invoice_form_stored (f : InvoiceFormState) (i : invoice) : Prop :=
  inv_client_id i = if_clientId f
  ∧ inv_invoice_number i = if_invoiceNumber f
  ∧ inv_title i = if_title f
  ∧ inv_description i = Js.or_null (if_description f)
  ∧ inv_status i = if_status f
  ∧ inv_issue_date i = if_issueDate f
  ∧ inv_due_date i = if_dueDate f
  ∧ inv_tax_rate i = if_taxRate f
  ∧ inv_notes i = Js.or_null (if_notes f).

(** ** Sessions used as examples *)

Module Scenario.

Definition empty_store : db :=
  {| clients := ∅; estimates := ∅; estimate_items := [];
     invoices := ∅; invoice_items := [] |}.

(** A new invoice of 10 hr at 50.00 with 8% tax. *)
Definition first_draft : InvoiceFormState :=
  {| if_clientId := None; if_invoiceNumber := "INV-000123";
     if_title := "Deck"; if_description := ""; if_status := unpaid;
     if_issueDate := 20000; if_dueDate := Some 20030; if_taxRate := 800;
     if_notes := "";
     if_items := [ {| li_description := "Labor"; li_quantity := 1000;
                      li_unit := "hr"; li_unit_price := 5000 |} ] |}.

(** The same invoice edited: one more line item, 10% tax. *)
Definition second_draft : InvoiceFormState :=
  {| if_clientId := None; if_invoiceNumber := "INV-000123";
     if_title := "Deck"; if_description := ""; if_status := unpaid;
     if_issueDate := 20000; if_dueDate := Some 20030; if_taxRate := 1000;
     if_notes := "";
     if_items := [ {| li_description := "Labor"; li_quantity := 1000;
                      li_unit := "hr"; li_unit_price := 5000 |};
                   {| li_description := "Materials"; li_quantity := 100;
                      li_unit := "each"; li_unit_price := 20000 |} ] |}.

(** The invoice is created, edited and marked paid from the list. *)
Definition invoicing : list request :=
  [ InvoiceForm_submit
      {| ifp_mode := create; ifp_userId := Example.tenant; ifp_initial_id := 1 |}
      first_draft;
    InvoiceForm_submit
      {| ifp_mode := edit; ifp_userId := Example.tenant; ifp_initial_id := 1 |}
      second_draft;
    InvoicesList_toggle 1 unpaid Example.now ].

(** The new estimate of [Example.new_form] with a quantity of
    100,000,000.00 at 0.01, which the DECIMAL(10,2) column cannot hold. *)
Definition oversized_form : EstimateFormState :=
  {| ef_clientId := None; ef_estimateNumber := "EST-000777";
     ef_title := "Porch"; ef_description := "";
     ef_status := draft; ef_issueDate := 20000; ef_validUntil := None;
     ef_taxRate := 800; ef_notes := ""; ef_jobSiteAddress := "";
     ef_items := [ {| li_description := "Nails"; li_quantity := 10000000000;
                      li_unit := "each"; li_unit_price := 1 |} ];
     ef_subtotal := 100000000; ef_taxAmount := 8000000; ef_total := 108000000 |}.

(** The edit form of [Example.deck] with the same oversized line item. *)
Definition oversized_edit : EstimateFormState :=
  {| ef_clientId := Some 1%positive; ef_estimateNumber := "EST-000001";
     ef_title := "Deck and stairs"; ef_description := "";
     ef_status := approved; ef_issueDate := 20000; ef_validUntil := None;
     ef_taxRate := 800; ef_notes := ""; ef_jobSiteAddress := "";
     ef_items := [ {| li_description := "Nails"; li_quantity := 10000000000;
                      li_unit := "each"; li_unit_price := 1 |} ];
     ef_subtotal := 100000000; ef_taxAmount := 8000000; ef_total := 108000000 |}.

(** [Example.new_form] with totals that are not those of its line item. *)
Definition miscalculated_form : EstimateFormState :=
  {| ef_clientId := None; ef_estimateNumber := "EST-000777";
     ef_title := "Porch"; ef_description := "";
     ef_status := draft; ef_issueDate := 20000; ef_validUntil := None;
     ef_taxRate := 800; ef_notes := ""; ef_jobSiteAddress := "";
     ef_items := [ {| li_description := "Labor"; li_quantity := 1000;
                      li_unit := "hr"; li_unit_price := 5000 |} ];
     ef_subtotal := 1; ef_taxAmount := 1; ef_total := 2 |}.

(** A profile whose phone column holds the empty string. *)
Definition acme : profile :=
  {| business_name := Some "Acme Decks"; business_address := None;
     business_phone := Some ""; business_email := Some "office@example.com";
     license_number := None; logo_url := Some "https://example.com/logos/a.png";
     default_payment_terms := None; business_intro := None |}.

(** A new estimate whose line item the store refuses, then the edit of
    [Example.deck]. *)
Definition estimating : list request :=
  [ EstimateForm_submit (Example.new_estimate Example.tenant) oversized_form
      draft false None (λ _, refused);
    EstimateForm_submit Example.edit_deck Example.deck_form approved false None
      (λ _, refused) ].

End Scenario.

(** ** Proofs *)

Ltac inv_result H :=
  repeat
    match type of H with
    | bind ?e _ = Ok _ =>
        let E := fresh "E" in
        destruct e eqn:E; cbn [bind] in H; [| discriminate H]
    | guard ?b _ = Ok _ =>
        let E := fresh "G" in
        destruct b eqn:E; cbn [guard] in H; [| discriminate H]
    | Err _ = Ok _ => discriminate H
    | Ok _ = Ok _ => injection H as H
    end.

Section Numeric_facts.

Lemma numeric_Ok p v v' : numeric p v = Ok v' → v' = v ∧ Z.abs v < 10 ^ p.
Proof.
  unfold numeric. destruct (Z.ltb_spec (Z.abs v) (10 ^ p)); [| discriminate].
  intros [= <-]. done.
Qed.

Lemma numeric_fits p v : Z.abs v < 10 ^ p → numeric p v = Ok v.
Proof.
  intros H. unfold numeric. destruct (Z.ltb_spec (Z.abs v) (10 ^ p)); [done | lia].
Qed.

Lemma int4_Ok v v' : int4 v = Ok v' → v' = v.
Proof. unfold int4. case_match; [| discriminate]. by intros [= <-]. Qed.

End Numeric_facts.

Lemma checked_row_Ok id doc descr q unit price sort r :
  checked_row id doc descr q unit price sort = Ok r →
  r = {| item_id := id; item_doc := doc; item_description := descr;
         item_quantity := q; item_unit := unit; item_unit_price := price;
         item_amount := round2 4 (q * price); item_sort_order := sort |}.
Proof.
  unfold checked_row. intros H.
  destruct (numeric 10 q) as [q'|] eqn:Hq; [| discriminate].
  destruct (numeric 12 price) as [p'|] eqn:Hp; [| discriminate].
  cbn [bind] in H.
  destruct (numeric 12 (round2 4 (q' * p'))) as [a'|] eqn:Ha; [| discriminate].
  destruct (int4 sort) as [s'|] eqn:Hs; [| discriminate].
  cbn [bind] in H. injection H as <-.
  apply numeric_Ok in Hq as [-> _]. apply numeric_Ok in Hp as [-> _].
  apply numeric_Ok in Ha as [-> _]. apply int4_Ok in Hs as ->. done.
Qed.

(** *** The triggers *)

Lemma recalculate_estimate_totals_Ok tg d d' :
  recalculate_estimate_totals tg d = Ok d' →
  ∃ es, d' = with_estimates es d
    ∧ ∀ k, es !! k =
        if decide (coalesce_doc tg = Some k)
        then estimate_recalculated (estimate_items d) k <$> estimates d !! k
        else estimates d !! k.
Proof.
  unfold recalculate_estimate_totals. intros H.
  destruct (coalesce_doc tg) as [doc|] eqn:Hdoc.
  - destruct (numeric 12 (round2 4 (sum_products doc (estimate_items d))))
      as [sub|] eqn:Hsub; [| discriminate].
    cbn [bind] in H. apply numeric_Ok in Hsub as [-> _].
    destruct (estimates d !! doc) as [e|] eqn:He.
    + inv_result H. subst d'.
      apply numeric_Ok in E as [-> _]. apply numeric_Ok in E0 as [-> _].
      eexists. split; [reflexivity |]. intros k.
      case_decide as Hk.
      * injection Hk as <-. rewrite lookup_insert_eq, He. done.
      * rewrite lookup_insert_ne by congruence. done.
    + injection H as <-. exists (estimates d). split; [by destruct d |].
      intros k. case_decide as Hk; [| done].
      injection Hk as <-. by rewrite He.
  - injection H as <-. exists (estimates d). split; [by destruct d |].
    intros k. case_decide; [discriminate | done].
Qed.

Lemma recalculate_invoice_totals_Ok tg d d' :
  recalculate_invoice_totals tg d = Ok d' →
  ∃ ivs, d' = with_invoices ivs d
    ∧ ∀ k, ivs !! k =
        if decide (coalesce_doc tg = Some k)
        then invoice_recalculated (invoice_items d) k <$> invoices d !! k
        else invoices d !! k.
Proof.
  unfold recalculate_invoice_totals. intros H.
  destruct (coalesce_doc tg) as [doc|] eqn:Hdoc.
  - destruct (numeric 12 (round2 4 (sum_products doc (invoice_items d))))
      as [sub|] eqn:Hsub; [| discriminate].
    cbn [bind] in H. apply numeric_Ok in Hsub as [-> _].
    destruct (invoices d !! doc) as [e|] eqn:He.
    + inv_result H. subst d'.
      apply numeric_Ok in E as [-> _]. apply numeric_Ok in E0 as [-> _].
      eexists. split; [reflexivity |]. intros k.
      case_decide as Hk.
      * injection Hk as <-. rewrite lookup_insert_eq, He. done.
      * rewrite lookup_insert_ne by congruence. done.
    + injection H as <-. exists (invoices d). split; [by destruct d |].
      intros k. case_decide as Hk; [| done].
      injection Hk as <-. by rewrite He.
  - injection H as <-. exists (invoices d). split; [by destruct d |].
    intros k. case_decide; [discriminate | done].
Qed.

Lemma fire_estimates tgs d d' :
  fire estimate_items_table tgs d = Ok d' →
  ∃ es, d' = with_estimates es d
    ∧ ∀ k, es !! k =
        if decide (Some k ∈ coalesce_doc <$> tgs)
        then estimate_recalculated (estimate_items d) k <$> estimates d !! k
        else estimates d !! k.
Proof.
  revert d. induction tgs as [| tg rest IH]; intros d H; cbn [fire] in H.
  - injection H as <-. exists (estimates d). split; [by destruct d |].
    intros k. case_decide as Hk; [| done]. by apply elem_of_nil in Hk.
  - destruct (after_row_trigger estimate_items_table tg d) as [d1|] eqn:H1;
      [| discriminate].
    cbn [bind] in H. cbn [after_row_trigger] in H1.
    apply recalculate_estimate_totals_Ok in H1 as (es1 & -> & Hes1).
    apply IH in H as (es & -> & Hes).
    exists es. split; [done |]. intros k.
    rewrite Hes. cbn [with_estimates estimates estimate_items].
    rewrite Hes1. repeat case_decide;
      repeat match goal with
             | H : context [ _ <$> _ :: _ ] |- _ =>
                 rewrite fmap_cons, elem_of_cons in H
             end;
      destruct (estimates d !! k) as [e|]; cbn; try done; exfalso; intuition congruence.
Qed.

Lemma fire_invoices tgs d d' :
  fire invoice_items_table tgs d = Ok d' →
  ∃ ivs, d' = with_invoices ivs d
    ∧ ∀ k, ivs !! k =
        if decide (Some k ∈ coalesce_doc <$> tgs)
        then invoice_recalculated (invoice_items d) k <$> invoices d !! k
        else invoices d !! k.
Proof.
  revert d. induction tgs as [| tg rest IH]; intros d H; cbn [fire] in H.
  - injection H as <-. exists (invoices d). split; [by destruct d |].
    intros k. case_decide as Hk; [| done]. by apply elem_of_nil in Hk.
  - destruct (after_row_trigger invoice_items_table tg d) as [d1|] eqn:H1;
      [| discriminate].
    cbn [bind] in H. cbn [after_row_trigger] in H1.
    apply recalculate_invoice_totals_Ok in H1 as (es1 & -> & Hes1).
    apply IH in H as (es & -> & Hes).
    exists es. split; [done |]. intros k.
    rewrite Hes. cbn [with_invoices invoices invoice_items].
    rewrite Hes1. repeat case_decide;
      repeat match goal with
             | H : context [ _ <$> _ :: _ ] |- _ =>
                 rewrite fmap_cons, elem_of_cons in H
             end;
      destruct (invoices d !! k) as [e|]; cbn; try done; exfalso; intuition congruence.
Qed.

(** *** The two line-item tables at once *)

Lemma stored_totals_docs t d doc :
  stored_totals t d doc = row_totals t <$> docs t d !! doc.
Proof. by destruct t. Qed.

Lemma items_of_with_docs t ds d : items_of t (with_docs t ds d) = items_of t d.
Proof. by destruct t. Qed.

Lemma docs_with_docs t ds d : docs t (with_docs t ds d) = ds.
Proof. by destruct t. Qed.

Lemma items_of_with_items t rows d : items_of t (with_items t rows d) = rows.
Proof. by destruct t. Qed.

Lemma docs_with_items t rows d : docs t (with_items t rows d) = docs t d.
Proof. by destruct t. Qed.

Lemma doc_exists_docs t d doc :
  doc_exists t d doc = bool_decide (is_Some (docs t d !! doc)).
Proof. by destruct t. Qed.

Lemma row_totals_recalculated t rows k (r : doc_row t) :
  row_totals t (row_recalculated t rows k r)
  = ((row_totals t r).1.1.1, subtotal_of rows k,
     tax_amount_of rows k (row_totals t r).1.1.1,
     total_of rows k (row_totals t r).1.1.1).
Proof. by destruct t. Qed.

Lemma fire_docs t tgs d d' :
  fire t tgs d = Ok d' →
  ∃ ds, d' = with_docs t ds d
    ∧ ∀ k, ds !! k =
        if decide (Some k ∈ coalesce_doc <$> tgs)
        then row_recalculated t (items_of t d) k <$> docs t d !! k
        else docs t d !! k.
Proof.
  destruct t; [apply fire_estimates | apply fire_invoices].
Qed.

Lemma elem_of_Some_fmap {A} (g : A → uuid) (l : list A) (k : uuid) :
  Some k ∈ (λ x, Some (g x)) <$> l ↔ k ∈ g <$> l.
Proof.
  rewrite !list_elem_of_fmap. split; intros (x & Hx & Hin); exists x.
  - by injection Hx as ->.
  - by rewrite Hx.
Qed.

Lemma recalculated_row_agrees t rows k (r : doc_row t) rate sub tax tot :
  row_totals t (row_recalculated t rows k r) = (rate, sub, tax, tot) →
  sub = round2 4 (sum_products k rows) ∧ tax = round2 6 (sub * rate)
  ∧ tot = sub + tax.
Proof.
  rewrite row_totals_recalculated. intros [= <- <- <- <-]. done.
Qed.

(** *** INSERT *)

Lemma new_rows_Ok used inputs rows :
  new_rows used inputs = Ok rows →
  Forall2 stored_as inputs rows
  ∧ NoDup (item_id <$> rows)
  ∧ Forall (λ r, item_id r ∉ used) rows.
Proof.
  revert used rows. induction inputs as [| i rest IH]; intros used rows H;
    cbn [new_rows] in H.
  - injection H as <-. repeat split; constructor.
  - destruct (checked_row _ _ _ _ _ _ _) as [r|] eqn:Hr; [| discriminate].
    cbn [bind] in H.
    destruct (new_rows (fresh used :: used) rest) as [rs|] eqn:Hrs; [| discriminate].
    cbn [bind] in H. injection H as <-.
    apply checked_row_Ok in Hr. apply IH in Hrs as (Hall & Hnd & Hfresh).
    assert (Hid : item_id r = fresh used) by (by subst r).
    split; [| split].
    + constructor; [| done]. unfold stored_as. by subst r.
    + rewrite fmap_cons. constructor; [| done].
      rewrite Hid. intros (r' & Heq & Hin)%list_elem_of_fmap.
      rewrite Forall_forall in Hfresh. apply (Hfresh r' Hin).
      rewrite <- Heq. left.
    + constructor.
      * rewrite Hid. apply infinite_is_fresh.
      * eapply Forall_impl; [exact Hfresh |]. cbn. intros r' Hr'.
        by apply not_elem_of_cons in Hr' as [_ ?].
Qed.

Lemma stored_as_doc inputs rows :
  Forall2 stored_as inputs rows → item_doc <$> rows = in_doc <$> inputs.
Proof.
  induction 1 as [| i r ? ? Hir _ IH]; [done |].
  rewrite !fmap_cons, IH. f_equal. by rewrite Hir.
Qed.

Lemma insert_items_Ok t inputs d d' :
  insert_items t inputs d = Ok d' →
  ∃ rows ds,
    d' = with_docs t ds (with_items t (items_of t d ++ rows) d)
    ∧ Forall2 stored_as inputs rows
    ∧ NoDup (item_id <$> rows)
    ∧ Forall (λ r, item_id r ∉ item_id <$> items_of t d) rows
    ∧ Forall (λ i, is_Some (docs t d !! in_doc i)) inputs
    ∧ (∀ k, k ∈ in_doc <$> inputs →
         ds !! k = row_recalculated t (items_of t d ++ rows) k <$> docs t d !! k)
    ∧ (∀ k, k ∉ in_doc <$> inputs → ds !! k = docs t d !! k).
Proof.
  unfold insert_items. intros H.
  destruct (new_rows _ inputs) as [rows|] eqn:Hrows; [| discriminate].
  cbn [bind] in H.
  destruct (forallb _ rows) eqn:Hfk; [| discriminate]. cbn [guard bind] in H.
  apply new_rows_Ok in Hrows as (Hall & Hnd & Hfresh).
  apply fire_docs in H as (ds & -> & Hds).
  pose proof (stored_as_doc _ _ Hall) as Hdocs.
  exists rows, ds. split; [done |]. repeat split; try done.
  - assert (Forall (λ k, is_Some (docs t d !! k)) (item_doc <$> rows)) as Hk.
    { rewrite Forall_fmap. apply Is_true_true_2, forallb_True in Hfk.
      eapply Forall_impl; [exact Hfk |]. cbn. intros r.
      rewrite doc_exists_docs. apply bool_decide_unpack. }
    rewrite Hdocs, Forall_fmap in Hk. done.
  - intros k Hk. rewrite Hds, items_of_with_items, docs_with_items.
    rewrite decide_True; [done |].
    rewrite <- list_fmap_compose. apply (elem_of_Some_fmap item_doc).
    by rewrite Hdocs.
  - intros k Hk. rewrite Hds, docs_with_items.
    rewrite decide_False; [done |].
    rewrite <- list_fmap_compose. intros Hin.
    apply (elem_of_Some_fmap item_doc) in Hin. by rewrite Hdocs in Hin.
Qed.

(** *** DELETE *)

Lemma delete_items_Ok t f d d' :
  delete_items t f d = Ok d' →
  ∃ ds,
    d' = with_docs t ds (with_items t (filter (λ r, ¬ selects f r) (items_of t d)) d)
    ∧ (∀ k, k ∈ item_doc <$> filter (λ r, selects f r) (items_of t d) →
         ds !! k = row_recalculated t (filter (λ r, ¬ selects f r) (items_of t d)) k
                     <$> docs t d !! k)
    ∧ (∀ k, k ∉ item_doc <$> filter (λ r, selects f r) (items_of t d) →
         ds !! k = docs t d !! k).
Proof.
  unfold delete_items. intros H.
  apply fire_docs in H as (ds & -> & Hds).
  exists ds. split; [done |]. split.
  - intros k Hk. rewrite Hds, items_of_with_items, docs_with_items.
    rewrite decide_True; [done |].
    rewrite <- list_fmap_compose. by apply (elem_of_Some_fmap item_doc).
  - intros k Hk. rewrite Hds, docs_with_items.
    rewrite decide_False; [done |].
    rewrite <- list_fmap_compose. intros Hin.
    by apply (elem_of_Some_fmap item_doc) in Hin.
Qed.

(** *** UPDATE *)

Lemma update_rows_Ok f p rows upd :
  update_rows f p rows = Ok upd →
  coalesce_doc <$> upd.2
  = (λ r, Some (default (item_doc r) (set_doc p)))
      <$> filter (λ r, selects f r) rows.
Proof.
  revert upd. induction rows as [| r rest IH]; intros upd H; cbn [update_rows] in H.
  - by injection H as <-.
  - destruct (update_rows f p rest) as [upd'|] eqn:Hrest; [| discriminate].
    cbn [bind] in H. specialize (IH _ eq_refl).
    rewrite filter_cons. destruct (selects f r) eqn:Hsel.
    + destruct (patched p r) as [r'|] eqn:Hr'; [| discriminate].
      cbn [bind] in H. injection H as <-. cbn [snd].
      rewrite decide_True by done. rewrite !fmap_cons, IH. f_equal.
      unfold patched in Hr'. apply checked_row_Ok in Hr'. by subst r'.
    + injection H as <-. cbn [snd]. by rewrite decide_False by (intros []).
Qed.

Lemma update_items_Ok t f p d d' :
  update_items t f p d = Ok d' →
  ∃ rows' ds,
    d' = with_docs t ds (with_items t rows' d)
    ∧ (∀ k, k ∈ recalculated t (UPDATE f p) d →
         ds !! k = row_recalculated t rows' k <$> docs t d !! k)
    ∧ (∀ k, k ∉ recalculated t (UPDATE f p) d → ds !! k = docs t d !! k).
Proof.
  unfold update_items. intros H.
  destruct (update_rows f p (items_of t d)) as [upd|] eqn:Hupd; [| discriminate].
  cbn [bind] in H.
  destruct (forallb _ _) eqn:Hfk; [| discriminate]. cbn [guard bind] in H.
  apply update_rows_Ok in Hupd.
  apply fire_docs in H as (ds & -> & Hds).
  exists upd.1, ds. split; [done |]. cbn [recalculated]. split.
  - intros k Hk. rewrite Hds, items_of_with_items, docs_with_items.
    rewrite decide_True; [done |].
    rewrite Hupd. by apply (elem_of_Some_fmap (λ r, default (item_doc r) (set_doc p))).
  - intros k Hk. rewrite Hds, docs_with_items.
    rewrite decide_False; [done |].
    rewrite Hupd. intros Hin.
    by apply (elem_of_Some_fmap (λ r, default (item_doc r) (set_doc p))) in Hin.
Qed.

(** *** Any statement: the documents its triggers recalculate *)

Lemma execute_Ok t s d d' :
  execute t s d = Ok d' →
  ∃ rows' ds,
    d' = with_docs t ds (with_items t rows' d)
    ∧ (∀ k, k ∈ recalculated t s d →
         ds !! k = row_recalculated t rows' k <$> docs t d !! k)
    ∧ (∀ k, k ∉ recalculated t s d → ds !! k = docs t d !! k).
Proof.
  destruct s as [inputs | f p | f]; cbn [execute].
  - intros (rows & ds & -> & _ & _ & _ & _ & Hin & Hout)%insert_items_Ok.
    by exists (items_of t d ++ rows), ds.
  - apply update_items_Ok.
  - intros (ds & -> & Hin & Hout)%delete_items_Ok.
    by exists (filter (λ r, ¬ selects f r) (items_of t d)), ds.
Qed.

Lemma fired_trigger_totals_agree t s d d' doc :
  execute t s d = Ok d' →
  doc ∈ recalculated t s d →
  totals_agree t d' doc.
Proof.
  intros (rows' & ds & -> & Hin & _)%execute_Ok Hdoc.
  unfold totals_agree. intros rate sub tax tot.
  rewrite stored_totals_docs, docs_with_docs, items_of_with_docs,
    items_of_with_items, (Hin _ Hdoc).
  destruct (docs t d !! doc) as [r|]; [| done].
  cbn. intros [= Hr]. by apply recalculated_row_agrees in Hr.
Qed.

(** Every document whose row trigger a statement fires ends with the totals
    of its line items as the statement leaves them. *)
Lemma statement_recalculates_totals t s d d' doc :
  execute t s d = Ok d' →
  doc ∈ recalculated t s d →
  totals_agree t d' doc.
Proof. apply fired_trigger_totals_agree. Qed.

Lemma statement_recalculates_totals_example :
  let s := DELETE (by_doc 2) in
  let d := Example.store 0 in
  let d' := unchecked (execute estimate_items_table s d) d in
  execute estimate_items_table s d = Ok d'
  ∧ 2%positive ∈ recalculated estimate_items_table s d
  ∧ totals_agree estimate_items_table d' 2.
Proof.
  intros s d d'.
  assert (Hex : execute estimate_items_table s d = Ok d') by reflexivity.
  assert (Hin : 2%positive ∈ recalculated estimate_items_table s d) by left.
  split; [exact Hex |]. split; [exact Hin |].
  exact (statement_recalculates_totals estimate_items_table s d d' 2 Hex Hin).
Defined.

(** A statement that moves no line item to another document recalculates
    every document it touches. *)
Lemma touched_recalculated t s d :
  (∀ f p, s = UPDATE f p → set_doc p = None) →
  touched t s d = recalculated t s d.
Proof.
  destruct s as [| f p |]; try done.
  intros H. cbn. by rewrite (H f p eq_refl).
Qed.

(** C1: stated for every insert, update or delete of a line item of a
    document; the update that moves the line item of estimate 2 to estimate 3
    completes and leaves estimate 2, which it touches, with the subtotal
    100.00, tax amount 8.00 and total 108.00 of a line item it no longer has:
    the trigger recalculates the estimate of the NEW row only. *)
Theorem moved_item_leaves_estimate_totals_stale :
  ∃ d', execute estimate_items_table Example.move_item (Example.store 0) = Ok d'
    ∧ 2%positive ∈ touched estimate_items_table Example.move_item (Example.store 0)
    ∧ totals_agree estimate_items_table (Example.store 0) 2
    ∧ stored_totals estimate_items_table d' 2 = Some (800, 10000, 800, 10800)
    ∧ sum_products 2 (estimate_items d') = 0
    ∧ ¬ totals_agree estimate_items_table d' 2.
Proof.
  eexists. split; [vm_compute; reflexivity |].
  split; [by left |]. split; [| split; [| split]].
  - intros rate sub tax tot [= <- <- <- <-]. by vm_compute.
  - reflexivity.
  - reflexivity.
  - intros H. destruct (H 800 10000 800 10800 eq_refl) as [Hsub _].
    vm_compute in Hsub. discriminate Hsub.
Qed.

(** A document whose row trigger fired and that has no line item left has
    subtotal, tax amount and total zero. *)
Lemma sum_products_none k rows :
  Forall (λ r, item_doc r ≠ k) rows → sum_products k rows = 0.
Proof.
  intros H. unfold sum_products.
  replace (filter (λ r, item_doc r = k) rows) with (@nil item_row); [done |].
  symmetry. induction H as [| r rest Hr _ IH]; [done |].
  rewrite filter_cons, decide_False by done. exact IH.
Qed.

(** A document whose row trigger a statement fires and that the statement
    leaves without line items ends with subtotal, tax amount and total zero. *)
Lemma recalculated_empty_is_zero t s d d' doc :
  execute t s d = Ok d' →
  doc ∈ recalculated t s d →
  Forall (λ r, item_doc r ≠ doc) (items_of t d') →
  ∀ rate sub tax tot,
    stored_totals t d' doc = Some (rate, sub, tax, tot) →
    sub = 0 ∧ tax = 0 ∧ tot = 0.
Proof.
  intros Hex Hdoc Hnone rate sub tax tot Hst.
  destruct (fired_trigger_totals_agree _ _ _ _ _ Hex Hdoc _ _ _ _ Hst)
    as (-> & -> & ->).
  rewrite (sum_products_none _ _ Hnone). done.
Qed.

Lemma recalculated_empty_is_zero_example :
  let s := DELETE (by_doc 2) in
  let d := Example.store 0 in
  let d' := unchecked (execute estimate_items_table s d) d in
  execute estimate_items_table s d = Ok d'
  ∧ 2%positive ∈ recalculated estimate_items_table s d
  ∧ Forall (λ r, item_doc r ≠ 2%positive) (items_of estimate_items_table d')
  ∧ stored_totals estimate_items_table d' 2 = Some (800, 0, 0, 0)
  ∧ (0 = 0 ∧ 0 = 0 ∧ 0 = 0).
Proof.
  intros s d d'.
  assert (Hex : execute estimate_items_table s d = Ok d') by reflexivity.
  assert (Hin : 2%positive ∈ recalculated estimate_items_table s d) by left.
  assert (Hnone : Forall (λ r, item_doc r ≠ 2%positive)
                    (items_of estimate_items_table d')) by constructor.
  assert (Hst : stored_totals estimate_items_table d' 2 = Some (800, 0, 0, 0))
    by (vm_compute; reflexivity).
  split; [exact Hex |]. split; [exact Hin |]. split; [exact Hnone |].
  split; [exact Hst |].
  exact (recalculated_empty_is_zero estimate_items_table s d d' 2 Hex Hin Hnone
           800 0 0 0 Hst).
Defined.

(** C7: stated for a document left without line items by any item mutation;
    after the update that moves its only line item away, estimate 2 has no
    line item and still stores subtotal 100.00, tax amount 8.00 and total
    108.00. *)
Theorem emptied_estimate_keeps_nonzero_totals :
  ∃ d', execute estimate_items_table Example.move_item (Example.store 0) = Ok d'
    ∧ filter (λ r, item_doc r = 2%positive) (estimate_items d') = []
    ∧ (e_subtotal <$> estimates d' !! 2%positive) = Some 10000
    ∧ (e_tax_amount <$> estimates d' !! 2%positive) = Some 800
    ∧ (e_total <$> estimates d' !! 2%positive) = Some 10800.
Proof.
  eexists. split; [vm_compute; reflexivity |]. by vm_compute.
Qed.

(** *** Sums over the line items of one document *)

Lemma sum_products_app k a b :
  sum_products k (a ++ b) = sum_products k a + sum_products k b.
Proof.
  unfold sum_products. rewrite filter_app.
  induction (filter (λ r, item_doc r = k) a) as [| r rest IH]; cbn; [done |].
  rewrite IH. lia.
Qed.

Lemma sum_products_all k rows :
  Forall (λ r, item_doc r = k) rows →
  sum_products k rows
  = sum_of_products ((λ r, (item_quantity r, item_unit_price r)) <$> rows).
Proof.
  intros H. unfold sum_products, sum_of_products.
  induction H as [| r rest Hr _ IH]; [done |].
  rewrite filter_cons, decide_True by done. cbn. by rewrite IH.
Qed.

Lemma filter_doc_none k rows :
  Forall (λ r, item_doc r ≠ k) rows → filter (λ r, item_doc r = k) rows = [].
Proof.
  induction 1 as [| r rest Hr _ IH]; [done |].
  by rewrite filter_cons, decide_False.
Qed.

Lemma filter_doc_all k rows :
  Forall (λ r, item_doc r = k) rows → filter (λ r, item_doc r = k) rows = rows.
Proof.
  induction 1 as [| r rest Hr _ IH]; [done |].
  by rewrite filter_cons, decide_True, IH.
Qed.

(** Under the foreign key no line item names a document that is not there. *)
Lemma no_items_of_missing_doc t d k :
  items_reference_documents t d →
  docs t d !! k = None →
  Forall (λ r, item_doc r ≠ k) (items_of t d).
Proof.
  unfold items_reference_documents. intros Hfk Hnone.
  eapply Forall_impl; [exact Hfk |]. intros r Hr Hk. cbv beta in Hr.
  rewrite doc_exists_docs, Hk in Hr. apply bool_decide_unpack in Hr.
  rewrite Hnone in Hr. by destruct Hr.
Qed.

(** *** Inserting a document *)

Lemma insert_estimate_Ok e d id d1 :
  insert_estimate e d = Ok (id, d1) →
  id = fresh (dom (estimates d))
  ∧ estimates d !! id = None
  ∧ d1 = with_estimates (<[id := e]> (estimates d)) d
  ∧ estimate_number_taken d None (e_user_id e) (e_estimate_number e) = false.
Proof.
  unfold insert_estimate. intros H.
  destruct (estimate_casts e); [| discriminate]. cbn [bind] in H.
  destruct (estimate_number_taken d None _ _) eqn:Htaken; [discriminate |].
  cbn [negb guard bind] in H.
  destruct (client_exists d _); [| discriminate]. cbn [guard bind] in H.
  injection H as <- <-. repeat split; try done.
  apply not_elem_of_dom, is_fresh.
Qed.

Lemma insert_invoice_Ok i d id d1 :
  insert_invoice i d = Ok (id, d1) →
  id = fresh (dom (invoices d))
  ∧ invoices d !! id = None
  ∧ d1 = with_invoices (<[id := i]> (invoices d)) d
  ∧ invoice_number_taken d None (inv_user_id i) (inv_invoice_number i) = false.
Proof.
  unfold insert_invoice. intros H.
  destruct (invoice_casts i); [| discriminate]. cbn [bind] in H.
  destruct (invoice_number_taken d None _ _) eqn:Htaken; [discriminate |].
  cbn [negb guard bind] in H.
  destruct (client_exists d _); [| discriminate]. cbn [guard bind] in H.
  destruct (match inv_source_estimate_id i with Some _ => _ | None => _ end);
    [| discriminate].
  cbn [guard bind] in H.
  injection H as <- <-. repeat split; try done.
  apply not_elem_of_dom, is_fresh.
Qed.

(** *** Conversion of an estimate *)

Lemma copied_items_doc id items :
  Forall (λ i, in_doc i = id) (copied_items id items).
Proof.
  unfold copied_items. apply Forall_forall. intros i Hi.
  apply elem_of_lookup_imap_1 in Hi as (k & r & -> & _). done.
Qed.

Lemma itemsToInsert_doc id items :
  Forall (λ i, in_doc i = id) (itemsToInsert id items).
Proof.
  unfold itemsToInsert. apply Forall_forall. intros i Hi.
  apply elem_of_lookup_imap_1 in Hi as (k & r & -> & _). done.
Qed.

Lemma stored_rows_doc id inputs rows :
  Forall (λ i, in_doc i = id) inputs →
  Forall2 stored_as inputs rows →
  Forall (λ r, item_doc r = id) rows.
Proof.
  intros Hin Hall. induction Hall as [| i r ? ? Hir _ IH]; [constructor |].
  apply Forall_cons in Hin as [Hi Hrest]. constructor; [| by apply IH].
  rewrite Hir. exact Hi.
Qed.

Lemma stored_rows_products inputs rows :
  Forall2 stored_as inputs rows →
  (λ r, (item_quantity r, item_unit_price r)) <$> rows
  = (λ i, (in_quantity i, in_unit_price i)) <$> inputs.
Proof.
  induction 1 as [| i r ? ? Hir _ IH]; [done |].
  rewrite !fmap_cons, IH. f_equal. by rewrite Hir.
Qed.

Lemma copied_items_products id items :
  (λ i, (in_quantity i, in_unit_price i)) <$> copied_items id items
  = (λ r, (item_quantity r, item_unit_price r)) <$> items.
Proof.
  unfold copied_items. apply list_eq. intros k.
  rewrite !list_lookup_fmap, list_lookup_imap.
  by destruct (items !! k).
Qed.

(** What a successful conversion leaves in the store: the new invoice row
    with the totals of the copied rows, and those rows after the old ones. *)
Lemma handleConvertToInvoice_converted userId v t_number t_issue t_due d id d' :
  handleConvertToInvoice userId v t_number t_issue t_due d = (converted id, d') →
  invoices d !! id = None
  ∧ ∃ rows,
      Forall2 stored_as (copied_items id (ev_items v)) rows
      ∧ NoDup (item_id <$> rows)
      ∧ Forall (λ r, item_id r ∉ item_id <$> invoice_items d) rows
      ∧ invoice_items d' = invoice_items d ++ rows
      ∧ estimates d' = estimates d
      ∧ estimate_items d' = estimate_items d
      ∧ (∀ k, k ≠ id → invoices d' !! k = invoices d !! k)
      ∧ invoices d' !! id
        = Some (if bool_decide (0 < length (ev_items v))%nat
                then invoice_recalculated (invoice_items d ++ rows) id
                       (invoice_of_estimate userId v t_number t_issue t_due)
                else invoice_of_estimate userId v t_number t_issue t_due).
Proof.
  unfold handleConvertToInvoice. intros H.
  destruct (insert_invoice _ d) as [[id1 d1]|] eqn:Hins; [| discriminate].
  apply insert_invoice_Ok in Hins as (Hid & Hnone & -> & _).
  assert (Hlen : length (copied_items id1 (ev_items v)) = length (ev_items v))
    by apply length_imap.
  rewrite Hlen in H.
  destruct (bool_decide (0 < length (ev_items v))%nat) eqn:Hpos.
  - destruct (insert_items invoice_items_table _ _) as [d2|] eqn:Hitems;
      [| discriminate].
    injection H as <- <-. split; [done |].
    apply (insert_items_Ok invoice_items_table) in Hitems
      as (rows & ds & -> & Hall & Hnd & Hfresh & _ & Hin & Hout).
    cbn in Hin, Hout, Hfresh, ds. exists rows. repeat split; try done.
    + intros k Hk. cbn. rewrite Hout, lookup_insert_ne; [done | congruence |].
      intros (i & -> & Hi)%list_elem_of_fmap.
      pose proof (copied_items_doc id1 (ev_items v)) as Hdoc.
      rewrite Forall_forall in Hdoc. by apply Hk, Hdoc.
    + cbn. rewrite Hin, lookup_insert_eq; [done |].
      apply bool_decide_eq_true in Hpos.
      destruct (ev_items v) as [| r rest]; [cbn in Hpos; lia |]. by left.
  - injection H as <- <-. split; [done |].
    apply bool_decide_eq_false in Hpos.
    destruct (ev_items v) as [| r rest]; [| cbn in Hpos; lia].
    exists []. cbn. rewrite app_nil_r, lookup_insert_eq.
    repeat split; try done; try constructor.
    intros k Hk. by rewrite lookup_insert_ne.
Qed.

Lemma conversion_sum v d id rows :
  items_reference_documents invoice_items_table d →
  invoices d !! id = None →
  Forall2 stored_as (copied_items id (ev_items v)) rows →
  sum_products id (invoice_items d ++ rows)
  = sum_of_products ((λ r, (item_quantity r, item_unit_price r)) <$> ev_items v).
Proof.
  intros Hfk Hnone Hall.
  rewrite sum_products_app.
  rewrite (sum_products_none id (invoice_items d)).
  2: { by apply (no_items_of_missing_doc invoice_items_table). }
  rewrite sum_products_all.
  2: { eapply stored_rows_doc; [apply copied_items_doc | exact Hall]. }
  by rewrite (stored_rows_products _ _ Hall), copied_items_products.
Qed.

(** C3: the invoice a conversion creates stores the totals the aggregator
    derives from the copied line items at the tax rate of the estimate:
    subtotal = round2(sum of quantity x unit price), tax amount =
    round2(subtotal x rate / 100), total = subtotal + tax amount; they are
    the totals of the line items the invoice has in the store. The totals
    the estimate stores are not read: the conversion of the same estimate
    with any other stored totals gives the same invoice and the same store.
    For an estimate without line items the invoice stores zero totals; for
    line items (10 x 50.00) and (1 x 200.00) at tax rate 8 it stores
    subtotal 700.00, tax amount 56.00 and total 756.00. *)
Theorem converted_invoice_totals userId v t_number t_issue t_due d id d' :
  items_reference_documents invoice_items_table d →
  handleConvertToInvoice userId v t_number t_issue t_due d = (converted id, d') →
  let products := (λ r, (item_quantity r, item_unit_price r)) <$> ev_items v in
  let rate := e_tax_rate (ev_estimate v) in
  let sub := round2 4 (sum_of_products products) in
  let tax := round2 6 (sub * rate) in
  stored_totals invoice_items_table d' id = Some (rate, sub, tax, sub + tax)
  ∧ sum_products id (invoice_items d') = sum_of_products products
  ∧ totals_agree invoice_items_table d' id
  ∧ (∀ sub0 tax0 tot0,
       handleConvertToInvoice userId
         {| ev_id := ev_id v;
            ev_estimate := estimate_with_totals sub0 tax0 tot0 (ev_estimate v);
            ev_client := ev_client v; ev_items := ev_items v |}
         t_number t_issue t_due d
       = (converted id, d'))
  ∧ (ev_items v = [] →
     stored_totals invoice_items_table d' id = Some (rate, 0, 0, 0))
  ∧ (products = [(1000, 5000); (100, 20000)] → rate = 800 →
     stored_totals invoice_items_table d' id = Some (800, 70000, 5600, 75600)).
Proof.
  intros Hfk Hconv products rate sub tax.
  pose proof Hconv as Hsame.
  apply handleConvertToInvoice_converted in Hconv
    as (Hnone & rows & Hall & _ & _ & Hrows & _ & _ & _ & Hinv).
  pose proof (conversion_sum v d id rows Hfk Hnone Hall) as Hsum.
  fold products in Hsum.
  assert (Hst : stored_totals invoice_items_table d' id
                = Some (rate, sub, tax, sub + tax)).
  { cbn [stored_totals]. rewrite Hinv.
    destruct (bool_decide (0 < length (ev_items v))%nat) eqn:Hpos.
    - cbn. unfold total_of, tax_amount_of, subtotal_of. by rewrite Hsum.
    - apply bool_decide_eq_false in Hpos.
      assert (Hnil : ev_items v = []).
      { destruct (ev_items v); [done | cbn in Hpos; lia]. }
      subst tax sub products. rewrite Hnil. reflexivity. }
  split; [exact Hst |]. split; [by rewrite Hrows |]. split.
  { intros rate' sub' tax' tot'. rewrite Hst. intros [= <- <- <- <-].
    cbn [items_of]. by rewrite Hrows, Hsum. }
  split; [intros sub0 tax0 tot0; exact Hsame |]. split.
  - intros Hnil. rewrite Hst. subst tax sub products. rewrite Hnil. reflexivity.
  - intros Hitems Hrate. rewrite Hst. subst tax sub. by rewrite Hitems, Hrate.
Qed.

Lemma converted_invoice_totals_witness :
  let r := handleConvertToInvoice Example.tenant Example.quote Example.now
             Example.now Example.now (Example.store 0) in
  let r0 := handleConvertToInvoice Example.tenant Example.emptied_quote Example.now
              Example.now Example.now (Example.store 0) in
  items_reference_documents invoice_items_table (Example.store 0)
  ∧ e_total (ev_estimate Example.quote) = 10800
  ∧ r.1 = converted 1
  ∧ stored_totals invoice_items_table r.2 1 = Some (800, 70000, 5600, 75600)
  ∧ totals_agree invoice_items_table r.2 1
  ∧ r0.1 = converted 1
  ∧ stored_totals invoice_items_table r0.2 1 = Some (800, 0, 0, 0).
Proof.
  intros r r0.
  assert (Hfk : items_reference_documents invoice_items_table (Example.store 0))
    by constructor.
  assert (Hr : handleConvertToInvoice Example.tenant Example.quote Example.now
                 Example.now Example.now (Example.store 0) = (converted 1, r.2))
    by reflexivity.
  assert (Hr0 : handleConvertToInvoice Example.tenant Example.emptied_quote Example.now
                  Example.now Example.now (Example.store 0) = (converted 1, r0.2))
    by reflexivity.
  destruct (converted_invoice_totals Example.tenant Example.quote Example.now
              Example.now Example.now (Example.store 0) 1 r.2 Hfk Hr)
    as (_ & _ & Hagree & _ & _ & Hexample).
  destruct (converted_invoice_totals Example.tenant Example.emptied_quote Example.now
              Example.now Example.now (Example.store 0) 1 r0.2 Hfk Hr0)
    as (_ & _ & _ & _ & Hempty & _).
  split; [exact Hfk |]. split; [reflexivity |]. split; [reflexivity |].
  split; [exact (Hexample eq_refl eq_refl) |]. split; [exact Hagree |].
  split; [reflexivity |]. exact (Hempty eq_refl).
Defined.

Lemma due_date_plus_30 t :
  utc_date (t + 30 * 24 * 60 * 60 * 1000) = utc_date t + 30.
Proof.
  unfold utc_date, ms_per_day.
  change (t + 30 * 24 * 60 * 60 * 1000) with (t + 30 * 86400000).
  change (24 * 60 * 60 * 1000) with 86400000.
  apply Z.div_add. lia.
Qed.

Lemma EstimatePage_Some id d v :
  EstimatePage id d = Some v →
  ev_id v = id
  ∧ estimates d !! id = Some (ev_estimate v)
  ∧ ev_items v = filter (λ r, item_doc r = id) (estimate_items d)
  ∧ ((∀ c, e_client_id (ev_estimate v) = Some c → is_Some (clients d !! c)) →
     fst <$> ev_client v = e_client_id (ev_estimate v)).
Proof.
  unfold EstimatePage. destruct (estimates d !! id) as [e|]; [| done].
  cbn. intros [= <-]. cbn. repeat split.
  intros Hfk. destruct (e_client_id e) as [c|]; [| done].
  destruct (Hfk c eq_refl) as [cl Hcl]. cbn. by rewrite Hcl.
Qed.

Lemma copied_rows_lookup id items rows k src :
  Forall2 stored_as (copied_items id items) rows →
  items !! k = Some src →
  ∃ dst, rows !! k = Some dst ∧ copied_as id k src dst.
Proof.
  intros Hall Hk.
  assert (Hin : copied_items id items !! k
                = Some {| in_doc := id; in_description := item_description src;
                          in_quantity := item_quantity src; in_unit := item_unit src;
                          in_unit_price := item_unit_price src;
                          in_sort_order := Z.of_nat k |}).
  { unfold copied_items. by rewrite list_lookup_imap, Hk. }
  destruct (Forall2_lookup_l _ _ _ _ _ Hall Hin) as (dst & Hdst & Hst).
  exists dst. split; [done |]. unfold copied_as. by rewrite Hst.
Qed.

(** C2, as the code has it: a conversion that goes through creates an invoice
    with the client of the estimate, the estimate as source, the number
    INV-<last six digits of the clock>, title, description, tax rate and
    notes copied, status unpaid, today as issue date and today + 30 days as
    due date; its line items are new rows with fresh ids that copy
    description, quantity, unit and unit price of the estimate's line items in
    the order loaded, and number [sort_order] by position in that order. *)
Theorem conversion_creates_invoice
    userId estimate_id d0 v t_number t_issue t_due d id d' :
  EstimatePage estimate_id d0 = Some v →
  (∀ c, e_client_id (ev_estimate v) = Some c → is_Some (clients d0 !! c)) →
  handleConvertToInvoice userId v t_number t_issue t_due d = (converted id, d') →
  invoices d !! id = None
  ∧ ∃ inv rows,
      invoices d' !! id = Some inv
      ∧ inv_user_id inv = userId
      ∧ inv_client_id inv = e_client_id (ev_estimate v)
      ∧ inv_source_estimate_id inv = Some estimate_id
      ∧ inv_invoice_number inv = document_number "INV" t_number
      ∧ inv_title inv = e_title (ev_estimate v)
      ∧ inv_description inv = e_description (ev_estimate v)
      ∧ inv_tax_rate inv = e_tax_rate (ev_estimate v)
      ∧ inv_notes inv = e_notes (ev_estimate v)
      ∧ inv_status inv = unpaid
      ∧ inv_issue_date inv = utc_date t_issue
      ∧ inv_due_date inv = Some (utc_date t_due + 30)
      ∧ invoice_items d' = invoice_items d ++ rows
      ∧ length rows = length (ev_items v)
      ∧ (∀ k src, ev_items v !! k = Some src →
           ∃ dst, rows !! k = Some dst ∧ copied_as id k src dst)
      ∧ NoDup (item_id <$> rows)
      ∧ Forall (λ r, item_id r ∉ item_id <$> invoice_items d) rows.
Proof.
  intros Hpage Hfk Hconv.
  apply EstimatePage_Some in Hpage as (Hid & _ & _ & Hclient).
  specialize (Hclient Hfk).
  apply handleConvertToInvoice_converted in Hconv
    as (Hnone & rows & Hall & Hnd & Hfresh & Hrows & _ & _ & _ & Hinv).
  split; [exact Hnone |].
  eexists _, rows. split; [exact Hinv |].
  assert (Hlen : length rows = length (ev_items v)).
  { rewrite <- (Forall2_length _ _ _ Hall). apply length_imap. }
  destruct (bool_decide (0 < length (ev_items v))%nat); cbn;
    rewrite ?due_date_plus_30, ?Hid;
    (repeat split; try done;
     intros k src Hk; by apply (copied_rows_lookup _ (ev_items v))).
Qed.

Lemma conversion_creates_invoice_witness :
  let d := Example.store 0 in
  let r := handleConvertToInvoice Example.tenant
             {| ev_id := 2; ev_estimate := Example.deck;
                ev_client := Some (1%positive, Example.ann);
                ev_items := [Example.labor 0] |}
             Example.now Example.now Example.now d in
  r.1 = converted 1
  ∧ (inv_invoice_number <$> invoices r.2 !! 1%positive) = Some "INV-600000"
  ∧ (inv_due_date <$> invoices r.2 !! 1%positive) = Some (Some 20789)
  ∧ (item_sort_order <$> invoice_items r.2) = [0].
Proof.
  intros d r.
  destruct (conversion_creates_invoice Example.tenant 2 d _ Example.now
              Example.now Example.now d 1 r.2 eq_refl)
    as (_ & inv & rows & Hinv & _ & _ & _ & Hnum & _ & _ & _ & _ & _ & _ & Hdue
        & Hrows & _).
  - intros c [= <-]. by eexists.
  - reflexivity.
  - split; [reflexivity |]. rewrite Hinv. cbn. rewrite Hnum, Hdue.
    split; [reflexivity |]. split; [reflexivity |]. reflexivity.
Defined.

(** C2 as stated has every line item keep its [sort_order]: the only line
    item of this estimate has [sort_order] 5, its copy in the invoice 0. *)
Lemma conversion_renumbers_sort_order :
  let d := Example.store 5 in
  ∃ v d' id,
    EstimatePage 2 d = Some v
    ∧ handleConvertToInvoice Example.tenant v Example.now Example.now
        Example.now d = (converted id, d')
    ∧ item_sort_order <$> ev_items v = [5]
    ∧ item_sort_order <$> filter (λ r, item_doc r = id) (invoice_items d') = [0].
Proof.
  intros d. eexists _, _, _. split; [reflexivity |].
  split; [vm_compute; reflexivity |]. split; reflexivity.
Qed.

(** *** Overdue invoices *)

Lemma date_instant_lt due now :
  date_instant due < now ↔ due ≤ utc_date now ∧ (due = utc_date now → now `mod` ms_per_day ≠ 0).
Proof.
  unfold date_instant, utc_date, ms_per_day.
  change (24 * 60 * 60 * 1000) with 86400000.
  pose proof (Z.div_mod now 86400000 ltac:(lia)) as Hdm.
  pose proof (Z.mod_pos_bound now 86400000 ltac:(lia)) as Hb.
  set (q := now `div` 86400000) in *. set (m := now `mod` 86400000) in *.
  lia.
Qed.

(** C6, as the code has it: an invoice is overdue when it is unpaid, has a
    due date, and midnight UTC that starts its due date is before the current
    instant. So an unpaid invoice due yesterday or earlier is overdue, one due
    today is overdue from the first millisecond after midnight UTC, and an
    invoice marked paid is not overdue whatever its due date. *)
Theorem isOverdue_spec status due_date now :
  (isOverdue status due_date now = true
   ↔ status = unpaid ∧ ∃ due, due_date = Some due ∧ date_instant due < now)
  ∧ (overdue_as_specified status due_date now = true →
     isOverdue status due_date now = true)
  ∧ (isOverdue status due_date now = true →
     ∃ due, due_date = Some due ∧ due ≤ utc_date now)
  ∧ isOverdue unpaid (Some (utc_date now - 1)) now = true
  ∧ isOverdue paid due_date now = false
  ∧ (∀ id st t d,
       currentStatus st = unpaid →
       isOverdue (currentStatus (InvoiceDetail_handleTogglePaid id st t d).1)
         due_date now = false).
Proof.
  assert (Hiff : isOverdue status due_date now = true
                 ↔ status = unpaid ∧ ∃ due, due_date = Some due ∧ date_instant due < now).
  { unfold isOverdue. rewrite andb_true_iff, bool_decide_eq_true.
    destruct due_date as [due|]; [rewrite Z.ltb_lt |].
    - split; [intros [-> ?]; eauto | intros [-> (? & [= <-] & ?)]; eauto].
    - split; [intros [_ [=]] | intros [_ (? & [=] & _)]]. }
  split; [exact Hiff |]. split; [| split; [| split; [| split]]].
  - unfold overdue_as_specified. rewrite Hiff, andb_true_iff, bool_decide_eq_true.
    intros [-> Hdue]. split; [done |].
    destruct due_date as [due|]; [| done]. apply Z.ltb_lt in Hdue.
    exists due. split; [done |]. apply date_instant_lt. lia.
  - rewrite Hiff. intros (_ & due & -> & Hlt). exists due. split; [done |].
    by apply date_instant_lt in Hlt as [? _].
  - unfold isOverdue. cbn. apply Z.ltb_lt, date_instant_lt. lia.
  - reflexivity.
  - intros id st t d Hst. cbn. by rewrite Hst.
Qed.

(** C6 as stated takes "due date before today": on its due date, at ten in
    the morning UTC, an unpaid invoice is overdue for the code and not yet
    overdue by that rule. *)
Lemma overdue_on_the_due_date :
  let due := utc_date Example.now in
  isOverdue unpaid (Some due) Example.now = true
  ∧ overdue_as_specified unpaid (Some due) Example.now = false.
Proof. intros due. split; reflexivity. Qed.

(** *** Paid invoices *)

(** Both toggles write the status and the paid date together. *)
Lemma toggle_paid_sets_paid_date id st listed now d i :
  (invoices (InvoiceDetail_handleTogglePaid id st now d).2 !! id = Some i
   ∨ invoices (InvoicesList_handleTogglePaid id listed now d) !! id = Some i) →
  (inv_status i = paid → inv_paid_date i = Some (utc_date now))
  ∧ (inv_status i = unpaid → inv_paid_date i = None).
Proof.
  unfold InvoiceDetail_handleTogglePaid, InvoicesList_handleTogglePaid. cbn.
  rewrite !lookup_alter_eq.
  intros [H | H]; destruct (invoices d !! id) as [i0|]; try done;
    injection H as <-; cbn.
  - by destruct (currentStatus st).
  - by destruct listed.
Qed.

Lemma toggle_paid_sets_paid_date_witness :
  let d' := (InvoiceDetail_handleTogglePaid 4 (InvoiceDetail_init Example.bill)
               Example.now Example.billing).2 in
  invoices d' !! 4%positive
    = Some (invoice_set_paid paid (Some 20759) Example.bill)
  ∧ ((paid = paid → Some 20759 = Some (utc_date Example.now))
     ∧ (paid = unpaid → Some 20759 = @None Z)).
Proof.
  intros d'.
  assert (H : invoices d' !! 4%positive
              = Some (invoice_set_paid paid (Some 20759) Example.bill))
    by reflexivity.
  split; [exact H |].
  exact (toggle_paid_sets_paid_date 4 (InvoiceDetail_init Example.bill) unpaid
           Example.now Example.billing _ (or_introl H)).
Defined.

(** C4: stated for every operation; saving the invoice edit form with the
    status select set to Paid writes status paid and leaves the paid date
    unset, where both toggles set it. *)
Theorem invoice_form_marks_paid_without_paid_date :
  ∃ d', InvoiceForm_handleSubmit Example.edit_bill Example.bill_marked_paid
          Example.billing = (saved 4, d')
    ∧ (inv_status <$> invoices Example.billing !! 4%positive) = Some unpaid
    ∧ (inv_paid_date <$> invoices Example.billing !! 4%positive) = Some None
    ∧ (inv_status <$> invoices d' !! 4%positive) = Some paid
    ∧ (inv_paid_date <$> invoices d' !! 4%positive) = Some None.
Proof.
  eexists. split; [vm_compute; reflexivity |]. by vm_compute.
Qed.

(** *** Archiving *)

(** The archive toggle of an estimate writes [archived_at] and nothing else;
    the estimate leaves the default list when archived, is back in it when
    restored, and stays loadable by id. *)
Lemma handleArchive_estimate id archivedAt now d e :
  estimates d !! id = Some e →
  e_archived_at e = archivedAt →
  let r := handleArchive id archivedAt now d in
  estimates r.2 !! id = Some (estimate_set_archived_at r.1 e)
  ∧ (∀ k, k ≠ id → estimates r.2 !! k = estimates d !! k)
  ∧ estimate_items r.2 = estimate_items d
  ∧ stored_totals estimate_items_table r.2 id = stored_totals estimate_items_table d id
  ∧ (e_status <$> estimates r.2 !! id) = Some (e_status e)
  ∧ (archivedAt = None → r.1 = Some now ∧ EstimatesPage r.2 !! id = None)
  ∧ (is_Some archivedAt →
     r.1 = None ∧ EstimatesPage r.2 !! id = Some (estimate_set_archived_at None e))
  ∧ is_Some (EstimatePage id r.2).
Proof.
  intros He Harch r. subst r. unfold handleArchive, EstimatesPage, EstimatePage.
  cbn [fst snd with_estimates estimates estimate_items stored_totals].
  rewrite !lookup_alter_eq, He. cbn.
  split; [done |]. split; [by intros k Hk; rewrite lookup_alter_ne |].
  split; [done |]. split; [done |]. split; [done |].
  split; [| split; [| by eexists]].
  - intros ->. split; [done |].
    apply map_lookup_filter_None. right. intros e'.
    rewrite lookup_alter_eq, He. by intros [= <-].
  - intros [a ->]. split; [done |].
    apply map_lookup_filter_Some. by rewrite lookup_alter_eq, He.
Qed.

Lemma handleArchive_estimate_witness :
  let r := handleArchive 2 None Example.now (Example.store 0) in
  estimates (Example.store 0) !! 2%positive = Some Example.deck
  ∧ estimates r.2 !! 2%positive
    = Some (estimate_set_archived_at (Some Example.now) Example.deck)
  ∧ EstimatesPage r.2 !! 2%positive = None
  ∧ is_Some (EstimatePage 2 r.2).
Proof.
  intros r.
  destruct (handleArchive_estimate 2 None Example.now (Example.store 0)
              Example.deck eq_refl eq_refl)
    as (Hrow & _ & _ & _ & _ & Harch & _ & Hpage).
  split; [reflexivity |]. split; [exact Hrow |].
  split; [exact (proj2 (Harch eq_refl)) | exact Hpage].
Defined.

(** The archive toggle of an invoice writes [archived_at] and nothing else. *)
Lemma handleArchive_invoice id st now d i :
  invoices d !! id = Some i →
  let r := InvoiceDetail_handleArchive id st now d in
  invoices r.2 !! id
    = Some (invoice_set_archived_at (newArchivedAt (inv_archivedAt st) now) i)
  ∧ (∀ k, k ≠ id → invoices r.2 !! k = invoices d !! k)
  ∧ invoice_items r.2 = invoice_items d
  ∧ stored_totals invoice_items_table r.2 id = stored_totals invoice_items_table d id
  ∧ (inv_status <$> invoices r.2 !! id) = Some (inv_status i).
Proof.
  intros Hi r. subst r. unfold InvoiceDetail_handleArchive.
  cbn [fst snd with_invoices invoices invoice_items stored_totals].
  rewrite !lookup_alter_eq, Hi. cbn.
  split; [done |]. split; [by intros k Hk; rewrite lookup_alter_ne |]. done.
Qed.

Lemma handleArchive_invoice_witness :
  let r := InvoiceDetail_handleArchive 4 (InvoiceDetail_init Example.bill)
             Example.now Example.billing in
  invoices Example.billing !! 4%positive = Some Example.bill
  ∧ (inv_status <$> invoices r.2 !! 4%positive) = Some unpaid
  ∧ stored_totals invoice_items_table r.2 4
    = stored_totals invoice_items_table Example.billing 4.
Proof.
  intros r.
  destruct (handleArchive_invoice 4 (InvoiceDetail_init Example.bill) Example.now
              Example.billing Example.bill eq_refl)
    as (_ & _ & _ & Htot & Hst).
  split; [reflexivity |]. split; [exact Hst | exact Htot].
Defined.

(** C8: stated for estimates and invoices alike; an invoice archived from
    its detail page is still among the invoices the invoice list page
    selects, while the estimate list page leaves an archived estimate out. *)
Theorem archived_invoice_stays_in_invoice_list :
  let r := InvoiceDetail_handleArchive 4 (InvoiceDetail_init Example.bill)
             Example.now Example.billing in
  let e := handleArchive 2 None Example.now (Example.store 0) in
  (inv_archived_at <$> invoices r.2 !! 4%positive) = Some (Some Example.now)
  ∧ (inv_archived_at <$> InvoicesPage r.2 !! 4%positive) = Some (Some Example.now)
  ∧ (e_archived_at <$> estimates e.2 !! 2%positive) = Some (Some Example.now)
  ∧ EstimatesPage e.2 !! 2%positive = None.
Proof.
  intros r e. split; [reflexivity |]. split; [reflexivity |].
  split; [reflexivity |]. by vm_compute.
Qed.

(** *** The send-estimate action *)

Lemma sendEstimateAction_failure session resend id d why d' :
  sendEstimateAction session resend id d = (failure why, d') → d' = d.
Proof.
  unfold sendEstimateAction. intros H.
  repeat case_match; by simplify_eq.
Qed.

Lemma sendEstimateAction_success session resend id d d' :
  sendEstimateAction session resend id d = (success, d') →
  (∃ m, resend m = delivered)
  ∧ d' = with_estimates (alter (estimate_set_status sent) id (estimates d)) d.
Proof.
  unfold sendEstimateAction. intros H.
  repeat case_match; simplify_eq. split; [by eexists | done].
Qed.

(** C10: once the mail is delivered the action writes status sent, whatever
    the status of the estimate was. *)
Theorem send_sets_status_sent session resend id d e c cl address :
  is_Some session →
  estimates d !! id = Some e →
  e_client_id e = Some c →
  clients d !! c = Some cl →
  client_email cl = Some address →
  address ≠ EmptyString →
  resend (estimate_mail e cl address) = delivered →
  (sendEstimateAction session resend id d).1 = success
  ∧ estimates (sendEstimateAction session resend id d).2 !! id
    = Some (estimate_set_status sent e)
  ∧ (e_status <$> estimates (sendEstimateAction session resend id d).2 !! id)
    = Some sent
  ∧ (∀ k, k ≠ id →
       estimates (sendEstimateAction session resend id d).2 !! k = estimates d !! k).
Proof.
  intros [user ->] He Hc Hcl Hmail Hne Hsend.
  unfold sendEstimateAction. rewrite He, Hc. cbn. rewrite Hcl. cbn.
  rewrite Hmail. unfold Js.truthy. rewrite bool_decide_eq_false_2 by done. cbn.
  rewrite Hsend. cbn.
  rewrite lookup_alter_eq, He. cbn. repeat split.
  intros k Hk. by rewrite lookup_alter_ne.
Qed.

Lemma send_sets_status_sent_witness :
  let d := Example.store 0 in
  let r := sendEstimateAction (Some Example.tenant) (λ _, delivered) 2 d in
  (e_status <$> estimates d !! 2%positive) = Some approved
  ∧ r.1 = success
  ∧ (e_status <$> estimates r.2 !! 2%positive) = Some sent.
Proof.
  intros d r.
  destruct (send_sets_status_sent (Some Example.tenant) (λ _, delivered) 2 d
              Example.deck 1 Example.ann "ann@example.com")
    as (Hok & _ & Hsent & _); try reflexivity.
  - by eexists.
  - discriminate.
  - split; [reflexivity |]. split; [exact Hok | exact Hsent].
Defined.

(** *** When the triggers go through *)

Lemma row_tax_rate_recalculated t rows k r :
  row_tax_rate t (row_recalculated t rows k r) = row_tax_rate t r.
Proof. by destruct t. Qed.

Lemma row_recalculated_twice t rows rows' k k' r :
  row_recalculated t rows k (row_recalculated t rows' k' r)
  = row_recalculated t rows k r.
Proof. by destruct t. Qed.

Lemma after_row_trigger_Ok t tg d d' :
  after_row_trigger t tg d = Ok d' →
  ∃ ds, d' = with_docs t ds d
    ∧ ∀ k, ds !! k =
        if decide (coalesce_doc tg = Some k)
        then row_recalculated t (items_of t d) k <$> docs t d !! k
        else docs t d !! k.
Proof.
  destruct t; [apply recalculate_estimate_totals_Ok
              | apply recalculate_invoice_totals_Ok].
Qed.

(** A row trigger goes through when the totals it computes fit. *)
Lemma after_row_trigger_fits t tg d doc :
  coalesce_doc tg = Some doc →
  Z.abs (subtotal_of (items_of t d) doc) < 10 ^ 12 →
  (∀ r, docs t d !! doc = Some r →
        totals_fit (items_of t d) doc (row_tax_rate t r)) →
  ∃ d', after_row_trigger t tg d = Ok d'.
Proof.
  intros Hdoc Hsub Hfit.
  destruct t; cbn [after_row_trigger items_of docs] in *;
    unfold recalculate_estimate_totals, recalculate_invoice_totals;
    rewrite Hdoc; fold (subtotal_of (estimate_items d) doc);
    fold (subtotal_of (invoice_items d) doc);
    rewrite (numeric_fits _ _ Hsub); cbn [bind].
  - destruct (estimates d !! doc) as [e|] eqn:He; [| by eexists].
    destruct (Hfit e He) as (_ & Htax & Htot).
    unfold tax_amount_of, total_of, tax_amount_of, row_tax_rate in Htax, Htot.
    cbn in Htax, Htot. cbn zeta.
    rewrite (numeric_fits _ _ Htax). cbn [bind].
    rewrite (numeric_fits _ _ Htot). cbn [bind]. by eexists.
  - destruct (invoices d !! doc) as [e|] eqn:He; [| by eexists].
    destruct (Hfit e He) as (_ & Htax & Htot).
    unfold tax_amount_of, total_of, tax_amount_of, row_tax_rate in Htax, Htot.
    cbn in Htax, Htot. cbn zeta.
    rewrite (numeric_fits _ _ Htax). cbn [bind].
    rewrite (numeric_fits _ _ Htot). cbn [bind]. by eexists.
Qed.

(** And when it went through, they did fit. *)
Lemma after_row_trigger_fitted t tg d d' doc :
  after_row_trigger t tg d = Ok d' →
  coalesce_doc tg = Some doc →
  Z.abs (subtotal_of (items_of t d) doc) < 10 ^ 12
  ∧ ∀ r, docs t d !! doc = Some r →
         totals_fit (items_of t d) doc (row_tax_rate t r).
Proof.
  intros H Hdoc.
  destruct t; cbn [after_row_trigger items_of docs] in *;
    unfold recalculate_estimate_totals, recalculate_invoice_totals in H;
    rewrite Hdoc in H;
    match type of H with
    | bind (numeric 12 ?v) _ = _ =>
        destruct (numeric 12 v) as [sub|] eqn:Hsub; [| discriminate H]
    end;
    cbn [bind] in H; apply numeric_Ok in Hsub as [-> Hsub];
    (split; [exact Hsub |]); intros r Hr; cbn [doc_row] in r, Hr;
    rewrite Hr in H; cbn zeta in H;
    inv_result H; apply numeric_Ok in E as [-> Htax];
    apply numeric_Ok in E0 as [-> Htot]; by repeat split.
Qed.

Lemma fire_fits t tgs d doc :
  Forall (λ tg, coalesce_doc tg = Some doc) tgs →
  Z.abs (subtotal_of (items_of t d) doc) < 10 ^ 12 →
  (∀ r, docs t d !! doc = Some r →
        totals_fit (items_of t d) doc (row_tax_rate t r)) →
  ∃ d', fire t tgs d = Ok d'.
Proof.
  intros Htgs. revert d. induction Htgs as [| tg rest Htg _ IH]; intros d Hsub Hfit.
  - by eexists.
  - cbn [fire].
    destruct (after_row_trigger_fits t tg d doc Htg Hsub Hfit) as [d1 H1].
    rewrite H1. cbn [bind].
    apply after_row_trigger_Ok in H1 as (ds & -> & Hds).
    apply IH; rewrite items_of_with_docs; [done |].
    intros r. rewrite docs_with_docs, Hds, decide_True by done.
    destruct (docs t d !! doc) as [r0|] eqn:Hr0; [| done].
    cbn. intros [= <-]. rewrite row_tax_rate_recalculated. by apply Hfit.
Qed.

Lemma fire_fitted t tg tgs d d' doc :
  fire t (tg :: tgs) d = Ok d' →
  coalesce_doc tg = Some doc →
  Z.abs (subtotal_of (items_of t d) doc) < 10 ^ 12
  ∧ ∀ r, docs t d !! doc = Some r →
         totals_fit (items_of t d) doc (row_tax_rate t r).
Proof.
  cbn [fire]. intros H Hdoc.
  destruct (after_row_trigger t tg d) as [d1|] eqn:H1; [| discriminate].
  by eapply after_row_trigger_fitted.
Qed.

(** Deleting all line items of a document always goes through. *)
Lemma delete_by_doc_Ok t id d :
  ∃ ds,
    delete_items t (by_doc id) d
    = Ok (with_docs t ds
            (with_items t (filter (λ r, item_doc r ≠ id) (items_of t d)) d))
    ∧ (∀ k, k ≠ id → ds !! k = docs t d !! k)
    ∧ (∀ r, docs t d !! id = Some r →
         ∃ r', ds !! id = Some r' ∧ ∀ rows k, row_recalculated t rows k r'
                                              = row_recalculated t rows k r).
Proof.
  assert (Hkept : filter (λ r, ¬ selects (by_doc id) r) (items_of t d)
                  = filter (λ r, item_doc r ≠ id) (items_of t d)).
  { apply list_filter_iff. intros r. cbn. by rewrite bool_decide_spec. }
  assert (Hgone : Forall (λ r, item_doc r = id)
                    (filter (λ r, selects (by_doc id) r) (items_of t d))).
  { apply Forall_forall. intros r [Hr _]%list_elem_of_filter.
    cbn in Hr. by apply bool_decide_unpack in Hr. }
  assert (Hnone : Forall (λ r, item_doc r ≠ id)
                    (filter (λ r, item_doc r ≠ id) (items_of t d))).
  { apply Forall_forall. by intros r [Hr _]%list_elem_of_filter. }
  destruct (fire_fits t
              (on_delete <$> filter (λ r, selects (by_doc id) r) (items_of t d))
              (with_items t (filter (λ r, item_doc r ≠ id) (items_of t d)) d) id)
    as [d' Hfire].
  - rewrite Forall_fmap. eapply Forall_impl; [exact Hgone |].
    intros r Hr. cbn. by rewrite Hr.
  - rewrite items_of_with_items. unfold subtotal_of.
    by rewrite (sum_products_none _ _ Hnone).
  - intros r _. rewrite items_of_with_items.
    unfold totals_fit, total_of, tax_amount_of, subtotal_of.
    by rewrite (sum_products_none _ _ Hnone).
  - pose proof Hfire as Hfire'.
    unfold delete_items. rewrite Hkept, Hfire.
    apply fire_docs in Hfire' as (ds & -> & Hds).
    exists ds. split; [done |].
    rewrite docs_with_items in Hds. split.
    + intros k Hk. rewrite Hds, decide_False; [done |].
      rewrite <- list_fmap_compose.
      intros (r & Heq & Hr)%list_elem_of_fmap. cbn in Heq.
      injection Heq as ->. rewrite Forall_forall in Hgone. by apply Hk, Hgone.
    + intros r Hr. rewrite Hds, Hr. case_decide; cbn; eexists; split; try done.
      intros rows k. apply row_recalculated_twice.
Qed.

(** *** Saving the estimate form *)

Lemma itemsToInsert_docs id items k :
  items ≠ [] → k ∈ in_doc <$> itemsToInsert id items ↔ k = id.
Proof.
  intros Hne. split.
  - intros (i & -> & Hi)%list_elem_of_fmap.
    pose proof (itemsToInsert_doc id items) as Hdoc.
    rewrite Forall_forall in Hdoc. by apply Hdoc.
  - intros ->. destruct items as [| it rest]; [done |]. cbn. left.
Qed.

Lemma length_itemsToInsert id items :
  length (itemsToInsert id items) = length items.
Proof. apply length_imap. Qed.

Lemma save_estimate_create_Ok props f st sendEmail d id d' :
  efp_mode props = create →
  ef_items f ≠ [] →
  save_estimate props f st sendEmail d = (Ok id, d') →
  let base := estimate_of_form (efp_userId props)
                (if sendEmail then draft else st) f in
  insert_estimate base d
  = Ok (id, with_estimates (<[id := base]> (estimates d)) d)
  ∧ estimates d !! id = None
  ∧ insert_items estimate_items_table (itemsToInsert id (ef_items f))
      (with_estimates (<[id := base]> (estimates d)) d) = Ok d'
  ∧ ∃ rows,
      Forall2 stored_as (itemsToInsert id (ef_items f)) rows
      ∧ d' = with_estimates
               (<[id := estimate_recalculated (estimate_items d ++ rows) id base]>
                  (estimates d))
               (with_items estimate_items_table (estimate_items d ++ rows) d).
Proof.
  intros Hmode Hne H base. unfold save_estimate in H. rewrite Hmode in H.
  fold base in H.
  destruct (insert_estimate base d) as [[id1 d1]|] eqn:Hins; [| by simplify_eq].
  destruct (insert_items estimate_items_table _ d1) as [d2|] eqn:Hitems;
    [| by simplify_eq].
  injection H as <- <-.
  pose proof Hins as Hins'.
  apply insert_estimate_Ok in Hins' as (_ & Hnone & -> & _).
  split; [done |]. split; [done |]. split; [done |].
  apply insert_items_Ok in Hitems
    as (rows & ds & -> & Hall & _ & _ & _ & Hin & Hout).
  cbn in Hin, Hout, ds. exists rows. split; [done |].
  unfold with_docs, with_items, with_estimates. cbn. f_equal.
  apply map_eq. intros k. destruct (decide (k = id1)) as [-> | Hk].
  - rewrite Hin, !lookup_insert_eq; [done |]. by apply itemsToInsert_docs.
  - rewrite Hout, !lookup_insert_ne; [done | done | done |].
    by rewrite itemsToInsert_docs.
Qed.

Lemma save_estimate_edit_Ok props f st sendEmail d id d' :
  efp_mode props = edit →
  ef_items f ≠ [] →
  save_estimate props f st sendEmail d = (Ok id, d') →
  id = efp_initial_id props
  ∧ ∃ e0 rows,
      estimates d !! id = Some e0
      ∧ Forall2 stored_as (itemsToInsert id (ef_items f)) rows
      ∧ d' = with_estimates
               (<[id := estimate_recalculated
                          (filter (λ r, item_doc r ≠ id) (estimate_items d) ++ rows) id
                          (estimate_set_form
                             (if sendEmail then efp_initial_status props else st)
                             f e0)]>
                  (estimates d))
               (with_items estimate_items_table
                  (filter (λ r, item_doc r ≠ id) (estimate_items d) ++ rows) d).
Proof.
  intros Hmode Hne H. unfold save_estimate in H. rewrite Hmode in H. cbn zeta in H.
  set (id0 := efp_initial_id props) in *.
  set (status := if sendEmail then efp_initial_status props else st) in *.
  destruct (update_estimate id0 _ d) as [d1|] eqn:Hupd; [| by simplify_eq].
  rewrite length_itemsToInsert in H.
  rewrite bool_decide_eq_true_2 in H by (destruct (ef_items f); [done | cbn; lia]).
  destruct (delete_by_doc_Ok estimate_items_table id0 d1)
    as (ds2 & Hdel & Hds2 & Hds2id).
  rewrite Hdel in H. cbn [unchecked] in H.
  destruct (insert_items estimate_items_table _ _) as [d3|] eqn:Hitems;
    [| by simplify_eq].
  injection H as <- <-. split; [done |].
  apply insert_items_Ok in Hitems
    as (rows & ds3 & -> & Hall & _ & _ & Hfk & Hin & Hout).
  rewrite docs_with_docs in Hfk, Hin, Hout.
  rewrite items_of_with_docs, items_of_with_items in Hin |- *.
  assert (Hid : is_Some (ds2 !! id0)).
  { destruct (ef_items f) as [| it rest] eqn:Hitems; [done |].
    cbn in Hfk. by apply Forall_cons in Hfk as [? _]. }
  unfold update_estimate in Hupd.
  destruct (estimates d !! id0) as [e0|] eqn:He0.
  2: { injection Hupd as <-. cbn in Hds2id, Hid, ds2.
       destruct Hid as [r Hr].
       destruct (decide (id0 ∈ item_doc <$> filter (λ r, selects (by_doc id0) r)
                                              (estimate_items d))) as [Hd | Hd].
       - exfalso. apply delete_items_Ok in Hdel as (ds & Heq & Hdin & _).
         specialize (Hdin _ Hd). cbn in Hdin, ds. rewrite He0 in Hdin. cbn in Hdin.
         assert (ds = ds2) as -> by (by injection Heq).
         by rewrite Hdin in Hr.
       - exfalso. apply delete_items_Ok in Hdel as (ds & Heq & _ & Hdout).
         specialize (Hdout _ Hd). cbn in Hdout, ds. rewrite He0 in Hdout.
         assert (ds = ds2) as -> by (by injection Heq).
         by rewrite Hdout in Hr. }
  cbn zeta in Hupd. inv_result Hupd. subst d1.
  cbn [docs with_estimates estimates items_of estimate_items] in *.
  exists e0, rows. split; [done |]. split; [done |].
  unfold with_docs, with_items, with_estimates. cbn. f_equal.
  apply map_eq. intros k. destruct (decide (k = id0)) as [-> | Hk].
  - rewrite Hin by (by apply itemsToInsert_docs).
    destruct (Hds2id _ (lookup_insert_eq _ _ _)) as (r' & -> & Hr').
    cbn. rewrite lookup_insert_eq. f_equal. apply (Hr' _ id0).
  - rewrite Hout by (by rewrite itemsToInsert_docs).
    rewrite (Hds2 _ Hk), !lookup_insert_ne; done.
Qed.

Lemma handleSubmit_saved_first props f saveStatus sendEmail session resend d out d' :
  handleSubmit props f saveStatus sendEmail session resend d = (out, d') →
  out = rejected ∧ d' = d
  ∨ ef_items f ≠ [] ∧ Js.blank (ef_title f) = false
    ∧ Js.blank (ef_estimateNumber f) = false
    ∧ ((∃ e, save_estimate props f saveStatus sendEmail d = (Err e, d')
             ∧ out = save_failed e)
       ∨ ∃ id d1,
           save_estimate props f saveStatus sendEmail d = (Ok id, d1)
           ∧ if sendEmail
             then (∃ why, sendEstimateAction session resend id d1
                          = (failure why, d') ∧ out = send_failed id why)
                  ∨ (sendEstimateAction session resend id d1 = (success, d')
                     ∧ out = sent_to_client id)
             else out = saved id ∧ d' = d1).
Proof.
  unfold handleSubmit. intros H.
  destruct (Js.blank (ef_title f)); [left; by simplify_eq |].
  destruct (Js.blank (ef_estimateNumber f)); [left; by simplify_eq |].
  destruct (bool_decide (length (ef_items f) = 0%nat)) eqn:Hlen;
    [left; by simplify_eq |].
  destruct (sendEmail && negb (selected_client_has_email props f));
    [left; by simplify_eq |].
  right. apply bool_decide_eq_false in Hlen.
  split; [by intros Hnil; rewrite Hnil in Hlen |]. split; [done |]. split; [done |].
  destruct (save_estimate props f saveStatus sendEmail d) as [[id | e] d1].
  - right. exists id, d1. split; [done |]. destruct sendEmail.
    + destruct (sendEstimateAction session resend id d1) as [[| why] d2].
      * right. by simplify_eq.
      * left. exists why. by simplify_eq.
    + by simplify_eq.
  - left. exists e. by simplify_eq.
Qed.

Lemma save_estimate_stored props f saveStatus sendEmail d id d1 :
  items_reference_documents estimate_items_table d →
  ef_items f ≠ [] →
  save_estimate props f saveStatus sendEmail d = (Ok id, d1) →
  ∃ e, estimates d1 !! id = Some e
    ∧ form_stored f e
    ∧ e_status e = match efp_mode props with
                   | create => if sendEmail then draft else saveStatus
                   | edit => if sendEmail then efp_initial_status props
                             else saveStatus
                   end
    ∧ line_items_stored id (ef_items f) (estimate_items d1)
    ∧ totals_agree estimate_items_table d1 id.
Proof.
  intros Hfk Hne Hsave. destruct (efp_mode props) eqn:Hmode.
  - apply save_estimate_create_Ok in Hsave as (_ & Hnone & _ & rows & Hall & ->);
      [| done | done].
    eexists. split; [apply lookup_insert_eq |]. split; [done |]. split; [done |].
    pose proof (no_items_of_missing_doc estimate_items_table d id Hfk Hnone) as Hno.
    cbn [items_of] in Hno.
    pose proof (stored_rows_doc id _ _ (itemsToInsert_doc id _) Hall) as Hrows.
    split.
    + unfold line_items_stored. cbn.
      by rewrite filter_app, (filter_doc_none _ _ Hno), (filter_doc_all _ _ Hrows).
    + intros rate sub tax tot. cbn. rewrite lookup_insert_eq. cbn.
      by intros [= <- <- <- <-].
  - apply save_estimate_edit_Ok in Hsave as (-> & e0 & rows & He0 & Hall & ->);
      [| done | done].
    set (id := efp_initial_id props) in *.
    eexists. split; [apply lookup_insert_eq |]. split; [done |]. split; [done |].
    assert (Hno : Forall (λ r, item_doc r ≠ id)
                    (filter (λ r, item_doc r ≠ id) (estimate_items d))).
    { apply Forall_forall. by intros r [Hr _]%list_elem_of_filter. }
    pose proof (stored_rows_doc id _ _ (itemsToInsert_doc id _) Hall) as Hrows.
    split.
    + unfold line_items_stored. cbn.
      by rewrite filter_app, (filter_doc_none _ _ Hno), (filter_doc_all _ _ Hrows).
    + intros rate sub tax tot. cbn. rewrite lookup_insert_eq. cbn.
      by intros [= <- <- <- <-].
Qed.

(** C5: when the send fails during "save and send", the store is exactly as
    the save left it: the estimate holds the fields of the form, its line
    items are those of the form, its totals are theirs, and its status is the
    one written before the send (draft for a new estimate, the status the
    form was opened with for an edited one), which is the stored status when
    the form was opened on the stored row. The status is sent after the send
    only when the mail was delivered. *)
Theorem send_failure_keeps_saved_estimate
    props f saveStatus session resend d out d' :
  items_reference_documents estimate_items_table d →
  handleSubmit props f saveStatus true session resend d = (out, d') →
  (∀ id why, out = send_failed id why →
     d' = (save_estimate props f saveStatus true d).2
     ∧ ∃ e, estimates d' !! id = Some e
         ∧ form_stored f e
         ∧ line_items_stored id (ef_items f) (estimate_items d')
         ∧ totals_agree estimate_items_table d' id
         ∧ e_status e = pre_send_status props
         ∧ (∀ e0, efp_mode props = edit → estimates d !! id = Some e0 →
                  e_status e0 = efp_initial_status props →
                  e_status e = e_status e0))
  ∧ (∀ id, out = sent_to_client id →
       (e_status <$> estimates d' !! id) = Some sent
       ∧ ∃ m, resend m = delivered)
  ∧ ((∀ m, resend m ≠ delivered) → ∀ id, out ≠ sent_to_client id).
Proof.
  intros Hfk H.
  apply handleSubmit_saved_first in H
    as [[-> ->] | (Hne & _ & _ & [(e & Hsave & ->) | (id & d1 & Hsave & Hsend)])].
  - split; [| split]; [by intros ? ? [=] | by intros ? [=] | by intros ? ? [=]].
  - split; [| split]; [by intros ? ? [=] | by intros ? [=] | by intros ? ? [=]].
  - destruct (save_estimate_stored _ _ _ _ _ _ _ Hfk Hne Hsave)
      as (e & He & Hform & Hst & Hitems & Htot).
    destruct Hsend as [(why & Hact & ->) | (Hact & ->)].
    + apply sendEstimateAction_failure in Hact as ->.
      split; [| split]; [| by intros ? [=] | by intros ? ? [=]].
      intros id' why' [= <- <-]. split; [rewrite Hsave; reflexivity |].
      exists e. split; [exact He |]. split; [exact Hform |].
      split; [exact Hitems |]. split; [exact Htot |]. split; [exact Hst |].
      intros e0 Hmode _ He0. by rewrite Hst, Hmode, He0.
    + apply sendEstimateAction_success in Hact as (Hm & ->).
      split; [by intros ? ? [=] |].
      assert (Hsent : ∀ id', sent_to_client id = sent_to_client id' →
                (e_status <$> estimates
                   (with_estimates (alter (estimate_set_status sent) id (estimates d1)) d1)
                   !! id') = Some sent).
      { intros id' [= <-]. cbn. by rewrite lookup_alter_eq, He. }
      split.
      * intros id' Hid'. split; [by apply Hsent | exact Hm].
      * intros Hnever id' _. destruct Hm as [m Hm]. by apply (Hnever m).
Qed.

Lemma send_failure_keeps_saved_estimate_witness :
  let d := Example.store 0 in
  let r := handleSubmit Example.edit_deck Example.deck_form sent true
             (Some Example.tenant) (λ _, refused) d in
  r.1 = send_failed 2 Failed_to_send_email
  ∧ (e_status <$> estimates d !! 2%positive) = Some approved
  ∧ ∃ e, estimates r.2 !! 2%positive = Some e
      ∧ e_status e = approved
      ∧ e_title e = "Deck and stairs"
      ∧ e_total e = 75600
      ∧ item_description <$> estimate_items r.2 = ["Labor"; "Materials"].
Proof.
  intros d r.
  assert (Hfk : items_reference_documents estimate_items_table d).
  { repeat constructor. }
  assert (Hr : handleSubmit Example.edit_deck Example.deck_form sent true
                 (Some Example.tenant) (λ _, refused) d
               = (send_failed 2 Failed_to_send_email, r.2)) by reflexivity.
  destruct (send_failure_keeps_saved_estimate _ _ _ _ _ _ _ _ Hfk Hr) as (Hfail & _).
  destruct (Hfail 2%positive Failed_to_send_email eq_refl)
    as (_ & e & He & Hform & _ & Htot & Hst & _).
  split; [reflexivity |]. split; [reflexivity |].
  exists e. split; [exact He |]. split; [exact Hst |].
  split; [apply Hform |].
  split; [| reflexivity].
  destruct (Htot (e_tax_rate e) (e_subtotal e) (e_tax_amount e) (e_total e))
    as (Hsub & Htax & Htotal).
  { cbn. by rewrite He. }
  rewrite Htotal, Htax, Hsub.
  destruct Hform as (_ & _ & _ & _ & _ & _ & -> & _). reflexivity.
Defined.

(** *** When an INSERT of line items goes through *)

Lemma checked_row_transfer id doc descr q unit price sort r id' doc' descr' unit' :
  checked_row id doc descr q unit price sort = Ok r →
  ∃ r', checked_row id' doc' descr' q unit' price sort = Ok r'.
Proof.
  unfold checked_row. intros H.
  destruct (numeric 10 q) as [q1|]; [| discriminate]. cbn [bind] in *.
  destruct (numeric 12 price) as [p1|]; [| discriminate]. cbn [bind] in *.
  destruct (numeric 12 (round2 4 (q1 * p1))) as [a1|]; [| discriminate].
  cbn [bind] in *.
  destruct (int4 sort) as [s1|]; [| discriminate]. cbn [bind]. by eexists.
Qed.

Lemma new_rows_transfer used inputs rows used' inputs' :
  new_rows used inputs = Ok rows →
  Forall2 (λ i i', in_quantity i = in_quantity i'
                   ∧ in_unit_price i = in_unit_price i'
                   ∧ in_sort_order i = in_sort_order i') inputs inputs' →
  ∃ rows', new_rows used' inputs' = Ok rows'.
Proof.
  intros H Hsame. revert used used' rows H.
  induction Hsame as [| i i' rest rest' (Hq & Hp & Hs) _ IH]; intros used used' rows H.
  - by eexists.
  - cbn [new_rows] in *.
    destruct (checked_row (fresh used) _ _ _ _ _ _) as [r|] eqn:Hr; [| discriminate].
    cbn [bind] in H.
    destruct (new_rows (fresh used :: used) rest) as [rs|] eqn:Hrs; [| discriminate].
    rewrite <- Hq, <- Hp, <- Hs.
    destruct (checked_row_transfer _ _ _ _ _ _ _ _ (fresh used') (in_doc i')
                (in_description i') (in_unit i') Hr) as [r' ->].
    cbn [bind].
    destruct (IH _ (fresh used' :: used') _ Hrs) as [rs' ->]. by eexists.
Qed.

Lemma itemsToInsert_same_values id id' items :
  Forall2 (λ i i', in_quantity i = in_quantity i'
                   ∧ in_unit_price i = in_unit_price i'
                   ∧ in_sort_order i = in_sort_order i')
    (itemsToInsert id items) (itemsToInsert id' items).
Proof.
  apply Forall2_same_length_lookup_2; [by rewrite !length_itemsToInsert |].
  intros k i i'. unfold itemsToInsert. rewrite !list_lookup_imap.
  destruct (items !! k); [| done]. cbn. by intros [= <-] [= <-].
Qed.

Lemma itemsToInsert_products id items :
  (λ i, (in_quantity i, in_unit_price i)) <$> itemsToInsert id items
  = (λ it, (li_quantity it, li_unit_price it)) <$> items.
Proof.
  unfold itemsToInsert. apply list_eq. intros k.
  rewrite !list_lookup_fmap, list_lookup_imap.
  by destruct (items !! k).
Qed.

Lemma totals_fit_same_sum rows doc rows' doc' rate :
  sum_products doc rows = sum_products doc' rows' →
  totals_fit rows doc rate → totals_fit rows' doc' rate.
Proof.
  unfold totals_fit, total_of, tax_amount_of, subtotal_of. by intros ->.
Qed.

(** The line items of a form that could be inserted for one new document
    can be inserted for another new document with the same tax rate. *)
Lemma insert_items_transfer t items id id' d d' dA rA rB :
  items ≠ [] →
  insert_items t (itemsToInsert id items) d = Ok dA →
  docs t d !! id = Some rA →
  Forall (λ r, item_doc r ≠ id) (items_of t d) →
  docs t d' !! id' = Some rB →
  Forall (λ r, item_doc r ≠ id') (items_of t d') →
  row_tax_rate t rB = row_tax_rate t rA →
  ∃ dB, insert_items t (itemsToInsert id' items) d' = Ok dB.
Proof.
  intros Hne H HrA HnoA HrB HnoB Hrate. unfold insert_items in *.
  destruct (new_rows _ (itemsToInsert id items)) as [rowsA|] eqn:HrowsA;
    [| discriminate].
  cbn [bind] in H. destruct (forallb _ rowsA); [| discriminate].
  cbn [guard bind] in H.
  destruct (new_rows_transfer _ _ _ (item_id <$> items_of t d')
              (itemsToInsert id' items) HrowsA (itemsToInsert_same_values _ _ _))
    as [rowsB HrowsB].
  rewrite HrowsB. cbn [bind].
  apply new_rows_Ok in HrowsA as (HallA & _ & _).
  apply new_rows_Ok in HrowsB as (HallB & _ & _).
  pose proof (stored_rows_doc id _ _ (itemsToInsert_doc id _) HallA) as HdocA.
  pose proof (stored_rows_doc id' _ _ (itemsToInsert_doc id' _) HallB) as HdocB.
  assert (Hsum : sum_products id (items_of t d ++ rowsA)
                 = sum_products id' (items_of t d' ++ rowsB)).
  { rewrite !sum_products_app, (sum_products_none _ _ HnoA),
      (sum_products_none _ _ HnoB), (sum_products_all _ _ HdocA),
      (sum_products_all _ _ HdocB), (stored_rows_products _ _ HallA),
      (stored_rows_products _ _ HallB), !itemsToInsert_products. done. }
  assert (Hfk : forallb (λ r, doc_exists t d' (item_doc r)) rowsB = true).
  { apply Is_true_true_1, forallb_True. eapply Forall_impl; [exact HdocB |].
    intros r ->. cbv beta. rewrite doc_exists_docs. apply bool_decide_pack.
    by eexists. }
  rewrite Hfk. cbn [guard bind].
  destruct rowsA as [| rA0 restA].
  { apply Forall2_length in HallA. rewrite length_itemsToInsert in HallA.
    by destruct items. }
  rewrite fmap_cons in H.
  pose proof (Forall_inv HdocA) as HdA. cbv beta in HdA.
  apply (fire_fitted _ _ _ _ _ id) in H as [Hsub Hfit];
    [| by cbn; rewrite HdA].
  rewrite items_of_with_items in Hsub.
  rewrite items_of_with_items, docs_with_items in Hfit.
  specialize (Hfit _ HrA).
  apply (fire_fits t _ _ id').
  - rewrite Forall_fmap. eapply Forall_impl; [exact HdocB |].
    intros r Hr. cbn. by rewrite Hr.
  - rewrite items_of_with_items. unfold subtotal_of in *. by rewrite <- Hsum.
  - intros r. rewrite items_of_with_items, docs_with_items, HrB.
    intros [= <-]. rewrite Hrate.
    by apply (totals_fit_same_sum _ _ _ _ _ Hsum).
Qed.

(** *** When a document row can be inserted *)

Lemma insert_estimate_inv e d id d1 :
  insert_estimate e d = Ok (id, d1) →
  estimate_casts e = Ok tt
  ∧ estimate_number_taken d None (e_user_id e) (e_estimate_number e) = false
  ∧ client_exists d (e_client_id e) = true.
Proof.
  unfold insert_estimate. intros H.
  destruct (estimate_casts e) as [[]|]; [| discriminate]. cbn [bind] in H.
  destruct (estimate_number_taken d None _ _); [discriminate |].
  cbn [negb guard bind] in H.
  by destruct (client_exists d _).
Qed.

Lemma insert_estimate_free e d :
  estimate_casts e = Ok tt →
  estimate_number_taken d None (e_user_id e) (e_estimate_number e) = false →
  client_exists d (e_client_id e) = true →
  insert_estimate e d
  = Ok (fresh (dom (estimates d)),
        with_estimates (<[fresh (dom (estimates d)) := e]> (estimates d)) d).
Proof.
  intros Hc Ht Hcl. unfold insert_estimate. by rewrite Hc, Ht, Hcl.
Qed.

Lemma insert_estimate_taken e d :
  estimate_casts e = Ok tt →
  estimate_number_taken d None (e_user_id e) (e_estimate_number e) = true →
  insert_estimate e d = Err unique_violation.
Proof.
  intros Hc Ht. unfold insert_estimate. by rewrite Hc, Ht.
Qed.

Lemma estimate_number_taken_true d user number :
  estimate_number_taken d None user number = true
  ↔ ∃ k e, estimates d !! k = Some e ∧ e_user_id e = user
           ∧ e_estimate_number e = number.
Proof.
  unfold estimate_number_taken. rewrite bool_decide_eq_true.
  unfold map_Exists. split.
  - intros (k & e & Hk & _ & Hu & Hn). by exists k, e.
  - intros (k & e & Hk & Hu & Hn). by exists k, e.
Qed.

(** *** One number, two saves *)

Lemma handleSubmit_saved props f saveStatus session resend d id d' :
  handleSubmit props f saveStatus false session resend d = (saved id, d') →
  ef_items f ≠ []
  ∧ Js.blank (ef_title f) = false
  ∧ Js.blank (ef_estimateNumber f) = false
  ∧ save_estimate props f saveStatus false d = (Ok id, d').
Proof.
  intros H. apply handleSubmit_saved_first in H
    as [[? _] | (Hne & Ht & Hn & [(e & _ & ?) | (id' & d1 & Hsave & ? & ->)])];
    by simplify_eq.
Qed.

Lemma handleSubmit_after_validation props f saveStatus session resend d :
  ef_items f ≠ [] →
  Js.blank (ef_title f) = false →
  Js.blank (ef_estimateNumber f) = false →
  handleSubmit props f saveStatus false session resend d
  = match save_estimate props f saveStatus false d with
    | (Err e, d') => (save_failed e, d')
    | (Ok id, d') => (saved id, d')
    end.
Proof.
  intros Hne Ht Hn. unfold handleSubmit. rewrite Ht, Hn.
  rewrite bool_decide_eq_false_2; [done |].
  by destruct (ef_items f).
Qed.

Lemma estimate_number_per_tenant
    props1 props2 f1 f2 st1 st2 session resend d id1 d1 id2' d2' :
  items_reference_documents estimate_items_table d →
  efp_mode props1 = create →
  efp_mode props2 = create →
  ef_estimateNumber f2 = ef_estimateNumber f1 →
  handleSubmit props1 f1 st1 false session resend d = (saved id1, d1) →
  handleSubmit props2 f2 st2 false session resend d = (saved id2', d2') →
  (efp_userId props2 = efp_userId props1 →
     handleSubmit props2 f2 st2 false session resend d1
     = (save_failed unique_violation, d1))
  ∧ (efp_userId props2 ≠ efp_userId props1 →
     ∃ id2 d2 e1 e2,
       handleSubmit props2 f2 st2 false session resend d1 = (saved id2, d2)
       ∧ id2 ≠ id1
       ∧ estimates d2 !! id1 = Some e1
       ∧ estimates d2 !! id2 = Some e2
       ∧ e_user_id e1 = efp_userId props1
       ∧ e_user_id e2 = efp_userId props2
       ∧ e_estimate_number e1 = ef_estimateNumber f1
       ∧ e_estimate_number e2 = ef_estimateNumber f1).
Proof.
  intros Hfk Hm1 Hm2 Hnum H1 H2.
  apply handleSubmit_saved in H1 as (Hne1 & _ & _ & Hsave1).
  apply handleSubmit_saved in H2 as (Hne2 & Ht2 & Hn2 & Hsave2).
  apply save_estimate_create_Ok in Hsave1
    as (_ & Hnone1 & _ & rows1 & Hall1 & Hd1); [| done | done].
  apply save_estimate_create_Ok in Hsave2
    as (Hins2 & Hnone2 & Hitems2 & _); [| done | done].
  set (base1 := estimate_of_form (efp_userId props1) st1 f1) in *.
  set (base2 := estimate_of_form (efp_userId props2) st2 f2) in *.
  apply insert_estimate_inv in Hins2 as (Hcasts & Hfree & Hclient).
  assert (Hrow1 : estimates d1 !! id1
                  = Some (estimate_recalculated (estimate_items d ++ rows1) id1 base1)).
  { rewrite Hd1. cbn. apply lookup_insert_eq. }
  assert (Hother : ∀ k, k ≠ id1 → estimates d1 !! k = estimates d !! k).
  { intros k Hk. rewrite Hd1. cbn. by apply lookup_insert_ne. }
  assert (Hclients : clients d1 = clients d) by (by rewrite Hd1).
  assert (Hitems1 : estimate_items d1 = estimate_items d ++ rows1)
    by (by rewrite Hd1).
  rewrite (handleSubmit_after_validation _ _ _ _ _ _ Hne2 Ht2 Hn2).
  unfold save_estimate. rewrite Hm2. fold base2.
  split.
  - intros Huser.
    rewrite (insert_estimate_taken base2 d1 Hcasts); [done |].
    apply estimate_number_taken_true.
    eexists id1, _. split; [exact Hrow1 |]. cbn. by rewrite Huser, Hnum.
  - intros Huser.
    assert (Hfree1 : estimate_number_taken d1 None (e_user_id base2)
                       (e_estimate_number base2) = false).
    { apply not_true_iff_false. intros (k & e & Hk & Hu & Hn)%estimate_number_taken_true.
      destruct (decide (k = id1)) as [-> | Hne].
      - rewrite Hrow1 in Hk. injection Hk as <-. cbn in Hu. by apply Huser.
      - rewrite (Hother _ Hne) in Hk. apply not_true_iff_false in Hfree.
        apply Hfree, estimate_number_taken_true. by eexists k, e. }
    assert (Hclient1 : client_exists d1 (e_client_id base2) = true).
    { unfold client_exists in *. by rewrite Hclients. }
    rewrite (insert_estimate_free base2 d1 Hcasts Hfree1 Hclient1).
    set (id2 := fresh (dom (estimates d1))).
    assert (Hnone2' : estimates d1 !! id2 = None)
      by apply not_elem_of_dom, is_fresh.
    assert (Hid : id2 ≠ id1).
    { intros Heq. rewrite Heq, Hrow1 in Hnone2'. discriminate. }
    pose proof (no_items_of_missing_doc estimate_items_table d id2' Hfk Hnone2)
      as HnoA.
    assert (HnoB : Forall (λ r, item_doc r ≠ id2) (estimate_items d1)).
    { rewrite Hitems1. apply Forall_app. split.
      - apply (no_items_of_missing_doc estimate_items_table d id2 Hfk).
        cbn. by rewrite <- (Hother _ Hid).
      - pose proof (stored_rows_doc id1 _ _ (itemsToInsert_doc id1 _) Hall1) as Hr.
        eapply Forall_impl; [exact Hr |]. cbn. by intros r ->. }
    destruct (insert_items_transfer estimate_items_table (ef_items f2) id2' id2
                (with_estimates (<[id2' := base2]> (estimates d)) d)
                (with_estimates (<[id2 := base2]> (estimates d1)) d1)
                d2' base2 base2 Hne2 Hitems2)
      as [d2 Hd2]; try done.
    { cbn. apply lookup_insert_eq. }
    { cbn. apply lookup_insert_eq. }
    rewrite Hd2. exists id2, d2.
    apply insert_items_Ok in Hd2 as (rows2 & ds & -> & _ & _ & _ & _ & Hin & Hout).
    cbn in Hin, Hout, ds. cbn.
    eexists _, _. split; [done |]. split; [done |].
    split; [| split].
    + rewrite Hout, lookup_insert_ne, Hrow1; [done | done |].
      by rewrite itemsToInsert_docs.
    + rewrite Hin, lookup_insert_eq; [done |]. by apply itemsToInsert_docs.
    + cbn. by rewrite Hnum.
Qed.

Lemma insert_invoice_inv i d id d1 :
  insert_invoice i d = Ok (id, d1) →
  invoice_casts i = Ok tt
  ∧ invoice_number_taken d None (inv_user_id i) (inv_invoice_number i) = false
  ∧ client_exists d (inv_client_id i) = true
  ∧ (∀ s, inv_source_estimate_id i = Some s → is_Some (estimates d !! s)).
Proof.
  unfold insert_invoice. intros H.
  destruct (invoice_casts i) as [[]|]; [| discriminate]. cbn [bind] in H.
  destruct (invoice_number_taken d None _ _); [discriminate |].
  cbn [negb guard bind] in H.
  destruct (client_exists d _); [| discriminate]. cbn [guard bind] in H.
  destruct (inv_source_estimate_id i) as [s|].
  - destruct (bool_decide (is_Some (estimates d !! s))) eqn:Hs; [| discriminate].
    repeat split. intros s' [= <-]. by apply bool_decide_eq_true in Hs.
  - by repeat split.
Qed.

Lemma insert_invoice_free i d :
  invoice_casts i = Ok tt →
  invoice_number_taken d None (inv_user_id i) (inv_invoice_number i) = false →
  client_exists d (inv_client_id i) = true →
  inv_source_estimate_id i = None →
  insert_invoice i d
  = Ok (fresh (dom (invoices d)),
        with_invoices (<[fresh (dom (invoices d)) := i]> (invoices d)) d).
Proof.
  intros Hc Ht Hcl Hs. unfold insert_invoice. by rewrite Hc, Ht, Hcl, Hs.
Qed.

Lemma insert_invoice_taken i d :
  invoice_casts i = Ok tt →
  invoice_number_taken d None (inv_user_id i) (inv_invoice_number i) = true →
  insert_invoice i d = Err unique_violation.
Proof.
  intros Hc Ht. unfold insert_invoice. by rewrite Hc, Ht.
Qed.

Lemma invoice_number_taken_true d user number :
  invoice_number_taken d None user number = true
  ↔ ∃ k i, invoices d !! k = Some i ∧ inv_user_id i = user
           ∧ inv_invoice_number i = number.
Proof.
  unfold invoice_number_taken. rewrite bool_decide_eq_true.
  unfold map_Exists. split.
  - intros (k & i & Hk & _ & Hu & Hn). by exists k, i.
  - intros (k & i & Hk & Hu & Hn). by exists k, i.
Qed.

Lemma save_invoice_create_Ok props f d id d' :
  ifp_mode props = create →
  if_items f ≠ [] →
  save_invoice props f d = (Ok id, d') →
  let base := invoice_of_form (ifp_userId props) f in
  insert_invoice base d
  = Ok (id, with_invoices (<[id := base]> (invoices d)) d)
  ∧ invoices d !! id = None
  ∧ insert_items invoice_items_table (itemsToInsert id (if_items f))
      (with_invoices (<[id := base]> (invoices d)) d) = Ok d'
  ∧ ∃ rows,
      Forall2 stored_as (itemsToInsert id (if_items f)) rows
      ∧ d' = with_invoices
               (<[id := invoice_recalculated (invoice_items d ++ rows) id base]>
                  (invoices d))
               (with_items invoice_items_table (invoice_items d ++ rows) d).
Proof.
  intros Hmode Hne H base. unfold save_invoice in H. rewrite Hmode in H.
  fold base in H.
  destruct (insert_invoice base d) as [[id1 d1]|] eqn:Hins; [| by simplify_eq].
  destruct (insert_items invoice_items_table _ d1) as [d2|] eqn:Hitems;
    [| by simplify_eq].
  injection H as <- <-.
  pose proof Hins as Hins'.
  apply insert_invoice_Ok in Hins' as (_ & Hnone & -> & _).
  split; [done |]. split; [done |]. split; [done |].
  apply insert_items_Ok in Hitems
    as (rows & ds & -> & Hall & _ & _ & _ & Hin & Hout).
  cbn in Hin, Hout, ds. exists rows. split; [done |].
  unfold with_docs, with_items, with_invoices. cbn. f_equal.
  apply map_eq. intros k. destruct (decide (k = id1)) as [-> | Hk].
  - rewrite Hin, !lookup_insert_eq; [done |]. by apply itemsToInsert_docs.
  - rewrite Hout, !lookup_insert_ne; [done | done | done |].
    by rewrite itemsToInsert_docs.
Qed.

Lemma InvoiceForm_handleSubmit_saved props f d id d' :
  InvoiceForm_handleSubmit props f d = (saved id, d') →
  if_items f ≠ []
  ∧ Js.blank (if_title f) = false
  ∧ Js.blank (if_invoiceNumber f) = false
  ∧ save_invoice props f d = (Ok id, d').
Proof.
  unfold InvoiceForm_handleSubmit. intros H.
  destruct (Js.blank (if_title f)); [discriminate |].
  destruct (Js.blank (if_invoiceNumber f)); [discriminate |].
  destruct (bool_decide (length (if_items f) = 0%nat)) eqn:Hlen; [discriminate |].
  apply bool_decide_eq_false in Hlen.
  destruct (save_invoice props f d) as [[id' | e] d1]; [| discriminate].
  injection H as <- <-. repeat split. by intros Hnil; rewrite Hnil in Hlen.
Qed.

Lemma InvoiceForm_handleSubmit_after_validation props f d :
  if_items f ≠ [] →
  Js.blank (if_title f) = false →
  Js.blank (if_invoiceNumber f) = false →
  InvoiceForm_handleSubmit props f d
  = match save_invoice props f d with
    | (Err e, d') => (save_failed e, d')
    | (Ok id, d') => (saved id, d')
    end.
Proof.
  intros Hne Ht Hn. unfold InvoiceForm_handleSubmit. rewrite Ht, Hn.
  rewrite bool_decide_eq_false_2; [done |].
  by destruct (if_items f).
Qed.

Lemma invoice_number_per_tenant props1 props2 f1 f2 d id1 d1 id2' d2' :
  items_reference_documents invoice_items_table d →
  ifp_mode props1 = create →
  ifp_mode props2 = create →
  if_invoiceNumber f2 = if_invoiceNumber f1 →
  InvoiceForm_handleSubmit props1 f1 d = (saved id1, d1) →
  InvoiceForm_handleSubmit props2 f2 d = (saved id2', d2') →
  (ifp_userId props2 = ifp_userId props1 →
     InvoiceForm_handleSubmit props2 f2 d1 = (save_failed unique_violation, d1))
  ∧ (ifp_userId props2 ≠ ifp_userId props1 →
     ∃ id2 d2 i1 i2,
       InvoiceForm_handleSubmit props2 f2 d1 = (saved id2, d2)
       ∧ id2 ≠ id1
       ∧ invoices d2 !! id1 = Some i1
       ∧ invoices d2 !! id2 = Some i2
       ∧ inv_user_id i1 = ifp_userId props1
       ∧ inv_user_id i2 = ifp_userId props2
       ∧ inv_invoice_number i1 = if_invoiceNumber f1
       ∧ inv_invoice_number i2 = if_invoiceNumber f1).
Proof.
  intros Hfk Hm1 Hm2 Hnum H1 H2.
  apply InvoiceForm_handleSubmit_saved in H1 as (Hne1 & _ & _ & Hsave1).
  apply InvoiceForm_handleSubmit_saved in H2 as (Hne2 & Ht2 & Hn2 & Hsave2).
  apply save_invoice_create_Ok in Hsave1
    as (_ & Hnone1 & _ & rows1 & Hall1 & Hd1); [| done | done].
  apply save_invoice_create_Ok in Hsave2
    as (Hins2 & Hnone2 & Hitems2 & _); [| done | done].
  set (base1 := invoice_of_form (ifp_userId props1) f1) in *.
  set (base2 := invoice_of_form (ifp_userId props2) f2) in *.
  apply insert_invoice_inv in Hins2 as (Hcasts & Hfree & Hclient & _).
  assert (Hrow1 : invoices d1 !! id1
                  = Some (invoice_recalculated (invoice_items d ++ rows1) id1 base1)).
  { rewrite Hd1. cbn. apply lookup_insert_eq. }
  assert (Hother : ∀ k, k ≠ id1 → invoices d1 !! k = invoices d !! k).
  { intros k Hk. rewrite Hd1. cbn. by apply lookup_insert_ne. }
  assert (Hclients : clients d1 = clients d) by (by rewrite Hd1).
  assert (Hitems1 : invoice_items d1 = invoice_items d ++ rows1)
    by (by rewrite Hd1).
  rewrite (InvoiceForm_handleSubmit_after_validation _ _ _ Hne2 Ht2 Hn2).
  unfold save_invoice. rewrite Hm2. fold base2.
  split.
  - intros Huser.
    rewrite (insert_invoice_taken base2 d1 Hcasts); [done |].
    apply invoice_number_taken_true.
    eexists id1, _. split; [exact Hrow1 |]. cbn. by rewrite Huser, Hnum.
  - intros Huser.
    assert (Hfree1 : invoice_number_taken d1 None (inv_user_id base2)
                       (inv_invoice_number base2) = false).
    { apply not_true_iff_false. intros (k & e & Hk & Hu & Hn)%invoice_number_taken_true.
      destruct (decide (k = id1)) as [-> | Hne].
      - rewrite Hrow1 in Hk. injection Hk as <-. cbn in Hu. by apply Huser.
      - rewrite (Hother _ Hne) in Hk. apply not_true_iff_false in Hfree.
        apply Hfree, invoice_number_taken_true. by eexists k, e. }
    assert (Hclient1 : client_exists d1 (inv_client_id base2) = true).
    { unfold client_exists in *. by rewrite Hclients. }
    rewrite (insert_invoice_free base2 d1 Hcasts Hfree1 Hclient1 eq_refl).
    set (id2 := fresh (dom (invoices d1))).
    assert (Hnone2' : invoices d1 !! id2 = None)
      by apply not_elem_of_dom, is_fresh.
    assert (Hid : id2 ≠ id1).
    { intros Heq. rewrite Heq, Hrow1 in Hnone2'. discriminate. }
    pose proof (no_items_of_missing_doc invoice_items_table d id2' Hfk Hnone2)
      as HnoA.
    assert (HnoB : Forall (λ r, item_doc r ≠ id2) (invoice_items d1)).
    { rewrite Hitems1. apply Forall_app. split.
      - apply (no_items_of_missing_doc invoice_items_table d id2 Hfk).
        cbn. by rewrite <- (Hother _ Hid).
      - pose proof (stored_rows_doc id1 _ _ (itemsToInsert_doc id1 _) Hall1) as Hr.
        eapply Forall_impl; [exact Hr |]. cbn. by intros r ->. }
    destruct (insert_items_transfer invoice_items_table (if_items f2) id2' id2
                (with_invoices (<[id2' := base2]> (invoices d)) d)
                (with_invoices (<[id2 := base2]> (invoices d1)) d1)
                d2' base2 base2 Hne2 Hitems2)
      as [d2 Hd2]; try done.
    { cbn. apply lookup_insert_eq. }
    { cbn. apply lookup_insert_eq. }
    rewrite Hd2. exists id2, d2.
    apply insert_items_Ok in Hd2 as (rows2 & ds & -> & _ & _ & _ & _ & Hin & Hout).
    cbn in Hin, Hout, ds. cbn.
    eexists _, _. split; [done |]. split; [done |].
    split; [| split].
    + rewrite Hout, lookup_insert_ne, Hrow1; [done | done |].
      by rewrite itemsToInsert_docs.
    + rewrite Hin, lookup_insert_eq; [done |]. by apply itemsToInsert_docs.
    + cbn. by rewrite Hnum.
Qed.

(** C9: take two create forms with the same number, each of which saves on
    the store by itself. Saved one after the other, the second save fails
    with the unique violation of the store when the tenant is the same, and
    the store stays as the first save left it; it goes through, and both rows
    are stored under that number, when the tenants differ. The same holds of
    the invoice form and the invoice number. *)
Theorem same_number_conflicts_within_a_tenant_only :
  (∀ props1 props2 f1 f2 st1 st2 session resend d id1 d1 id2' d2',
     items_reference_documents estimate_items_table d →
     efp_mode props1 = create →
     efp_mode props2 = create →
     ef_estimateNumber f2 = ef_estimateNumber f1 →
     handleSubmit props1 f1 st1 false session resend d = (saved id1, d1) →
     handleSubmit props2 f2 st2 false session resend d = (saved id2', d2') →
     (efp_userId props2 = efp_userId props1 →
        handleSubmit props2 f2 st2 false session resend d1
        = (save_failed unique_violation, d1))
     ∧ (efp_userId props2 ≠ efp_userId props1 →
        ∃ id2 d2 e1 e2,
          handleSubmit props2 f2 st2 false session resend d1 = (saved id2, d2)
          ∧ id2 ≠ id1
          ∧ estimates d2 !! id1 = Some e1
          ∧ estimates d2 !! id2 = Some e2
          ∧ e_user_id e1 = efp_userId props1
          ∧ e_user_id e2 = efp_userId props2
          ∧ e_estimate_number e1 = ef_estimateNumber f1
          ∧ e_estimate_number e2 = ef_estimateNumber f1))
  ∧ (∀ props1 props2 f1 f2 d id1 d1 id2' d2',
       items_reference_documents invoice_items_table d →
       ifp_mode props1 = create →
       ifp_mode props2 = create →
       if_invoiceNumber f2 = if_invoiceNumber f1 →
       InvoiceForm_handleSubmit props1 f1 d = (saved id1, d1) →
       InvoiceForm_handleSubmit props2 f2 d = (saved id2', d2') →
       (ifp_userId props2 = ifp_userId props1 →
          InvoiceForm_handleSubmit props2 f2 d1
          = (save_failed unique_violation, d1))
       ∧ (ifp_userId props2 ≠ ifp_userId props1 →
          ∃ id2 d2 i1 i2,
            InvoiceForm_handleSubmit props2 f2 d1 = (saved id2, d2)
            ∧ id2 ≠ id1
            ∧ invoices d2 !! id1 = Some i1
            ∧ invoices d2 !! id2 = Some i2
            ∧ inv_user_id i1 = ifp_userId props1
            ∧ inv_user_id i2 = ifp_userId props2
            ∧ inv_invoice_number i1 = if_invoiceNumber f1
            ∧ inv_invoice_number i2 = if_invoiceNumber f1)).
Proof.
  split.
  - intros. by eapply estimate_number_per_tenant.
  - intros. by eapply invoice_number_per_tenant.
Qed.

Lemma same_number_conflicts_within_a_tenant_only_witness :
  let d := Example.store 0 in
  let submit user := handleSubmit (Example.new_estimate user) Example.new_form
                       draft false None (λ _, refused) in
  let bill user := InvoiceForm_handleSubmit (Example.new_invoice user) Example.new_invoice_form in
  ((submit Example.tenant d).1 = saved 4
   ∧ (submit Example.other_tenant d).1 = saved 4
   ∧ submit Example.tenant (submit Example.tenant d).2
     = (save_failed unique_violation, (submit Example.tenant d).2)
   ∧ ∃ id2 d2,
       submit Example.other_tenant (submit Example.tenant d).2 = (saved id2, d2)
       ∧ id2 ≠ 4%positive)
  ∧ (bill Example.tenant d).1 = saved 1
  ∧ (bill Example.other_tenant d).1 = saved 1
  ∧ bill Example.tenant (bill Example.tenant d).2
    = (save_failed unique_violation, (bill Example.tenant d).2)
  ∧ ∃ id2 d2 i1 i2,
      bill Example.other_tenant (bill Example.tenant d).2 = (saved id2, d2)
      ∧ id2 ≠ 1%positive
      ∧ invoices d2 !! 1%positive = Some i1
      ∧ invoices d2 !! id2 = Some i2
      ∧ inv_user_id i1 = Example.tenant
      ∧ inv_user_id i2 = Example.other_tenant
      ∧ inv_invoice_number i1 = "INV-000777"
      ∧ inv_invoice_number i2 = "INV-000777".
Proof.
  intros d submit bill.
  assert (Hfk : items_reference_documents estimate_items_table d).
  { repeat constructor. }
  assert (Hfki : items_reference_documents invoice_items_table d).
  { constructor. }
  assert (H1 : submit Example.tenant d = (saved 4, (submit Example.tenant d).2))
    by reflexivity.
  assert (H2 : submit Example.other_tenant d
               = (saved 4, (submit Example.other_tenant d).2)) by reflexivity.
  assert (B1 : bill Example.tenant d = (saved 1, (bill Example.tenant d).2))
    by reflexivity.
  assert (B2 : bill Example.other_tenant d
               = (saved 1, (bill Example.other_tenant d).2)) by reflexivity.
  split; [split; [reflexivity |]; split; [reflexivity |]; split |].
  - exact (proj1 (proj1 same_number_conflicts_within_a_tenant_only
                    (Example.new_estimate Example.tenant)
                    (Example.new_estimate Example.tenant)
                    Example.new_form Example.new_form draft draft None
                    (λ _, refused) d 4%positive _ 4%positive _
                    Hfk eq_refl eq_refl eq_refl H1 H1) eq_refl).
  - destruct (proj2 (proj1 same_number_conflicts_within_a_tenant_only
                       (Example.new_estimate Example.tenant)
                       (Example.new_estimate Example.other_tenant)
                       Example.new_form Example.new_form draft draft None
                       (λ _, refused) d 4%positive _ 4%positive _
                       Hfk eq_refl eq_refl eq_refl H1 H2))
      as (id2 & d2 & _ & _ & Hsub & Hne & _).
    + discriminate.
    + exists id2, d2. split; [exact Hsub | exact Hne].
  - split; [reflexivity |]. split; [reflexivity |]. split.
    + exact (proj1 (proj2 same_number_conflicts_within_a_tenant_only
                      (Example.new_invoice Example.tenant) (Example.new_invoice Example.tenant)
                      Example.new_invoice_form Example.new_invoice_form d 1%positive _
                      1%positive _ Hfki eq_refl eq_refl eq_refl B1 B1) eq_refl).
    + apply (proj2 (proj2 same_number_conflicts_within_a_tenant_only
                      (Example.new_invoice Example.tenant)
                      (Example.new_invoice Example.other_tenant)
                      Example.new_invoice_form Example.new_invoice_form d 1%positive _
                      1%positive _ Hfki eq_refl eq_refl eq_refl B1 B2)).
      discriminate.
Defined.

(** *** The totals of invoices under the handlers *)

Lemma consistent_same_totals d d' :
  invoice_items d' = invoice_items d →
  (∀ k, stored_totals invoice_items_table d' k
        = stored_totals invoice_items_table d k) →
  invoice_totals_consistent d → invoice_totals_consistent d'.
Proof.
  intros Hitems Htot [Hfk Hagree]. split.
  - unfold items_reference_documents in *. cbn [items_of] in *.
    rewrite Hitems. eapply Forall_impl; [exact Hfk |].
    intros r Hr. cbn beta in *. rewrite doc_exists_docs in *.
    apply bool_decide_unpack in Hr. apply bool_decide_pack.
    specialize (Htot (item_doc r)). rewrite !stored_totals_docs in Htot.
    apply (fmap_is_Some (row_totals invoice_items_table)).
    rewrite Htot. by apply fmap_is_Some.
  - intros k rate sub tax tot Hk. cbn [items_of]. rewrite Hitems.
    rewrite Htot in Hk. by apply (Hagree k).
Qed.

Lemma sum_products_filter_other k id rows :
  k ≠ id →
  sum_products k (filter (λ r, item_doc r ≠ id) rows) = sum_products k rows.
Proof.
  intros Hk. unfold sum_products. f_equal.
  induction rows as [| r rows IH]; [done |].
  rewrite !filter_cons. repeat case_decide; try congruence.
  - by rewrite filter_cons_True, IH.
  - by rewrite filter_cons_False.
Qed.

Lemma is_Some_docs_after t (ds : gmap uuid (doc_row t)) d k f :
  (ds !! k = f <$> docs t d !! k ∨ ds !! k = docs t d !! k) →
  is_Some (docs t d !! k) → is_Some (ds !! k).
Proof.
  intros [-> | ->] H; [| done]. by apply fmap_is_Some.
Qed.

Lemma insert_items_consistent inputs d d' :
  items_reference_documents invoice_items_table d →
  (∀ k, k ∉ in_doc <$> inputs → totals_agree invoice_items_table d k) →
  insert_items invoice_items_table inputs d = Ok d' →
  invoice_totals_consistent d'.
Proof.
  intros Hfk Hagree (rows & ds & -> & Hst & _ & _ & Hex & Hin & Hout)%insert_items_Ok.
  pose proof (stored_as_doc _ _ Hst) as Hdocs.
  assert (Hkeys : ∀ k, is_Some (docs invoice_items_table d !! k) → is_Some (ds !! k)).
  { intros k Hk. destruct (decide (k ∈ in_doc <$> inputs)) as [Hi | Hi].
    - rewrite (Hin k Hi). by apply fmap_is_Some.
    - by rewrite (Hout k Hi). }
  split.
  - unfold items_reference_documents.
    rewrite items_of_with_docs, items_of_with_items. apply Forall_app. split.
    + eapply Forall_impl; [exact Hfk |]. intros r Hr. cbn beta in *.
      rewrite doc_exists_docs in *. rewrite docs_with_docs.
      apply bool_decide_pack, Hkeys. by apply bool_decide_unpack in Hr.
    + apply Forall_forall. intros r Hr. rewrite doc_exists_docs, docs_with_docs.
      apply bool_decide_pack, Hkeys.
      assert (Hd : item_doc r ∈ in_doc <$> inputs).
      { rewrite <- Hdocs. by apply list_elem_of_fmap_2. }
      apply list_elem_of_fmap in Hd as (i & -> & Hi).
      rewrite Forall_forall in Hex. by apply Hex.
  - intros k rate sub tax tot.
    rewrite stored_totals_docs, docs_with_docs, items_of_with_docs,
      items_of_with_items.
    destruct (decide (k ∈ in_doc <$> inputs)) as [Hi | Hi].
    + rewrite (Hin k Hi). destruct (docs invoice_items_table d !! k) as [r |];
        [| done]. cbn [fmap option_fmap option_map]. intros Hr.
      apply (inj Some) in Hr. by apply recalculated_row_agrees in Hr.
    + rewrite (Hout k Hi). intros Hk.
      rewrite sum_products_app, (sum_products_none k rows), Z.add_0_r.
      * apply (Hagree k Hi). by rewrite stored_totals_docs.
      * apply Forall_forall. intros r Hr <-. apply Hi. rewrite <- Hdocs.
        by apply list_elem_of_fmap_2.
Qed.

Lemma insert_invoice_consistent i d id d1 :
  invoice_totals_consistent d →
  inv_subtotal i = 0 → inv_tax_amount i = 0 → inv_total i = 0 →
  insert_invoice i d = Ok (id, d1) →
  invoice_totals_consistent d1.
Proof.
  intros [Hfk Hagree] Hsub Htax Htot (_ & Hnew & -> & _)%insert_invoice_Ok.
  split.
  - unfold items_reference_documents in *. cbn [items_of with_invoices invoice_items] in *.
    eapply Forall_impl; [exact Hfk |]. intros r Hr. cbn in *.
    apply bool_decide_unpack in Hr. apply bool_decide_pack.
    rewrite lookup_insert_is_Some. destruct (decide (id = item_doc r)); auto.
  - intros k rate sub tax tot.
    cbn [stored_totals items_of with_invoices invoices invoice_items].
    destruct (decide (k = id)) as [-> | Hk].
    + rewrite lookup_insert_eq. cbn [fmap option_fmap option_map].
      rewrite Hsub, Htax, Htot. intros [= <- <- <- <-].
      rewrite (sum_products_none id (invoice_items d)).
      * by rewrite Z.mul_0_l.
      * by apply (no_items_of_missing_doc invoice_items_table).
    + rewrite lookup_insert_ne by done. apply (Hagree k).
Qed.

Lemma filter_not_by_doc id (rows : list item_row) :
  filter (λ r, ¬ selects (by_doc id) r) rows = filter (λ r, item_doc r ≠ id) rows.
Proof. apply list_filter_iff. intros r. cbn. by rewrite bool_decide_spec. Qed.

Lemma deleted_by_doc id (rows : list item_row) k :
  k ∈ item_doc <$> filter (λ r, selects (by_doc id) r) rows →
  k = id ∧ sum_products id rows = sum_products id rows.
Proof.
  intros (r & -> & [Hr _]%list_elem_of_filter)%list_elem_of_fmap.
  cbn in Hr. by apply bool_decide_unpack in Hr.
Qed.

Lemma none_deleted_by_doc id (rows : list item_row) :
  id ∉ item_doc <$> filter (λ r, selects (by_doc id) r) rows →
  Forall (λ r, item_doc r ≠ id) rows.
Proof.
  intros Hno. apply Forall_forall. intros r Hr Heq. apply Hno.
  apply list_elem_of_fmap. exists r. split; [done |].
  apply list_elem_of_filter. split; [| done]. cbn. by apply bool_decide_pack.
Qed.

Lemma delete_by_doc_consistent id d d' :
  Forall (λ r, item_doc r = id ∨ doc_exists invoice_items_table d (item_doc r))
         (invoice_items d) →
  (∀ k, k ≠ id → totals_agree invoice_items_table d k) →
  (∀ rate sub tax tot,
     stored_totals invoice_items_table d id = Some (rate, sub, tax, tot) →
     sum_products id (invoice_items d) = 0 → sub = 0 ∧ tax = 0 ∧ tot = 0) →
  delete_items invoice_items_table (by_doc id) d = Ok d' →
  invoice_totals_consistent d'.
Proof.
  intros Hfk Hagree Hzero (ds & -> & Hin & Hout)%delete_items_Ok.
  rewrite filter_not_by_doc in *. cbn [items_of] in *.
  assert (Hkept : Forall (λ r, item_doc r ≠ id)
                    (filter (λ r, item_doc r ≠ id) (invoice_items d))).
  { apply Forall_forall. by intros r [Hr _]%list_elem_of_filter. }
  assert (Hother : ∀ k, k ≠ id → ds !! k = invoices d !! k).
  { intros k Hk. apply Hout. by intros [? _]%deleted_by_doc. }
  split.
  - unfold items_reference_documents.
    rewrite items_of_with_docs, items_of_with_items.
    apply Forall_forall. intros r [Hr Hel]%list_elem_of_filter.
    rewrite Forall_forall in Hfk. destruct (Hfk r Hel) as [? | Hex]; [done |].
    rewrite doc_exists_docs, docs_with_docs in *. by rewrite (Hother _ Hr).
  - intros k rate sub tax tot.
    rewrite stored_totals_docs, docs_with_docs, items_of_with_docs,
      items_of_with_items.
    destruct (decide (k = id)) as [-> | Hk].
    + destruct (decide (id ∈ item_doc <$> filter (λ r, selects (by_doc id) r)
                                            (invoice_items d))) as [Hi | Hi].
      * rewrite (Hin id Hi). destruct (docs invoice_items_table d !! id) as [r |];
          [| done]. cbn [fmap option_fmap option_map]. intros Hr.
        apply (inj Some) in Hr.
        by apply (recalculated_row_agrees invoice_items_table) in Hr.
      * rewrite (Hout id Hi). intros Hs.
        rewrite (sum_products_none id _ Hkept).
        destruct (Hzero rate sub tax tot) as (-> & -> & ->).
        -- by rewrite stored_totals_docs.
        -- by apply sum_products_none, none_deleted_by_doc.
        -- by rewrite Z.mul_0_l.
    + rewrite (Hother k Hk), sum_products_filter_other by done.
      intros Hs. apply (Hagree k Hk). by rewrite stored_totals_docs.
Qed.

Lemma update_invoice_Ok id set d d1 :
  update_invoice id set d = Ok d1 →
  d1 = with_invoices (alter set id (invoices d)) d.
Proof.
  unfold update_invoice. destruct (invoices d !! id) as [i |] eqn:Hi.
  - intros H. cbv zeta in H. inv_result H. subst d1. f_equal.
    apply map_eq. intros k. destruct (decide (k = id)) as [-> | Hk].
    + by rewrite lookup_insert_eq, lookup_alter_eq, Hi.
    + by rewrite lookup_insert_ne, lookup_alter_ne.
  - intros [= <-]. destruct d. unfold with_invoices. cbn in *. f_equal.
    apply map_eq. intros k. destruct (decide (k = id)) as [-> | Hk].
    + by rewrite lookup_alter_eq, Hi.
    + by rewrite lookup_alter_ne.
Qed.

Lemma update_estimate_Ok id set d d1 :
  update_estimate id set d = Ok d1 →
  d1 = with_estimates (alter set id (estimates d)) d.
Proof.
  unfold update_estimate. destruct (estimates d !! id) as [e |] eqn:He.
  - intros H. cbv zeta in H. inv_result H. subst d1. f_equal.
    apply map_eq. intros k. destruct (decide (k = id)) as [-> | Hk].
    + by rewrite lookup_insert_eq, lookup_alter_eq, He.
    + by rewrite lookup_insert_ne, lookup_alter_ne.
  - intros [= <-]. destruct d. unfold with_estimates. cbn in *. f_equal.
    apply map_eq. intros k. destruct (decide (k = id)) as [-> | Hk].
    + by rewrite lookup_alter_eq, He.
    + by rewrite lookup_alter_ne.
Qed.

Lemma alter_same_totals (f : invoice → invoice) id d :
  (∀ i, row_totals invoice_items_table (f i) = row_totals invoice_items_table i) →
  invoice_totals_consistent d →
  invoice_totals_consistent (with_invoices (alter f id (invoices d)) d).
Proof.
  intros Hf. apply consistent_same_totals; [done |].
  intros k. cbn [stored_totals with_invoices invoices].
  destruct (decide (k = id)) as [-> | Hk].
  - rewrite lookup_alter_eq. destruct (invoices d !! id) as [i |]; [| done].
    cbn. f_equal. apply (Hf i).
  - by rewrite lookup_alter_ne.
Qed.

Lemma fmap_same_totals (f : invoice → invoice) d d' :
  (∀ i, row_totals invoice_items_table (f i) = row_totals invoice_items_table i) →
  invoices d' = f <$> invoices d →
  invoice_items d' = invoice_items d →
  invoice_totals_consistent d → invoice_totals_consistent d'.
Proof.
  intros Hf Hi Hitems. apply consistent_same_totals; [done |].
  intros k. cbn [stored_totals]. rewrite Hi, lookup_fmap.
  destruct (invoices d !! k) as [i |]; [| done]. cbn. f_equal. apply (Hf i).
Qed.

Lemma same_invoices_consistent d d' :
  invoices d' = invoices d →
  invoice_items d' = invoice_items d →
  invoice_totals_consistent d → invoice_totals_consistent d'.
Proof.
  intros Hi Hitems. apply consistent_same_totals; [done |].
  intros k. cbn [stored_totals]. by rewrite Hi.
Qed.

Lemma save_invoice_consistent props f d :
  invoice_totals_consistent d →
  invoice_totals_consistent (save_invoice props f d).2.
Proof.
  intros Hd. unfold save_invoice. destruct (ifp_mode props).
  - destruct (insert_invoice _ d) as [[id d1] | e] eqn:Hins; [| done].
    assert (Hd1 : invoice_totals_consistent d1).
    { by apply (insert_invoice_consistent _ d id d1 Hd) in Hins. }
    destruct (insert_items _ _ d1) as [d2 | e] eqn:Hitems; [| done].
    cbn [snd]. destruct Hd1 as [Hfk Hagree].
    eapply insert_items_consistent; [exact Hfk | | exact Hitems].
    intros k _. apply Hagree.
  - cbv zeta. generalize (ifp_initial_id props). intros id.
    destruct (update_invoice _ _ d) as [d1 | e] eqn:Hupd; [| done].
    apply update_invoice_Ok in Hupd.
    destruct (delete_by_doc_Ok invoice_items_table id d1) as (ds & Hdel & _).
    assert (Hd2 : invoice_totals_consistent
                    (unchecked (delete_items invoice_items_table (by_doc id) d1) d1)).
    { rewrite Hdel. cbn [unchecked]. destruct Hd as [Hfk Hagree].
      eapply (delete_by_doc_consistent id d1); [| | | exact Hdel].
      - subst d1. cbn [invoice_items with_invoices].
        eapply Forall_impl; [exact Hfk |]. intros r Hr. right.
        cbn [doc_exists with_invoices invoices] in *.
        apply bool_decide_unpack in Hr. apply bool_decide_pack.
        destruct (decide (item_doc r = id)) as [<- | Hk].
        + rewrite lookup_alter_eq. by apply fmap_is_Some.
        + by rewrite lookup_alter_ne.
      - intros k Hk rate sub tax tot. subst d1.
        cbn [stored_totals items_of with_invoices invoices invoice_items].
        rewrite lookup_alter_ne by done. apply (Hagree k).
      - intros rate sub tax tot. subst d1.
        cbn [stored_totals items_of with_invoices invoices invoice_items].
        rewrite lookup_alter_eq.
        destruct (invoices d !! id) as [i |] eqn:Hi; [| done].
        cbn. intros [= <- <- <- <-] Hsum.
        destruct (Hagree id (inv_tax_rate i) (inv_subtotal i) (inv_tax_amount i)
                    (inv_total i)) as (Hs & Ht & Hto).
        { cbn. by rewrite Hi. }
        cbn [items_of] in Hs. rewrite Hsum in Hs.
        rewrite Hs in Ht. rewrite Hto, Ht, Hs. done. }
    destruct (bool_decide _); [| done].
    destruct (insert_items _ _ _) as [d3 | e] eqn:Hitems; [| done].
    cbn [snd]. destruct Hd2 as [Hfk2 Hagree2].
    eapply insert_items_consistent; [exact Hfk2 | | exact Hitems].
    intros k _. apply Hagree2.
Qed.

(** Statements on estimates and on their line items leave the invoices
    and the invoice line items as they are. *)
Lemma same_invoices_refl d : same_invoices d d.
Proof. done. Qed.

Lemma same_invoices_trans d1 d2 d3 :
  same_invoices d1 d2 → same_invoices d2 d3 → same_invoices d1 d3.
Proof. intros [H1 H2] [H3 H4]. split; congruence. Qed.

Lemma insert_estimate_items_same_invoices inputs d d' :
  insert_items estimate_items_table inputs d = Ok d' → same_invoices d d'.
Proof. by intros (rows & ds & -> & _)%insert_items_Ok. Qed.

Lemma delete_estimate_items_same_invoices f d d' :
  delete_items estimate_items_table f d = Ok d' → same_invoices d d'.
Proof. by intros (ds & -> & _)%delete_items_Ok. Qed.

Lemma sendEstimateAction_same_invoices session resend id d :
  same_invoices d (sendEstimateAction session resend id d).2.
Proof.
  destruct (sendEstimateAction session resend id d) as [[| why] d'] eqn:H.
  - by apply sendEstimateAction_success in H as (_ & ->).
  - by apply sendEstimateAction_failure in H as ->.
Qed.

Lemma save_estimate_same_invoices props f st sendEmail d :
  same_invoices d (save_estimate props f st sendEmail d).2.
Proof.
  unfold save_estimate. destruct (efp_mode props).
  - destruct (insert_estimate _ d) as [[id d1] | e] eqn:Hins; [| done].
    apply insert_estimate_Ok in Hins as (_ & _ & -> & _).
    destruct (insert_items _ _ _) as [d2 | e] eqn:Hitems; [| done].
    by apply insert_estimate_items_same_invoices in Hitems.
  - cbv zeta. generalize (efp_initial_id props). intros id.
    destruct (update_estimate _ _ d) as [d1 | e] eqn:Hupd; [| done].
    apply update_estimate_Ok in Hupd as ->.
    match goal with
    | |- context [unchecked (delete_items ?t ?f ?d1) ?d1] =>
        assert (Hdel : same_invoices d (unchecked (delete_items t f d1) d1))
    end.
    { destruct (delete_items _ _ _) as [d2 | e] eqn:Hdel; [| done].
      by apply delete_estimate_items_same_invoices in Hdel. }
    destruct (bool_decide _); [| done].
    destruct (insert_items _ _ _) as [d3 | e] eqn:Hitems; [| done].
    apply insert_estimate_items_same_invoices in Hitems.
    by eapply same_invoices_trans.
Qed.

Lemma handleSubmit_same_invoices props f st sendEmail session resend d :
  same_invoices d (handleSubmit props f st sendEmail session resend d).2.
Proof.
  unfold handleSubmit. repeat (case_match; [done |]).
  pose proof (save_estimate_same_invoices props f st sendEmail d) as Hsave.
  destruct (save_estimate props f st sendEmail d) as [[id | e] d1]; [| done].
  destruct sendEmail; [| done].
  pose proof (sendEstimateAction_same_invoices session resend id d1) as Hsend.
  destruct (sendEstimateAction session resend id d1) as [[| why] d2];
    by eapply same_invoices_trans.
Qed.

Lemma delete_estimate_consistent id d d' :
  delete_estimate id d = Ok d' →
  invoice_totals_consistent d → invoice_totals_consistent d'.
Proof.
  unfold delete_estimate. destruct (estimates d !! id); [| by intros [= <-]].
  intros [Hi Hitems]%delete_estimate_items_same_invoices.
  apply (fmap_same_totals (source_estimate_set_null id)); [| done | done].
  intros i. unfold source_estimate_set_null. by case_decide.
Qed.

Lemma delete_invoice_consistent id d d' :
  delete_invoice id d = Ok d' →
  invoice_totals_consistent d → invoice_totals_consistent d'.
Proof.
  unfold delete_invoice. destruct (invoices d !! id) eqn:Hid; [| by intros [= <-]].
  intros Hdel [Hfk Hagree].
  eapply (delete_by_doc_consistent id); [| | | exact Hdel].
  - cbn [invoice_items with_invoices].
    eapply Forall_impl; [exact Hfk |]. intros r Hr.
    cbn [doc_exists with_invoices invoices] in *.
    destruct (decide (item_doc r = id)) as [? | Hk]; [by left | right].
    apply bool_decide_unpack in Hr. apply bool_decide_pack.
    by rewrite lookup_delete_ne.
  - intros k Hk rate sub tax tot.
    cbn [stored_totals items_of with_invoices invoices invoice_items].
    rewrite lookup_delete_ne by done. apply (Hagree k).
  - intros rate sub tax tot.
    cbn [stored_totals items_of with_invoices invoices invoice_items].
    by rewrite lookup_delete_eq.
Qed.

Lemma delete_client_consistent id d :
  invoice_totals_consistent d → invoice_totals_consistent (delete_client id d).
Proof.
  unfold delete_client. destruct (clients d !! id); [| done].
  apply (fmap_same_totals (invoice_client_set_null id)); [| done | done].
  intros i. unfold invoice_client_set_null. by case_decide.
Qed.

Lemma handleConvertToInvoice_consistent userId v t_number t_issue t_due d :
  invoice_totals_consistent d →
  invoice_totals_consistent
    (handleConvertToInvoice userId v t_number t_issue t_due d).2.
Proof.
  intros Hd. unfold handleConvertToInvoice.
  destruct (insert_invoice _ d) as [[id d1] | e] eqn:Hins; [| done].
  apply (insert_invoice_consistent _ d id d1 Hd) in Hins as Hd1; [| done ..].
  cbv zeta. destruct (bool_decide _); [| done].
  destruct (insert_items _ _ d1) as [d2 | e] eqn:Hitems; [| done].
  destruct Hd1 as [Hfk Hagree].
  eapply insert_items_consistent; [exact Hfk | | exact Hitems].
  intros k _. apply Hagree.
Qed.

Lemma handle_consistent r d :
  invoice_totals_consistent d → invoice_totals_consistent (handle r d).
Proof.
  intros Hd. destruct r; cbn [handle].
  - destruct (handleSubmit_same_invoices props f saveStatus sendEmail session
                resend d) as [Hi Hitems].
    by eapply same_invoices_consistent.
  - unfold InvoiceForm_handleSubmit. repeat (case_match; [done |]).
    pose proof (save_invoice_consistent props f d Hd) as Hsave.
    by destruct (save_invoice props f d) as [[id | e] d1].
  - unfold handleSendToClient. case_match; [| done]. cbn [snd].
    destruct (sendEstimateAction_same_invoices session resend (ev_id v) d)
      as [Hi Hitems].
    by eapply same_invoices_consistent.
  - by eapply same_invoices_consistent.
  - by eapply same_invoices_consistent.
  - by apply handleConvertToInvoice_consistent.
  - unfold EstimateDetail_handleDelete. destruct confirmed; [| done].
    destruct (delete_estimate id d) as [d' | e] eqn:Hdel; [| done].
    by eapply delete_estimate_consistent.
  - by apply alter_same_totals.
  - by apply alter_same_totals.
  - unfold InvoiceDetail_handleDelete. destruct confirmed; [| done].
    destruct (delete_invoice id d) as [d' | e] eqn:Hdel; [| done].
    by eapply delete_invoice_consistent.
  - by apply alter_same_totals.
  - unfold ClientList_handleDelete. destruct confirmed; [| done].
    by apply delete_client_consistent.
Qed.

(** *** Deleting an estimate, an invoice, a client *)

(** The row triggers of a cascade find no document to update. *)
Lemma fire_no_doc t tgs id d :
  Forall (λ tg, coalesce_doc tg = Some id) tgs →
  docs t d !! id = None →
  Forall (λ r, item_doc r ≠ id) (items_of t d) →
  fire t tgs d = Ok d.
Proof.
  intros Htgs Hid Hnone. induction Htgs as [| tg tgs Htg _ IH]; [done |].
  cbn [fire].
  assert (Hone : after_row_trigger t tg d = Ok d).
  { destruct t; cbn [after_row_trigger docs items_of doc_row] in *;
      unfold recalculate_estimate_totals, recalculate_invoice_totals;
      rewrite Htg, (sum_products_none _ _ Hnone), Hid; reflexivity. }
  rewrite Hone. exact IH.
Qed.

Lemma cascade_delete t id d :
  docs t d !! id = None →
  delete_items t (by_doc id) d
  = Ok (with_items t (filter (λ r, item_doc r ≠ id) (items_of t d)) d).
Proof.
  intros Hid. unfold delete_items. rewrite filter_not_by_doc.
  apply (fire_no_doc _ _ id).
  - rewrite Forall_fmap. apply Forall_forall.
    intros r [Hr _]%list_elem_of_filter. cbn in *.
    by apply bool_decide_unpack in Hr as ->.
  - by rewrite docs_with_items.
  - rewrite items_of_with_items. apply Forall_forall.
    by intros r [Hr _]%list_elem_of_filter.
Qed.

(** Deleting an estimate from its detail page always goes through: the
    estimate and its line items are gone, every other estimate and every
    invoice stays, and the invoices made from it lose their
    [source_estimate_id] and nothing else. *)
Theorem delete_estimate_cascades id d e :
  estimates d !! id = Some e →
  ∃ d', EstimateDetail_handleDelete true id d = (deleted, d')
    ∧ EstimateDetail_handleDelete false id d = (not_confirmed, d)
    ∧ estimates d' !! id = None
    ∧ EstimatePage id d' = None
    ∧ (∀ k, k ≠ id → estimates d' !! k = estimates d !! k)
    ∧ estimate_items d' = filter (λ r, item_doc r ≠ id) (estimate_items d)
    ∧ (∀ k, invoices d' !! k = source_estimate_set_null id <$> invoices d !! k)
    ∧ (∀ k i', invoices d' !! k = Some i' →
         inv_source_estimate_id i' ≠ Some id
         ∧ ∃ i, invoices d !! k = Some i
              ∧ invoice_set_source_estimate_id (inv_source_estimate_id i) i' = i)
    ∧ invoice_items d' = invoice_items d
    ∧ clients d' = clients d.
Proof.
  intros He. unfold EstimateDetail_handleDelete, delete_estimate. rewrite He.
  rewrite (cascade_delete estimate_items_table); [| apply lookup_delete_eq].
  eexists. split; [reflexivity |]. split; [reflexivity |].
  cbn [with_items with_invoices with_estimates items_of estimates estimate_items
         invoices invoice_items clients].
  split; [apply lookup_delete_eq |].
  split; [unfold EstimatePage; cbn [estimates]; by rewrite lookup_delete_eq |].
  split; [intros k Hk; by apply lookup_delete_ne |].
  split; [done |].
  split; [intros k; apply lookup_fmap |].
  split; [| done].
  intros k i'. rewrite lookup_fmap.
  destruct (invoices d !! k) as [i |]; [| done]. cbn.
  intros [= <-]. unfold source_estimate_set_null.
  case_decide as Hs; cbn.
  - split; [done |]. exists i. split; [done |].
    destruct i; cbn in *. by rewrite Hs.
  - split; [done |]. exists i. split; [done |]. by destruct i.
Qed.

Lemma delete_estimate_cascades_witness :
  let d := (handleConvertToInvoice Example.tenant Example.quote Example.now
              Example.now Example.now (Example.store 0)).2 in
  estimates d !! 2%positive = Some Example.deck
  ∧ (inv_source_estimate_id <$> invoices d !! 1%positive) = Some (Some 2%positive)
  ∧ ∃ d', EstimateDetail_handleDelete true 2 d = (deleted, d')
      ∧ estimates d' !! 2%positive = None
      ∧ estimate_items d' = []
      ∧ (inv_source_estimate_id <$> invoices d' !! 1%positive) = Some None
      ∧ (inv_total <$> invoices d' !! 1%positive) = Some 75600
      ∧ length (invoice_items d') = 2%nat.
Proof.
  intros d.
  destruct (delete_estimate_cascades 2 d Example.deck eq_refl)
    as (d' & Hdel & _ & Hgone & _ & _ & Hitems & Hinv & _ & Hii & _).
  split; [reflexivity |]. split; [reflexivity |].
  exists d'. split; [exact Hdel |]. split; [exact Hgone |].
  split; [rewrite Hitems; reflexivity |].
  split; [rewrite Hinv; reflexivity |].
  split; [rewrite Hinv; reflexivity |].
  rewrite Hii. reflexivity.
Defined.

(** Deleting an invoice from its detail page always goes through: the
    invoice and its line items are gone; the other invoices and their line
    items, the estimates (the one it was made from too) and the clients stay
    as they are. *)
Theorem delete_invoice_cascades id d i :
  invoices d !! id = Some i →
  ∃ d', InvoiceDetail_handleDelete true id d = (deleted, d')
    ∧ InvoiceDetail_handleDelete false id d = (not_confirmed, d)
    ∧ invoices d' !! id = None
    ∧ (∀ k, k ≠ id → invoices d' !! k = invoices d !! k)
    ∧ invoice_items d' = filter (λ r, item_doc r ≠ id) (invoice_items d)
    ∧ (∀ k, k ≠ id →
         filter (λ r, item_doc r = k) (invoice_items d')
         = filter (λ r, item_doc r = k) (invoice_items d))
    ∧ estimates d' = estimates d
    ∧ estimate_items d' = estimate_items d
    ∧ clients d' = clients d.
Proof.
  intros Hi. unfold InvoiceDetail_handleDelete, delete_invoice. rewrite Hi.
  rewrite (cascade_delete invoice_items_table); [| apply lookup_delete_eq].
  eexists. split; [reflexivity |]. split; [reflexivity |].
  cbn [with_items with_invoices items_of estimates estimate_items
         invoices invoice_items clients].
  split; [apply lookup_delete_eq |].
  split; [intros k Hk; by apply lookup_delete_ne |].
  split; [done |].
  split; [| done].
  intros k Hk. rewrite list_filter_filter. apply list_filter_iff.
  intros r. split; [tauto | intros Hr; split; [done | congruence]].
Qed.

Lemma delete_invoice_cascades_witness :
  let d := Example.billing in
  invoices d !! 4%positive = Some Example.bill
  ∧ length (invoice_items d) = 1%nat
  ∧ ∃ d', InvoiceDetail_handleDelete true 4 d = (deleted, d')
      ∧ invoices d' !! 4%positive = None
      ∧ invoice_items d' = [].
Proof.
  intros d.
  destruct (delete_invoice_cascades 4 d Example.bill eq_refl)
    as (d' & Hdel & _ & Hgone & _ & Hitems & _).
  split; [reflexivity |]. split; [reflexivity |].
  exists d'. split; [exact Hdel |]. split; [exact Hgone |].
  rewrite Hitems. reflexivity.
Defined.

(** Deleting a client keeps the client's estimates and invoices, with
    [client_id] cleared and nothing else changed; such an estimate can no
    longer be sent: the send action answers that the client has no email
    address and leaves the store as it is. *)
Theorem delete_client_keeps_documents id prev d c :
  clients d !! id = Some c →
  let r := ClientList_handleDelete true id prev d in
  r.1.1 = deleted
  ∧ Forall (λ p, p.1 ≠ id) r.1.2
  ∧ clients r.2 !! id = None
  ∧ (∀ k, k ≠ id → clients r.2 !! k = clients d !! k)
  ∧ (∀ k, estimates r.2 !! k = estimate_client_set_null id <$> estimates d !! k)
  ∧ (∀ k, invoices r.2 !! k = invoice_client_set_null id <$> invoices d !! k)
  ∧ estimate_items r.2 = estimate_items d
  ∧ invoice_items r.2 = invoice_items d
  ∧ (∀ k e, estimates d !! k = Some e → e_client_id e = Some id →
       estimates r.2 !! k = Some (estimate_set_client_id None e)
       ∧ ∀ user resend,
           sendEstimateAction (Some user) resend k r.2
           = (failure Client_has_no_email, r.2))
  ∧ (∀ k e, estimates d !! k = Some e → e_client_id e ≠ Some id →
       estimates r.2 !! k = Some e).
Proof.
  intros Hc r. subst r. unfold ClientList_handleDelete, delete_client.
  rewrite Hc. cbn [fst snd clients estimates invoices estimate_items invoice_items].
  split; [done |].
  split; [apply Forall_forall; by intros p [Hp _]%list_elem_of_filter |].
  split; [apply lookup_delete_eq |].
  split; [intros k Hk; by apply lookup_delete_ne |].
  split; [intros k; apply lookup_fmap |].
  split; [intros k; apply lookup_fmap |].
  split; [done |]. split; [done |]. split.
  - intros k e He Hcl.
    assert (Hrow : (estimate_client_set_null id <$> estimates d) !! k
                   = Some (estimate_set_client_id None e)).
    { rewrite lookup_fmap, He. cbn. unfold estimate_client_set_null.
      by rewrite decide_True. }
    split; [exact Hrow |]. intros user resend.
    unfold sendEstimateAction. cbn [estimates clients]. by rewrite Hrow.
  - intros k e He Hcl. rewrite lookup_fmap, He. cbn.
    unfold estimate_client_set_null. by rewrite decide_False.
Qed.

Lemma delete_client_keeps_documents_witness :
  let d := Example.store 0 in
  let r := ClientList_handleDelete true 1 [(1%positive, Example.ann)] d in
  clients d !! 1%positive = Some Example.ann
  ∧ (sendEstimateAction (Some Example.tenant) (λ _, delivered) 2 d).1 = success
  ∧ r.1.2 = []
  ∧ estimates r.2 !! 2%positive
    = Some (estimate_set_client_id None Example.deck)
  ∧ sendEstimateAction (Some Example.tenant) (λ _, delivered) 2 r.2
    = (failure Client_has_no_email, r.2).
Proof.
  intros d r.
  destruct (delete_client_keeps_documents 1 [(1%positive, Example.ann)] d
              Example.ann eq_refl)
    as (_ & _ & _ & _ & _ & _ & _ & _ & Hsend & _).
  destruct (Hsend 2%positive Example.deck eq_refl eq_refl) as [Hrow Hfail].
  split; [reflexivity |]. split; [reflexivity |]. split; [reflexivity |].
  split; [exact Hrow |]. exact (Hfail Example.tenant (λ _, delivered)).
Defined.

(** Whatever the handlers of the client are asked to do, and in whatever
    order, with whatever props and component state, and whether their
    statements succeed or fail: every invoice line item keeps belonging to an
    invoice, and the stored totals of every invoice stay those of its line
    items. (A line item moved by SQL is outside: no handler moves one.) *)
Theorem handlers_keep_invoice_totals rs d :
  invoice_totals_consistent d → invoice_totals_consistent (run rs d).
Proof.
  revert d. induction rs as [| r rs IH]; intros d Hd; [done |].
  cbn [run foldl]. by apply IH, handle_consistent.
Qed.

Lemma handlers_keep_invoice_totals_witness :
  let d := run Scenario.invoicing Scenario.empty_store in
  invoice_totals_consistent Scenario.empty_store
  ∧ stored_totals invoice_items_table d 1 = Some (1000, 70000, 7000, 77000)
  ∧ (inv_status <$> invoices d !! 1%positive) = Some paid
  ∧ invoice_totals_consistent d.
Proof.
  intros d.
  assert (Hempty : invoice_totals_consistent Scenario.empty_store).
  { split; [by constructor |]. intros k rate sub tax tot H. discriminate H. }
  split; [exact Hempty |]. split; [reflexivity |]. split; [reflexivity |].
  exact (handlers_keep_invoice_totals Scenario.invoicing Scenario.empty_store Hempty).
Defined.

(** *** Document numbers *)

Section Document_numbers.

Import Js.

Lemma digits_S fuel n acc :
  digits (S fuel) n acc
  = if n `div` 10 =? 0 then String (digit_char (n `mod` 10)) acc
    else digits fuel (n `div` 10) (String (digit_char (n `mod` 10)) acc).
Proof. reflexivity. Qed.

Lemma string_app_cons x (a b : string) : String x a +:+ b = String x (a +:+ b).
Proof. reflexivity. Qed.

Lemma string_app_assoc (a b c : string) : (a +:+ b) +:+ c = a +:+ (b +:+ c).
Proof.
  induction a as [| x a IH]; [done |]. by rewrite !string_app_cons, IH.
Qed.

Lemma string_app_length (a b : string) :
  String.length (a +:+ b) = (String.length a + String.length b)%nat.
Proof.
  induction a as [| x a IH]; [done |]. rewrite string_app_cons. cbn.
  by rewrite IH.
Qed.

Lemma digits_acc fuel n acc :
  digits fuel n acc = digits fuel n "" +:+ acc.
Proof.
  revert n acc. induction fuel as [| fuel IH]; intros n acc; [done |].
  rewrite !digits_S. destruct (n `div` 10 =? 0); [done |].
  rewrite (IH _ (String _ acc)), (IH _ (String _ "")).
  by rewrite string_app_assoc.
Qed.

Lemma drop_chars_app p t : drop_chars (String.length p) (p +:+ t) = t.
Proof.
  induction p as [| c p IH]; [by destruct t |]. rewrite string_app_cons. exact IH.
Qed.

Lemma slice_last_app p t :
  String.length t = 6%nat → slice_last 6 (p +:+ t) = t.
Proof.
  intros Ht. unfold slice_last.
  rewrite string_app_length, Ht, Nat.add_sub. apply drop_chars_app.
Qed.

Lemma digits_div fuel n k acc :
  0 < k →
  digits (S fuel) (n `div` k) acc
  = if n `div` (k * 10) =? 0
    then String (digit_char ((n `div` k) `mod` 10)) acc
    else digits fuel (n `div` (k * 10))
           (String (digit_char ((n `div` k) `mod` 10)) acc).
Proof. intros Hk. rewrite digits_S, Z.div_div by lia. done. Qed.

Lemma toString_last_six n :
  100000 ≤ n → slice_last 6 (toString n) = last_six n.
Proof.
  intros Hn. unfold toString.
  assert (Hlog : 16 ≤ Z.log2 n).
  { apply Z.log2_le_pow2; lia. }
  destruct (Z.to_nat (Z.log2 n)) as [| [| [| [| [| [| fuel]]]]]] eqn:Hf; try lia.
  assert (H1 : (n `div` 10 =? 0) = false)
    by (apply Z.eqb_neq; Z.to_euclidean_division_equations; lia).
  assert (H2 : (n `div` 100 =? 0) = false)
    by (apply Z.eqb_neq; Z.to_euclidean_division_equations; lia).
  assert (H3 : (n `div` 1000 =? 0) = false)
    by (apply Z.eqb_neq; Z.to_euclidean_division_equations; lia).
  assert (H4 : (n `div` 10000 =? 0) = false)
    by (apply Z.eqb_neq; Z.to_euclidean_division_equations; lia).
  assert (H5 : (n `div` 100000 =? 0) = false)
    by (apply Z.eqb_neq; Z.to_euclidean_division_equations; lia).
  rewrite digits_S, H1.
  rewrite (digits_div _ n 10) by lia. change (10 * 10) with 100. rewrite H2.
  rewrite (digits_div _ n 100) by lia. change (100 * 10) with 1000. rewrite H3.
  rewrite (digits_div _ n 1000) by lia. change (1000 * 10) with 10000. rewrite H4.
  rewrite (digits_div _ n 10000) by lia. change (10000 * 10) with 100000.
  rewrite H5.
  rewrite (digits_div _ n 100000) by lia. change (100000 * 10) with 1000000.
  fold (last_six n).
  destruct (n `div` 1000000 =? 0).
  - by apply (slice_last_app "" (last_six n)).
  - rewrite digits_acc. by apply slice_last_app.
Qed.

Lemma last_six_mod n m :
  0 ≤ n → 0 ≤ m →
  n `mod` 1000000 = m `mod` 1000000 → last_six n = last_six m.
Proof.
  intros Hn Hm H.
  assert (E5 : (n `div` 100000) `mod` 10 = (m `div` 100000) `mod` 10)
    by (Z.to_euclidean_division_equations; lia).
  assert (E4 : (n `div` 10000) `mod` 10 = (m `div` 10000) `mod` 10)
    by (Z.to_euclidean_division_equations; lia).
  assert (E3 : (n `div` 1000) `mod` 10 = (m `div` 1000) `mod` 10)
    by (Z.to_euclidean_division_equations; lia).
  assert (E2 : (n `div` 100) `mod` 10 = (m `div` 100) `mod` 10)
    by (Z.to_euclidean_division_equations; lia).
  assert (E1 : (n `div` 10) `mod` 10 = (m `div` 10) `mod` 10)
    by (Z.to_euclidean_division_equations; lia).
  assert (E0 : n `mod` 10 = m `mod` 10)
    by (Z.to_euclidean_division_equations; lia).
  unfold last_six. by rewrite E5, E4, E3, E2, E1, E0.
Qed.

Lemma digit_char_inj a b :
  0 ≤ a < 10 → 0 ≤ b < 10 → digit_char a = digit_char b → a = b.
Proof.
  intros Ha Hb H. apply (f_equal nat_of_ascii) in H. unfold digit_char in H.
  rewrite !nat_ascii_embedding in H by lia. lia.
Qed.

Lemma last_six_inj n m :
  0 ≤ n → 0 ≤ m →
  last_six n = last_six m → n `mod` 1000000 = m `mod` 1000000.
Proof.
  intros Hn Hm H. unfold last_six in H.
  injection H as E5 E4 E3 E2 E1 E0.
  apply digit_char_inj in E5, E4, E3, E2, E1, E0;
    Z.to_euclidean_division_equations; lia.
Qed.

End Document_numbers.

Lemma document_number_eq_iff prefix t1 t2 :
  100000 ≤ t1 → 100000 ≤ t2 →
  document_number prefix t1 = document_number prefix t2
  ↔ t1 `mod` 1000000 = t2 `mod` 1000000.
Proof.
  intros H1 H2. unfold document_number.
  rewrite !toString_last_six by done. split.
  - intros H. apply (inj (append prefix)), (inj (append "-")) in H.
    apply last_six_inj; [lia | lia | done].
  - intros H. by rewrite (last_six_mod t1 t2) by (lia || done).
Qed.

(** The number of a new estimate or invoice, [EST-] or [INV-] and the last
    six digits of the clock in milliseconds, is the same for two readings of
    the clock exactly when they differ by a multiple of 1,000,000 ms: the
    numbers repeat every 1000 seconds, and within 1000 seconds two different
    milliseconds give two different numbers. *)
Theorem document_number_repeats prefix t1 t2 :
  100000 ≤ t1 → 100000 ≤ t2 →
  document_number prefix t1 = document_number prefix t2
  ↔ t1 `mod` 1000000 = t2 `mod` 1000000.
Proof. apply document_number_eq_iff. Qed.

Lemma document_number_repeats_witness :
  let t := Example.now in
  100000 ≤ t ∧ 100000 ≤ t + 1000000
  ∧ t `mod` 1000000 = (t + 1000000) `mod` 1000000
  ∧ document_number "INV" t = "INV-600000"
  ∧ document_number "INV" t = document_number "INV" (t + 1000000).
Proof.
  intros t.
  assert (H1 : 100000 ≤ t) by (unfold t, Example.now; lia).
  assert (H2 : 100000 ≤ t + 1000000) by (unfold t, Example.now; lia).
  assert (Hm : t `mod` 1000000 = (t + 1000000) `mod` 1000000) by reflexivity.
  split; [exact H1 |]. split; [exact H2 |]. split; [exact Hm |].
  split; [reflexivity |].
  exact (proj2 (document_number_repeats "INV" t (t + 1000000) H1 H2) Hm).
Defined.

(** *** Converting an estimate twice *)

Lemma copied_items_itemsToInsert id items :
  copied_items id items = itemsToInsert id (line_item_of <$> items).
Proof. unfold copied_items, itemsToInsert. by rewrite imap_fmap. Qed.

Lemma insert_invoice_succeeds i d :
  invoice_casts i = Ok tt →
  invoice_number_taken d None (inv_user_id i) (inv_invoice_number i) = false →
  client_exists d (inv_client_id i) = true →
  (∀ s, inv_source_estimate_id i = Some s → is_Some (estimates d !! s)) →
  insert_invoice i d
  = Ok (fresh (dom (invoices d)),
        with_invoices (<[fresh (dom (invoices d)) := i]> (invoices d)) d).
Proof.
  intros Hc Hn Hcl Hs. unfold insert_invoice. rewrite Hc, Hn, Hcl. cbn.
  destruct (inv_source_estimate_id i) as [s |]; [| done].
  by rewrite bool_decide_eq_true_2 by (by apply Hs).
Qed.

Lemma length_copied_items id items :
  length (copied_items id items) = length items.
Proof. apply length_imap. Qed.

(** The two statements of a conversion that went through. *)
Lemma handleConvertToInvoice_statements userId v t_number t_issue t_due d id d' :
  handleConvertToInvoice userId v t_number t_issue t_due d = (converted id, d') →
  let inv := invoice_of_estimate userId v t_number t_issue t_due in
  let d1 := with_invoices (<[id := inv]> (invoices d)) d in
  insert_invoice inv d = Ok (id, d1)
  ∧ id = fresh (dom (invoices d))
  ∧ invoices d !! id = None
  ∧ (ev_items v = [] ∧ d' = d1
     ∨ ev_items v ≠ []
       ∧ insert_items invoice_items_table (copied_items id (ev_items v)) d1 = Ok d').
Proof.
  intros H inv d1. unfold handleConvertToInvoice in H. fold inv in H.
  destruct (insert_invoice inv d) as [[id0 d0] | e] eqn:Hins; [| done].
  pose proof Hins as (Hfresh & Hnone & Hd0 & _)%insert_invoice_Ok.
  cbv zeta in H. rewrite length_copied_items in H.
  destruct (ev_items v) as [| it rest] eqn:Hitems.
  - cbn in H. injection H as <- <-. subst d0. by repeat split; auto.
  - rewrite bool_decide_eq_true_2 in H by (cbn; lia).
    destruct (insert_items _ _ d0) as [d2 | e] eqn:Hi; [| done].
    injection H as <- <-. subst d0. repeat split; auto.
Qed.

(** What a conversion that went through leaves in the store. *)
Lemma handleConvertToInvoice_store userId v t_number t_issue t_due d id d' :
  handleConvertToInvoice userId v t_number t_issue t_due d = (converted id, d') →
  clients d' = clients d
  ∧ estimates d' = estimates d
  ∧ invoices d !! id = None
  ∧ (∀ k, k ≠ id → invoices d' !! k = invoices d !! k)
  ∧ (∃ i, invoices d' !! id = Some i
       ∧ inv_user_id i = userId
       ∧ inv_invoice_number i = document_number "INV" t_number
       ∧ inv_source_estimate_id i = Some (ev_id v))
  ∧ ∃ rows, invoice_items d' = invoice_items d ++ rows
          ∧ Forall (λ r, item_doc r = id) rows.
Proof.
  intros H. pose proof H as (_ & _ & Hnone & Hcase)%handleConvertToInvoice_statements.
  destruct Hcase as [[_ ->] | [_ Hitems]].
  - cbn. split; [done |]. split; [done |]. split; [done |].
    split; [intros k Hk; by apply lookup_insert_ne |].
    split; [eexists; split; [apply lookup_insert_eq | done] |].
    exists []. by rewrite app_nil_r.
  - apply insert_items_Ok in Hitems
      as (rows & ds & -> & Hall & _ & _ & _ & Hin & Hout).
    cbn in Hin, Hout, ds. cbn.
    split; [done |]. split; [done |]. split; [done |].
    assert (Hdocs : ∀ k, k ∈ in_doc <$> copied_items id (ev_items v) → k = id).
    { intros k (i & -> & Hi)%list_elem_of_fmap.
      pose proof (copied_items_doc id (ev_items v)) as Hd.
      rewrite Forall_forall in Hd. by apply Hd. }
    split.
    { intros k Hk. rewrite Hout, lookup_insert_ne; [done | done |].
      intros Hin'. by apply Hk, Hdocs. }
    split.
    { destruct (decide (id ∈ in_doc <$> copied_items id (ev_items v))) as [Hi | Hi].
      - rewrite (Hin id Hi), lookup_insert_eq. eexists. split; [done |]. done.
      - rewrite (Hout id Hi), lookup_insert_eq. eexists. split; [done |]. done. }
    exists rows. split; [done |].
    apply (stored_rows_doc id _ _ (copied_items_doc id _) Hall).
Qed.

(** Converting an estimate a second time: when the clock shows the same
    last six digits of milliseconds as at the first conversion, the second
    one fails on the unique index of invoice numbers and writes nothing;
    otherwise, if the number is free, it makes a second invoice of the same
    estimate next to the first. Nothing stops the second conversion. *)
Theorem second_conversion userId v t1 i1 u1 t2 i2 u2 d id1 d1 :
  items_reference_documents invoice_items_table d →
  100000 ≤ t1 → 100000 ≤ t2 →
  handleConvertToInvoice userId v t1 i1 u1 d = (converted id1, d1) →
  (t2 `mod` 1000000 = t1 `mod` 1000000 →
     handleConvertToInvoice userId v t2 i2 u2 d1
     = (convert_failed unique_violation, d1))
  ∧ (t2 `mod` 1000000 ≠ t1 `mod` 1000000 →
     ∀ id2' d2',
       handleConvertToInvoice userId v t2 i2 u2 d = (converted id2', d2') →
       ∃ id2 d2 inv1 inv2,
         handleConvertToInvoice userId v t2 i2 u2 d1 = (converted id2, d2)
         ∧ id2 ≠ id1
         ∧ invoices d1 !! id1 = Some inv1
         ∧ invoices d2 !! id1 = Some inv1
         ∧ invoices d2 !! id2 = Some inv2
         ∧ inv_source_estimate_id inv1 = Some (ev_id v)
         ∧ inv_source_estimate_id inv2 = Some (ev_id v)
         ∧ inv_invoice_number inv1 ≠ inv_invoice_number inv2).
Proof.
  intros Hfk Ht1 Ht2 H1.
  pose proof H1 as (Hins1 & _ & _ & _)%handleConvertToInvoice_statements.
  apply insert_invoice_inv in Hins1 as (Hcasts1 & _ & _ & _).
  pose proof H1 as (Hclients & Hests & Hnone1 & Hother & (inv1 & Hrow1 & Huser1
                    & Hnum1 & Hsrc1) & rows1 & Hitems1 & Hrows1)
                     %handleConvertToInvoice_store.
  split.
  - intros Hmod. unfold handleConvertToInvoice.
    rewrite insert_invoice_taken; [done | exact Hcasts1 |].
    apply invoice_number_taken_true. exists id1, inv1.
    split; [done |]. split; [done |]. cbn. rewrite Hnum1.
    by apply document_number_eq_iff.
  - intros Hmod id2' d2' H2.
    pose proof H2 as (Hins2 & _ & Hnone2 & Hcase2)%handleConvertToInvoice_statements.
    apply insert_invoice_inv in Hins2 as (Hcasts2 & Hfree2 & Hclient2 & Hsrc2).
    set (inv2 := invoice_of_estimate userId v t2 i2 u2) in *.
    assert (Hnum : inv_invoice_number inv1 ≠ inv_invoice_number inv2).
    { rewrite Hnum1. cbn. intros Heq.
      apply document_number_eq_iff in Heq; [| done | done]. by apply Hmod. }
    assert (Hfree : invoice_number_taken d1 None (inv_user_id inv2)
                      (inv_invoice_number inv2) = false).
    { apply not_true_iff_false.
      intros (k & i & Hk & Hu & Hn)%invoice_number_taken_true.
      destruct (decide (k = id1)) as [-> | Hne].
      - rewrite Hrow1 in Hk. injection Hk as <-. by apply Hnum.
      - rewrite (Hother _ Hne) in Hk. apply not_true_iff_false in Hfree2.
        apply Hfree2, invoice_number_taken_true. by exists k, i. }
    assert (Hins : insert_invoice inv2 d1
                   = Ok (fresh (dom (invoices d1)),
                         with_invoices (<[fresh (dom (invoices d1)) := inv2]>
                                          (invoices d1)) d1)).
    { apply insert_invoice_succeeds; [done | done | |].
      - unfold client_exists in *. by rewrite Hclients.
      - intros s Hs. rewrite Hests. by apply Hsrc2. }
    set (id2 := fresh (dom (invoices d1))) in *.
    assert (Hnew : invoices d1 !! id2 = None) by apply not_elem_of_dom, is_fresh.
    assert (Hid : id2 ≠ id1).
    { intros Heq. rewrite Heq, Hrow1 in Hnew. discriminate. }
    unfold handleConvertToInvoice. fold inv2. rewrite Hins. cbv zeta.
    rewrite length_copied_items.
    destruct Hcase2 as [[Hempty _] | [Hne Hitems2]].
    + rewrite Hempty. cbn [length]. rewrite bool_decide_eq_false_2 by lia.
      eexists id2, _, inv1, inv2. split; [done |]. split; [done |].
      split; [done |]. cbn [with_invoices invoices].
      split; [by rewrite lookup_insert_ne |].
      split; [apply lookup_insert_eq |]. done.
    + rewrite bool_decide_eq_true_2 by (destruct (ev_items v); [done | cbn; lia]).
      rewrite copied_items_itemsToInsert in Hitems2 |- *.
      destruct (insert_items_transfer invoice_items_table
                  (line_item_of <$> ev_items v) id2' id2
                  (with_invoices (<[id2' := inv2]> (invoices d)) d)
                  (with_invoices (<[id2 := inv2]> (invoices d1)) d1)
                  d2' inv2 inv2) as [d2 Hd2]; try done.
      { intros Hnil. apply fmap_nil_inv in Hnil. by apply Hne. }
      { cbn. apply lookup_insert_eq. }
      { by apply (no_items_of_missing_doc invoice_items_table d id2' Hfk). }
      { cbn. apply lookup_insert_eq. }
      { cbn [items_of with_invoices invoice_items]. rewrite Hitems1.
        apply Forall_app. split.
        - apply (no_items_of_missing_doc invoice_items_table d id2 Hfk).
          cbn. by rewrite <- (Hother _ Hid).
        - eapply Forall_impl; [exact Hrows1 |]. cbn. by intros r ->. }
      rewrite Hd2. exists id2, d2, inv1.
      apply insert_items_Ok in Hd2 as (rows2 & ds & -> & _ & _ & _ & _ & Hin & Hout).
      cbn in Hin, Hout, ds. cbn.
      assert (Hdoc : ∀ k, k ∈ in_doc <$> itemsToInsert id2 (line_item_of <$> ev_items v)
                          ↔ k = id2).
      { intros k. apply itemsToInsert_docs. intros Hnil.
        apply fmap_nil_inv in Hnil. by apply Hne. }
      eexists. split; [done |]. split; [done |]. split; [done |].
      split; [by rewrite Hout, lookup_insert_ne; [| | rewrite Hdoc] |].
      split; [by rewrite Hin, lookup_insert_eq; [| apply Hdoc] |].
      done.
Qed.

Lemma second_conversion_witness :
  let d := Example.store 0 in
  let convert t := handleConvertToInvoice Example.tenant Example.quote t t t in
  let d1 := (convert Example.now d).2 in
  convert Example.now d = (converted 1, d1)
  ∧ convert (Example.now + 1000000) d1 = (convert_failed unique_violation, d1)
  ∧ ∃ id2 d2, convert (Example.now + 1) d1 = (converted id2, d2) ∧ id2 ≠ 1%positive.
Proof.
  intros d convert d1.
  assert (Hfk : items_reference_documents invoice_items_table d) by constructor.
  assert (H1 : convert Example.now d = (converted 1, d1)) by reflexivity.
  assert (Ht : 100000 ≤ Example.now) by (unfold Example.now; lia).
  split; [exact H1 |]. split.
  - apply (proj1 (second_conversion Example.tenant Example.quote Example.now
                    Example.now Example.now (Example.now + 1000000)
                    (Example.now + 1000000) (Example.now + 1000000) d 1 d1
                    Hfk Ht ltac:(unfold Example.now; lia) H1)).
    reflexivity.
  - destruct (proj2 (second_conversion Example.tenant Example.quote Example.now
                       Example.now Example.now (Example.now + 1)
                       (Example.now + 1) (Example.now + 1) d 1 d1
                       Hfk Ht ltac:(unfold Example.now; lia) H1)
                ltac:(discriminate) 1%positive (convert (Example.now + 1) d).2
                eq_refl)
      as (id2 & d2 & _ & _ & Hconv & Hne & _).
    exists id2, d2. split; [exact Hconv | exact Hne].
Defined.

(** *** Opening an invoice in its form and saving it *)

Lemma save_invoice_edit_Ok props f d id d' :
  ifp_mode props = edit →
  if_items f ≠ [] →
  save_invoice props f d = (Ok id, d') →
  id = ifp_initial_id props
  ∧ ∃ i0 rows,
      invoices d !! id = Some i0
      ∧ Forall2 stored_as (itemsToInsert id (if_items f)) rows
      ∧ d' = with_invoices
               (<[id := invoice_recalculated
                          (filter (λ r, item_doc r ≠ id) (invoice_items d) ++ rows) id
                          (invoice_set_form f i0)]>
                  (invoices d))
               (with_items invoice_items_table
                  (filter (λ r, item_doc r ≠ id) (invoice_items d) ++ rows) d).
Proof.
  intros Hmode Hne H. unfold save_invoice in H. rewrite Hmode in H. cbn zeta in H.
  set (id0 := ifp_initial_id props) in *.
  destruct (update_invoice id0 _ d) as [d1|] eqn:Hupd; [| by simplify_eq].
  rewrite length_itemsToInsert in H.
  rewrite bool_decide_eq_true_2 in H by (destruct (if_items f); [done | cbn; lia]).
  destruct (delete_by_doc_Ok invoice_items_table id0 d1)
    as (ds2 & Hdel & Hds2 & Hds2id).
  rewrite Hdel in H. cbn [unchecked] in H.
  destruct (insert_items invoice_items_table _ _) as [d3|] eqn:Hitems;
    [| by simplify_eq].
  injection H as <- <-. split; [done |].
  apply insert_items_Ok in Hitems
    as (rows & ds3 & -> & Hall & _ & _ & Hfk & Hin & Hout).
  rewrite docs_with_docs in Hfk, Hin, Hout.
  rewrite items_of_with_docs, items_of_with_items in Hin |- *.
  assert (Hid : is_Some (ds2 !! id0)).
  { destruct (if_items f) as [| it rest] eqn:Hitems; [done |].
    cbn in Hfk. by apply Forall_cons in Hfk as [? _]. }
  unfold update_invoice in Hupd.
  destruct (invoices d !! id0) as [i0|] eqn:Hi0.
  2: { injection Hupd as <-. cbn in Hds2, Hds2id, Hid, ds2.
       exfalso. destruct Hid as [r Hr].
       apply delete_items_Ok in Hdel as (ds & Heq & Hdin & Hdout).
       assert (ds = ds2) as -> by (by injection Heq).
       destruct (decide (id0 ∈ item_doc <$> filter (λ r, selects (by_doc id0) r)
                                              (invoice_items d))) as [Hd | Hd].
       - specialize (Hdin _ Hd). cbn in Hdin. rewrite Hi0 in Hdin.
         by rewrite Hdin in Hr.
       - specialize (Hdout _ Hd). cbn in Hdout. rewrite Hi0 in Hdout.
         by rewrite Hdout in Hr. }
  cbn zeta in Hupd. inv_result Hupd. subst d1.
  cbn [docs with_invoices invoices items_of invoice_items] in *.
  exists i0, rows. split; [done |]. split; [done |].
  unfold with_docs, with_items, with_invoices. cbn. f_equal.
  apply map_eq. intros k. destruct (decide (k = id0)) as [-> | Hk].
  - rewrite Hin by (by apply itemsToInsert_docs).
    destruct (Hds2id _ (lookup_insert_eq _ _ _)) as (r' & -> & Hr').
    cbn. rewrite lookup_insert_eq. f_equal. apply (Hr' _ id0).
  - rewrite Hout by (by rewrite itemsToInsert_docs).
    rewrite (Hds2 _ Hk), !lookup_insert_ne; done.
Qed.

Lemma stored_form_rows doc items rows :
  Forall2 stored_as (itemsToInsert doc items) rows →
  line_item_of <$> rows = items
  ∧ ∀ k r, rows !! k = Some r → item_sort_order r = Z.of_nat k ∧ item_doc r = doc.
Proof.
  intros Hall. rewrite Forall2_lookup in Hall. split.
  - apply list_eq. intros k. specialize (Hall k).
    unfold itemsToInsert in Hall. rewrite list_lookup_imap in Hall.
    rewrite list_lookup_fmap.
    destruct (items !! k) as [it |], (rows !! k) as [r |]; cbn in *;
      inversion Hall as [? ? Hst |]; subst; [| done].
    unfold stored_as in Hst. rewrite Hst. by destruct it.
  - intros k r Hr. specialize (Hall k).
    unfold itemsToInsert in Hall. rewrite list_lookup_imap, Hr in Hall.
    destruct (items !! k) as [it |]; cbn in *; inversion Hall as [? ? Hst |]; subst.
    unfold stored_as in Hst. by rewrite Hst.
Qed.

Lemma sum_products_lines k rows :
  sum_products k rows
  = sum_of_products ((λ it, (li_quantity it, li_unit_price it))
                       <$> (line_item_of <$> filter (λ r, item_doc r = k) rows)).
Proof.
  unfold sum_products, sum_of_products. rewrite <- list_fmap_compose.
  induction (filter (λ r, item_doc r = k) rows) as [| r l IH]; [done |].
  cbn. by rewrite IH.
Qed.

(** Opening an invoice in its edit form and saving it with no field
    touched: when the save goes through, every other invoice and its line
    items are as before; the invoice keeps every column, except that an
    empty description or notes has become NULL, and its totals are those
    of its line items (the stored ones, if they were so before); its line
    items are the same in the same order, as new rows numbered by position. *)
Theorem edit_invoice_round_trip userId id d props f i id' d' :
  EditInvoicePage userId id d = Some (props, f) →
  invoices d !! id = Some i →
  InvoiceForm_handleSubmit props f d = (saved id', d') →
  let old := filter (λ r, item_doc r = id) (invoice_items d) in
  let new := filter (λ r, item_doc r = id) (invoice_items d') in
  id' = id
  ∧ (∀ k, k ≠ id → invoices d' !! k = invoices d !! k)
  ∧ (∀ k, k ≠ id →
       filter (λ r, item_doc r = k) (invoice_items d')
       = filter (λ r, item_doc r = k) (invoice_items d))
  ∧ line_item_of <$> new = line_item_of <$> old
  ∧ (∀ k r, new !! k = Some r → item_sort_order r = Z.of_nat k)
  ∧ ∃ i', invoices d' !! id = Some i'
      ∧ inv_user_id i' = inv_user_id i
      ∧ inv_client_id i' = inv_client_id i
      ∧ inv_source_estimate_id i' = inv_source_estimate_id i
      ∧ inv_invoice_number i' = inv_invoice_number i
      ∧ inv_title i' = inv_title i
      ∧ inv_status i' = inv_status i
      ∧ inv_issue_date i' = inv_issue_date i
      ∧ inv_due_date i' = inv_due_date i
      ∧ inv_paid_date i' = inv_paid_date i
      ∧ inv_tax_rate i' = inv_tax_rate i
      ∧ inv_archived_at i' = inv_archived_at i
      ∧ inv_description i' = text_saved_back (inv_description i)
      ∧ inv_notes i' = text_saved_back (inv_notes i)
      ∧ totals_agree invoice_items_table d' id
      ∧ (totals_agree invoice_items_table d id →
         (inv_subtotal i', inv_tax_amount i', inv_total i')
         = (inv_subtotal i, inv_tax_amount i, inv_total i)).
Proof.
  intros Hpage Hi Hsubmit old new.
  unfold EditInvoicePage in Hpage. rewrite Hi in Hpage. cbn in Hpage.
  injection Hpage as <- <-.
  apply InvoiceForm_handleSubmit_saved in Hsubmit as (Hne & _ & _ & Hsave).
  apply save_invoice_edit_Ok in Hsave as (-> & i0 & rows & Hi0 & Hall & ->);
    [| done | done].
  cbn [ifp_initial_id if_items] in *. rewrite Hi in Hi0. injection Hi0 as <-.
  destruct (stored_form_rows _ _ _ Hall) as [Hlines Hsort].
  assert (Hkept : Forall (λ r, item_doc r ≠ id)
                    (filter (λ r, item_doc r ≠ id) (invoice_items d))).
  { apply Forall_forall. by intros r [Hr _]%list_elem_of_filter. }
  assert (Hrows : Forall (λ r, item_doc r = id) rows).
  { apply Forall_forall. intros r Hr.
    apply list_elem_of_lookup in Hr as [k Hk]. by apply (Hsort k r). }
  assert (Hnew : new = rows).
  { unfold new. cbn [with_items with_invoices invoice_items].
    by rewrite filter_app, (filter_doc_none _ _ Hkept), (filter_doc_all _ _ Hrows). }
  split; [done |].
  split; [intros k Hk; cbn; by apply lookup_insert_ne |].
  split.
  { intros k Hk. cbn [with_items with_invoices invoice_items].
    rewrite filter_app. rewrite (filter_doc_none k rows).
    - rewrite app_nil_r, list_filter_filter. apply list_filter_iff.
      intros r. split; [tauto | intros Hr; split; [done | congruence]].
    - eapply Forall_impl; [exact Hrows |]. cbn. by intros r ->. }
  split; [by rewrite Hnew |].
  split; [intros k r; rewrite Hnew; intros Hr; by apply (Hsort k r) |].
  eexists. split; [cbn; apply lookup_insert_eq |].
  do 13 (split; [done |]).
  split.
  - intros rate sub tax tot. cbn. rewrite lookup_insert_eq. cbn.
    by intros [= <- <- <- <-].
  - intros Hagree.
    destruct (Hagree (inv_tax_rate i) (inv_subtotal i) (inv_tax_amount i)
                (inv_total i)) as (Hs & Ht & Hto).
    { cbn. by rewrite Hi. }
    cbn [items_of] in Hs.
    assert (Hsum : sum_products id
                     (filter (λ r, item_doc r ≠ id) (invoice_items d) ++ rows)
                   = sum_products id (invoice_items d)).
    { rewrite sum_products_app, (sum_products_none _ _ Hkept), Z.add_0_l.
      rewrite (sum_products_lines id rows), (sum_products_lines id (invoice_items d)).
      by rewrite (filter_doc_all _ _ Hrows), Hlines. }
    cbn. unfold total_of, tax_amount_of, subtotal_of. rewrite Hsum.
    by rewrite <- Hs, <- Ht, <- Hto.
Qed.

Lemma edit_invoice_round_trip_witness :
  let d := Example.billing in
  let opened := EditInvoicePage Example.tenant 4 d in
  let r := InvoiceForm_handleSubmit Example.edit_bill
             (default Example.bill_marked_paid (snd <$> opened)) d in
  (fst <$> opened) = Some Example.edit_bill
  ∧ r.1 = saved 4
  ∧ invoices r.2 !! 4%positive = Some Example.bill
  ∧ item_id <$> invoice_items d = [8%positive]
  ∧ item_id <$> invoice_items r.2 = [1%positive]
  ∧ line_item_of <$> invoice_items r.2 = line_item_of <$> invoice_items d.
Proof.
  intros d opened r.
  assert (Hopen : opened
                  = Some (Example.edit_bill,
                          default Example.bill_marked_paid (snd <$> opened)))
    by reflexivity.
  assert (Hrow : invoices d !! 4%positive = Some Example.bill) by reflexivity.
  assert (Hsaved : r = (saved 4, r.2)) by reflexivity.
  destruct (edit_invoice_round_trip Example.tenant 4 d Example.edit_bill
              (default Example.bill_marked_paid (snd <$> opened))
              Example.bill 4 r.2 Hopen Hrow Hsaved)
    as (_ & _ & _ & Hlines & _).
  split; [reflexivity |]. split; [reflexivity |]. split; [reflexivity |].
  split; [reflexivity |]. split; [reflexivity |]. exact Hlines.
Defined.

(** *** Saves that fail half-way *)

Lemma handleSubmit_save_failed props f st sendEmail session resend d e d' :
  handleSubmit props f st sendEmail session resend d = (save_failed e, d') →
  ef_items f ≠ [] ∧ Js.blank (ef_title f) = false
  ∧ Js.blank (ef_estimateNumber f) = false
  ∧ save_estimate props f st sendEmail d = (Err e, d').
Proof.
  intros H. apply handleSubmit_saved_first in H as [[? _] | (? & ? & ? & H)];
    [done |].
  destruct H as [(e' & Hsave & [= <-]) | (id & d1 & _ & H)]; [done |].
  destruct sendEmail.
  - by destruct H as [(why & _ & ?) | [_ ?]].
  - by destruct H.
Qed.

(** A new estimate whose line items the store refuses stays in the store:
    [handleSubmit] has inserted the estimate row before, with the totals the
    form computed, and does not take it back. The estimate has no line item,
    and its number is taken: saving the form again, corrected or not, fails
    on the unique index for as long as the number is kept. *)
Theorem failed_create_keeps_the_estimate
    props f st sendEmail session resend d err d1 id e :
  items_reference_documents estimate_items_table d →
  efp_mode props = create →
  handleSubmit props f st sendEmail session resend d = (save_failed err, d1) →
  estimates d !! id = None →
  estimates d1 !! id = Some e →
  e = estimate_of_form (efp_userId props) (if sendEmail then draft else st) f
  ∧ (e_subtotal e, e_tax_amount e, e_total e)
    = (ef_subtotal f, ef_taxAmount f, ef_total f)
  ∧ filter (λ r, item_doc r = id) (estimate_items d1) = []
  ∧ (∀ k, k ≠ id → estimates d1 !! k = estimates d !! k)
  ∧ estimate_items d1 = estimate_items d
  ∧ ∀ f' st' session' resend',
      ef_estimateNumber f' = ef_estimateNumber f →
      ef_items f' ≠ [] →
      Js.blank (ef_title f') = false →
      estimate_casts (estimate_of_form (efp_userId props) st' f') = Ok tt →
      handleSubmit props f' st' false session' resend' d1
      = (save_failed unique_violation, d1).
Proof.
  intros Hfk Hmode Hsubmit Hnone Hrow.
  apply handleSubmit_save_failed in Hsubmit as (_ & _ & Hnumber & Hsave).
  unfold save_estimate in Hsave. rewrite Hmode in Hsave.
  destruct (insert_estimate _ d) as [[id0 dA] | e0] eqn:Hins.
  2: { injection Hsave as _ <-. by rewrite Hnone in Hrow. }
  destruct (insert_items _ _ dA) as [d2 | e2]; [done |].
  injection Hsave as _ <-.
  apply insert_estimate_Ok in Hins as (_ & _ & -> & _).
  cbn [with_estimates estimates estimate_items] in *.
  assert (id0 = id) as ->.
  { destruct (decide (id0 = id)) as [| Hne]; [done |].
    rewrite lookup_insert_ne, Hnone in Hrow; done. }
  rewrite lookup_insert_eq in Hrow. injection Hrow as <-.
  split; [done |]. split; [done |].
  split.
  { apply filter_doc_none.
    by apply (no_items_of_missing_doc estimate_items_table d id Hfk). }
  split; [intros k Hk; by apply lookup_insert_ne |].
  split; [done |].
  intros f' st' session' resend' Hnum Hitems Htitle Hcasts.
  rewrite handleSubmit_after_validation; [| done | done | by rewrite Hnum].
  unfold save_estimate. rewrite Hmode.
  rewrite insert_estimate_taken; [done | done |].
  apply estimate_number_taken_true. eexists id, _.
  split; [cbn; apply lookup_insert_eq |]. cbn. by rewrite Hnum.
Qed.

Lemma failed_create_keeps_the_estimate_witness :
  let d := Example.store 0 in
  let submit f := handleSubmit (Example.new_estimate Example.tenant) f draft false
                    None (λ _, refused) in
  let d1 := (submit Scenario.oversized_form d).2 in
  submit Scenario.oversized_form d = (save_failed numeric_value_out_of_range, d1)
  ∧ estimates d !! 4%positive = None
  ∧ (e_total <$> estimates d1 !! 4%positive) = Some 108000000
  ∧ estimate_items d1 = estimate_items d
  ∧ submit Example.new_form d = (saved 4, (submit Example.new_form d).2)
  ∧ submit Example.new_form d1 = (save_failed unique_violation, d1).
Proof.
  intros d submit d1.
  assert (Hfk : items_reference_documents estimate_items_table d).
  { repeat constructor. }
  assert (H1 : submit Scenario.oversized_form d
               = (save_failed numeric_value_out_of_range, d1)) by reflexivity.
  destruct (failed_create_keeps_the_estimate
              (Example.new_estimate Example.tenant) Scenario.oversized_form draft
              false None (λ _, refused) d numeric_value_out_of_range d1 4
              (estimate_of_form Example.tenant draft Scenario.oversized_form)
              Hfk eq_refl H1 eq_refl eq_refl)
    as (_ & _ & _ & _ & Hitems & Hretry).
  split; [exact H1 |]. split; [reflexivity |]. split; [reflexivity |].
  split; [exact Hitems |]. split; [reflexivity |].
  exact (Hretry Example.new_form draft None (λ _, refused) eq_refl
           ltac:(discriminate) eq_refl eq_refl).
Defined.

(** An edit whose new line items the store refuses is not taken back
    either: the estimate row holds the fields of the form, and the line
    items the estimate had are deleted, so it is left with no line item;
    if it had any, the delete trigger has set its totals to zero. *)
Theorem failed_edit_loses_the_line_items
    props f st (sendEmail : bool) session resend d err d' d1 :
  let id := efp_initial_id props in
  let status := if sendEmail then efp_initial_status props else st in
  efp_mode props = edit →
  update_estimate id (estimate_set_form status f) d = Ok d1 →
  handleSubmit props f st sendEmail session resend d = (save_failed err, d') →
  filter (λ r, item_doc r = id) (estimate_items d') = []
  ∧ estimate_items d' = filter (λ r, item_doc r ≠ id) (estimate_items d)
  ∧ (∀ k, k ≠ id → estimates d' !! k = estimates d !! k)
  ∧ ∀ e0, estimates d !! id = Some e0 →
      ∃ e', estimates d' !! id = Some e'
        ∧ form_stored f e'
        ∧ e_status e' = status
        ∧ (filter (λ r, item_doc r = id) (estimate_items d) ≠ [] →
           (e_subtotal e', e_tax_amount e', e_total e') = (0, 0, 0)).
Proof.
  intros id status Hmode Hupd Hsubmit.
  apply handleSubmit_save_failed in Hsubmit as (Hne & _ & _ & Hsave).
  unfold save_estimate in Hsave. rewrite Hmode in Hsave. cbv zeta in Hsave.
  fold id status in Hsave. rewrite Hupd in Hsave. clearbody id status.
  rewrite length_itemsToInsert in Hsave.
  rewrite bool_decide_eq_true_2 in Hsave
    by (destruct (ef_items f); [done | cbn; lia]).
  destruct (insert_items _ _ _) as [d3 | e3]; [done |].
  injection Hsave as _ <-.
  apply update_estimate_Ok in Hupd as ->.
  destruct (delete_items estimate_items_table (by_doc id) _) as [d2 | e2] eqn:Hdel.
  2: { by destruct (delete_by_doc_Ok estimate_items_table id
                      (with_estimates
                         (alter (estimate_set_form status f) id (estimates d)) d))
         as (? & Hok & _); rewrite Hok in Hdel. }
  cbn [unchecked].
  apply delete_items_Ok in Hdel as (ds & -> & Hin & Hout).
  rewrite filter_not_by_doc in *.
  cbn [with_docs with_items with_estimates items_of docs estimates estimate_items
         doc_row row_recalculated] in *.
  split.
  { apply filter_doc_none, Forall_forall. by intros r [Hr _]%list_elem_of_filter. }
  split; [done |].
  split.
  { intros k Hk. rewrite Hout, lookup_alter_ne; [done | done |].
    by intros [? _]%deleted_by_doc. }
  intros e0 He0.
  destruct (decide (id ∈ item_doc <$> filter (λ r, selects (by_doc id) r)
                                         (estimate_items d))) as [Hd | Hd].
  - rewrite (Hin id Hd), lookup_alter_eq, He0. cbn [fmap option_fmap option_map].
    eexists. split; [done |]. split; [done |]. split; [done |].
    intros _. unfold estimate_recalculated, total_of, tax_amount_of, subtotal_of.
    cbn [e_subtotal e_tax_amount e_total estimate_with_totals].
    rewrite sum_products_none; [done |].
    apply Forall_forall. by intros r [Hr _]%list_elem_of_filter.
  - rewrite (Hout id Hd), lookup_alter_eq, He0. cbn.
    eexists. split; [done |]. split; [done |]. split; [done |].
    intros Hold. exfalso. apply Hold, filter_doc_none.
    by apply none_deleted_by_doc.
Qed.

Lemma failed_edit_loses_the_line_items_witness :
  let d := Example.store 0 in
  let r := handleSubmit Example.edit_deck Scenario.oversized_edit approved false
             None (λ _, refused) d in
  r.1 = save_failed numeric_value_out_of_range
  ∧ item_description <$> estimate_items d = ["Labor"]
  ∧ estimate_items r.2 = []
  ∧ (e_title <$> estimates r.2 !! 2%positive) = Some "Deck and stairs"
  ∧ (e_total <$> estimates r.2 !! 2%positive) = Some 0.
Proof.
  intros d r.
  assert (Hr : r = (save_failed numeric_value_out_of_range, r.2)) by reflexivity.
  destruct (failed_edit_loses_the_line_items Example.edit_deck
              Scenario.oversized_edit approved false None (λ _, refused) d
              numeric_value_out_of_range r.2
              (unchecked (update_estimate 2
                            (estimate_set_form approved Scenario.oversized_edit) d) d)
              eq_refl eq_refl Hr)
    as (_ & Hitems & _).
  split; [reflexivity |]. split; [reflexivity |].
  split; [rewrite Hitems; reflexivity |]. split; reflexivity.
Defined.

(** *** The paid toggle, twice *)

(** Marking an invoice paid and unpaid again from its detail page, or unpaid
    and paid again, brings the status back, in the store and in the
    component; the paid date does not come back: it is NULL for an unpaid
    invoice and the day of the second toggle for a paid one, whatever it was
    before. Nothing else of the invoice changes, and no other invoice. *)
Theorem toggle_paid_twice id st t1 t2 d i :
  invoices d !! id = Some i →
  let r1 := InvoiceDetail_handleTogglePaid id st t1 d in
  let r2 := InvoiceDetail_handleTogglePaid id r1.1 t2 r1.2 in
  currentStatus r2.1 = currentStatus st
  ∧ invoices r2.2 !! id
    = Some (invoice_set_paid (currentStatus st)
              (newPaidDate (currentStatus st) t2) i)
  ∧ (currentStatus st = paid →
     (inv_paid_date <$> invoices r2.2 !! id) = Some (Some (utc_date t2)))
  ∧ (currentStatus st = unpaid →
     (inv_paid_date <$> invoices r2.2 !! id) = Some None)
  ∧ ((inv_paid_date <$> invoices r2.2 !! id) = Some (paidDate r2.1))
  ∧ (∀ k, k ≠ id → invoices r2.2 !! k = invoices d !! k)
  ∧ invoice_items r2.2 = invoice_items d.
Proof.
  intros Hi r1 r2. subst r1 r2. unfold InvoiceDetail_handleTogglePaid.
  cbn [fst snd currentStatus paidDate with_invoices invoices invoice_items].
  assert (Htt : ∀ s, toggled (toggled s) = s) by (by intros []).
  rewrite Htt, !lookup_alter_eq, Hi. cbn [fmap option_fmap option_map].
  split; [done |]. split; [done |].
  split; [by intros -> |]. split; [by intros -> |]. split; [done |].
  split; [| done]. intros k Hk. by rewrite !lookup_alter_ne.
Qed.

Lemma toggle_paid_twice_witness :
  let d := (InvoiceDetail_handleTogglePaid 4 (InvoiceDetail_init Example.bill)
              Example.now Example.billing).2 in
  let paid_bill := invoice_set_paid paid (Some 20759) Example.bill in
  let later := Example.now + 3 * ms_per_day in
  let r1 := InvoiceDetail_handleTogglePaid 4 (InvoiceDetail_init paid_bill) later d in
  let r2 := InvoiceDetail_handleTogglePaid 4 r1.1 later r1.2 in
  invoices d !! 4%positive = Some paid_bill
  ∧ (inv_status <$> invoices r2.2 !! 4%positive) = Some paid
  ∧ (inv_paid_date <$> invoices r2.2 !! 4%positive) = Some (Some 20762).
Proof.
  intros d paid_bill later r1 r2.
  assert (Hd : invoices d !! 4%positive = Some paid_bill) by reflexivity.
  destruct (toggle_paid_twice 4 (InvoiceDetail_init paid_bill) later later d
              paid_bill Hd) as (_ & _ & Hpaid & _).
  split; [exact Hd |]. split; [reflexivity |]. exact (Hpaid eq_refl).
Defined.

(** *** The lists *)

Lemma InvoicesList_setInvoices_lookup id listed now prev k :
  InvoicesList_setInvoices id listed now prev !! k
  = (λ inv, if decide (inv.1 = id)
            then (inv.1, invoice_set_paid (toggled listed)
                           (newPaidDate (toggled listed) now) inv.2)
            else inv) <$> prev !! k.
Proof. unfold InvoicesList_setInvoices. by rewrite list_lookup_fmap. Qed.

(** The invoice list after a paid toggle: the rows the component shows are
    again rows of the store, in the same order; the toggled invoice has left
    the Kanban column of its old status for the other one, and the other
    invoices are in the column they were in. *)
Theorem invoices_list_follows_the_store id inv now prev d :
  listed_from d prev →
  (id, inv) ∈ prev →
  let d' := InvoicesList_handleTogglePaid id (inv_status inv) now d in
  let next := InvoicesList_setInvoices id (inv_status inv) now prev in
  listed_from d' next
  ∧ fst <$> next = fst <$> prev
  ∧ Forall (λ p, p.1 ≠ id) (groupedInvoices next (inv_status inv))
  ∧ (∃ inv', (id, inv') ∈ groupedInvoices next (toggled (inv_status inv)))
  ∧ ∀ s p, p.1 ≠ id → p ∈ groupedInvoices next s ↔ p ∈ groupedInvoices prev s.
Proof.
  intros Hlisted Hin d' next. subst d' next.
  unfold listed_from, InvoicesPage, InvoicesList_handleTogglePaid in *.
  cbn [with_invoices invoices].
  rewrite Forall_forall in Hlisted.
  assert (Hsame : ∀ p, p ∈ prev → p.1 = id → inv_status p.2 = inv_status inv).
  { intros [k i] Hp Hk. cbn in *. subst k.
    pose proof (Hlisted _ Hp) as H1. pose proof (Hlisted _ Hin) as H2.
    cbn in *. rewrite H1 in H2. by injection H2 as ->. }
  split.
  { apply Forall_forall. intros p (q & -> & Hq)%list_elem_of_fmap.
    case_decide as Hk; cbn [fst snd].
    - rewrite Hk, lookup_alter_eq. rewrite <- Hk, (Hlisted _ Hq). done.
    - rewrite lookup_alter_ne by done. by apply Hlisted. }
  split.
  { unfold InvoicesList_setInvoices. rewrite <- list_fmap_compose.
    apply list_fmap_ext. intros k p _. cbn. by case_decide. }
  split.
  { apply Forall_forall. intros p [Hs (q & -> & Hq)%list_elem_of_fmap]%list_elem_of_filter.
    case_decide as Hk; [| done]. cbn in Hs. by destruct (inv_status inv). }
  split.
  { eexists. apply list_elem_of_filter. split; [| apply list_elem_of_fmap].
    2: { exists (id, inv). split; [| done]. cbn. rewrite decide_True by done.
         reflexivity. }
    done. }
  intros s p Hp. unfold groupedInvoices. rewrite !list_elem_of_filter.
  unfold InvoicesList_setInvoices. rewrite list_elem_of_fmap. split.
  - intros [Hs (q & -> & Hq)]. case_decide as Hk; [by cbn in Hp | done].
  - intros [Hs Hq]. split; [done |]. exists p. by rewrite decide_False.
Qed.

Lemma invoices_list_follows_the_store_witness :
  let d := Example.billing in
  let prev := [(4%positive, Example.bill)] in
  let d' := InvoicesList_handleTogglePaid 4 unpaid Example.now d in
  let next := InvoicesList_setInvoices 4 unpaid Example.now prev in
  listed_from d prev
  ∧ groupedInvoices prev unpaid = prev
  ∧ groupedInvoices next unpaid = []
  ∧ groupedInvoices next paid = next
  ∧ listed_from d' next.
Proof.
  intros d prev d' next.
  assert (Hl : listed_from d prev) by (by repeat constructor).
  destruct (invoices_list_follows_the_store 4 Example.bill Example.now prev d
              Hl ltac:(by left)) as (Hnext & _).
  split; [exact Hl |]. split; [reflexivity |]. split; [reflexivity |].
  split; [reflexivity | exact Hnext].
Defined.

(** The Kanban board of the estimate list shows every estimate exactly
    once, in the column of its status: the four columns together are the
    list rearranged, and a column holds the estimates of its status only. *)
Theorem kanban_columns_partition (estimates : list (uuid * estimate)) :
  estimates ≡ₚ groupedEstimates estimates draft ++ groupedEstimates estimates sent
               ++ groupedEstimates estimates approved
               ++ groupedEstimates estimates declined
  ∧ (∀ s e, e ∈ groupedEstimates estimates s ↔ e ∈ estimates ∧ e_status e.2 = s)
  ∧ (length (groupedEstimates estimates draft)
     + length (groupedEstimates estimates sent)
     + length (groupedEstimates estimates approved)
     + length (groupedEstimates estimates declined) = length estimates)%nat.
Proof.
  assert (Hperm : estimates
                  ≡ₚ groupedEstimates estimates draft
                     ++ groupedEstimates estimates sent
                     ++ groupedEstimates estimates approved
                     ++ groupedEstimates estimates declined).
  { unfold groupedEstimates.
    induction estimates as [| [k e] l IH]; [done |].
    rewrite !filter_cons. cbn [snd].
    destruct (e_status e); repeat case_decide; try done; cbn [app].
    - by constructor.
    - rewrite <- Permutation_middle. by constructor.
    - rewrite app_assoc, <- Permutation_middle, <- app_assoc. by constructor.
    - rewrite !app_assoc, <- Permutation_middle, <- !app_assoc. by constructor. }
  split; [exact Hperm |]. split.
  - intros s e. unfold groupedEstimates. rewrite list_elem_of_filter. tauto.
  - apply Permutation_length in Hperm. rewrite !length_app in Hperm. lia.
Qed.

(** *** Changing the status of an estimate *)

(** The status menu of the estimate detail writes the status of that
    estimate and nothing else, from any status to any status: the life cycle
    is not checked, and totals, archive mark, line items, invoices and
    clients stay. "Send to client" on the same page either leaves the store
    as it is or does what the status menu does with [sent]; when the client
    the page has loaded has no email address it does not call the send
    action at all. *)
Theorem status_change_writes_status_only id newStatus d :
  let d' := handleStatusChange id newStatus d in
  (∀ e, estimates d !! id = Some e →
        estimates d' !! id = Some (estimate_set_status newStatus e))
  ∧ (∀ k, k ≠ id → estimates d' !! k = estimates d !! k)
  ∧ stored_totals estimate_items_table d' id
    = stored_totals estimate_items_table d id
  ∧ (is_Some (EstimatesPage d' !! id) ↔ is_Some (EstimatesPage d !! id))
  ∧ estimate_items d' = estimate_items d
  ∧ invoices d' = invoices d
  ∧ invoice_items d' = invoice_items d
  ∧ clients d' = clients d
  ∧ ∀ v session resend,
      ev_id v = id →
      let r := handleSendToClient v session resend d in
      (r.2 = d ∨ r.1 = Some success ∧ r.2 = handleStatusChange id sent d)
      ∧ (r.1 = Some success → ∃ m, resend m = delivered)
      ∧ (ev_client v ≫= (λ c, client_email c.2) = None → r = (None, d)).
Proof.
  intros d'. subst d'. unfold handleStatusChange.
  cbn [with_estimates estimates estimate_items invoices invoice_items clients].
  split; [intros e He; by rewrite lookup_alter_eq, He |].
  split; [intros k Hk; by rewrite lookup_alter_ne |].
  split.
  { cbn [stored_totals with_estimates estimates]. rewrite lookup_alter_eq.
    by destruct (estimates d !! id). }
  split.
  { unfold EstimatesPage. cbn [estimates with_estimates]. split.
    - intros [x [Hx Hp]%map_lookup_filter_Some]. rewrite lookup_alter_eq in Hx.
      destruct (estimates d !! id) as [e |] eqn:He; [| done].
      injection Hx as <-. exists e. by apply map_lookup_filter_Some.
    - intros [e [He Hp]%map_lookup_filter_Some]. eexists.
      apply map_lookup_filter_Some. rewrite lookup_alter_eq, He. done. }
  do 4 (split; [done |]).
  intros v session resend <-. unfold handleSendToClient.
  destruct (ev_client v ≫= (λ c, client_email c.2)) as [address |] eqn:Hc;
    cbn [Js.truthy].
  2: { split; [by left |]. split; [done | done]. }
  destruct (negb _); cbn [fst snd].
  2: { split; [by left |]. split; [done | done]. }
  destruct (sendEstimateAction session resend (ev_id v) d) as [[| why] d1] eqn:Hs.
  - apply sendEstimateAction_success in Hs as (Hm & ->).
    split; [by right |]. split; [done | done].
  - apply sendEstimateAction_failure in Hs as ->.
    split; [by left |]. split; [done | done].
Qed.

(** *** The business profile *)

Lemma text_saved_back_twice x : text_saved_back (text_saved_back x) = text_saved_back x.
Proof.
  by destruct x as [[| c s] |].
Qed.

Lemma text_saved_back_id x : x ≠ Some EmptyString → text_saved_back x = x.
Proof.
  by destruct x as [[| c s] |].
Qed.

Lemma profile_of_form_init p :
  profile_of_form (SettingsForm_init (Some p)) = profile_saved_back p.
Proof. reflexivity. Qed.

(** Opening the settings and saving them untouched keeps the profile,
    except that a column holding the empty string becomes NULL; saving once
    more changes nothing. For a user without a profile row the save writes
    nothing, whatever the form holds, and is reported as a success. After
    sign-up the profile holds the email address of the account and nothing
    else, and removing the logo in the form saves a NULL logo. *)
Theorem settings_round_trip userId (profiles : gmap uuid profile) :
  (∀ p, profiles !! userId = Some p →
     let saved := SettingsForm_handleSubmit userId (SettingsForm_init (Some p))
                    profiles in
     saved = <[userId := profile_saved_back p]> profiles
     ∧ SettingsForm_handleSubmit userId (SettingsForm_init (saved !! userId)) saved
       = saved
     ∧ (business_name p ≠ Some "" → business_address p ≠ Some "" →
        business_phone p ≠ Some "" → business_email p ≠ Some "" →
        license_number p ≠ Some "" → logo_url p ≠ Some "" →
        default_payment_terms p ≠ Some "" → business_intro p ≠ Some "" →
        saved = profiles)
     ∧ (logo_url <$> SettingsForm_handleSubmit userId
                       (handleLogoRemove (SettingsForm_init (Some p))) profiles
                     !! userId) = Some None)
  ∧ (profiles !! userId = None →
     (∀ f, SettingsForm_handleSubmit userId f profiles = profiles)
     ∧ ∀ email, ∃ created,
         handle_new_user userId email profiles = Ok created
         ∧ (business_email <$> created !! userId) = Some email
         ∧ (business_name <$> created !! userId) = Some None
         ∧ (∀ k, k ≠ userId → created !! k = profiles !! k)
         ∧ handle_new_user userId email created = Err unique_violation).
Proof.
  split.
  - intros p Hp saved. subst saved. unfold SettingsForm_handleSubmit.
    assert (Hsaved : alter (λ _, profile_of_form (SettingsForm_init (Some p)))
                       userId profiles
                     = <[userId := profile_saved_back p]> profiles).
    { apply map_eq. intros k. destruct (decide (k = userId)) as [-> | Hk].
      - by rewrite lookup_alter_eq, lookup_insert_eq, Hp.
      - by rewrite lookup_alter_ne, lookup_insert_ne. }
    rewrite Hsaved. split; [done |]. split; [| split].
    + rewrite lookup_insert_eq. apply map_eq. intros k.
      destruct (decide (k = userId)) as [-> | Hk].
      * rewrite lookup_alter_eq, lookup_insert_eq. cbn.
        rewrite profile_of_form_init. unfold profile_saved_back. cbn.
        by rewrite !text_saved_back_twice.
      * by rewrite lookup_alter_ne.
    + intros. apply map_eq. intros k.
      destruct (decide (k = userId)) as [-> | Hk].
      * rewrite lookup_insert_eq, Hp. f_equal. unfold profile_saved_back.
        rewrite !text_saved_back_id by done. by destruct p.
      * by rewrite lookup_insert_ne.
    + by rewrite lookup_alter_eq, Hp.
  - intros Hnone. split.
    + intros f. unfold SettingsForm_handleSubmit. apply map_eq. intros k.
      destruct (decide (k = userId)) as [-> | Hk].
      * by rewrite lookup_alter_eq, Hnone.
      * by rewrite lookup_alter_ne.
    + intros email. unfold handle_new_user at 1. rewrite Hnone.
      eexists. split; [done |].
      rewrite !lookup_insert_eq. split; [done |]. split; [done |].
      split; [intros k Hk; by rewrite lookup_insert_ne |].
      unfold handle_new_user. by rewrite lookup_insert_eq.
Qed.

Lemma settings_round_trip_witness :
  let profiles : gmap uuid profile := {[ Example.tenant := Scenario.acme ]} in
  let saved := SettingsForm_handleSubmit Example.tenant
                 (SettingsForm_init (Some Scenario.acme)) profiles in
  (business_phone <$> profiles !! Example.tenant) = Some (Some "")
  ∧ (business_phone <$> saved !! Example.tenant) = Some None
  ∧ (business_name <$> saved !! Example.tenant) = Some (Some "Acme Decks")
  ∧ saved = <[Example.tenant := profile_saved_back Scenario.acme]> profiles
  ∧ SettingsForm_handleSubmit Example.other_tenant
      (SettingsForm_init (Some Scenario.acme)) profiles = profiles.
Proof.
  intros profiles saved.
  destruct (settings_round_trip Example.tenant profiles) as [Hsome _].
  destruct (Hsome Scenario.acme eq_refl) as (Hsaved & _).
  destruct (settings_round_trip Example.other_tenant profiles) as [_ Hnone].
  destruct (Hnone eq_refl) as [Hnothing _].
  split; [reflexivity |]. split; [reflexivity |]. split; [reflexivity |].
  split; [exact Hsaved |]. exact (Hnothing _).
Defined.

(** *** The line-items editor *)

(** The editor keeps its rows apart by their key. Removing the line item
    just added, whose key is fresh, gives the list back; an edit keeps the
    keys and their order and changes only the rows of its key, so it does
    nothing for a key that is not there; editing a row and then removing it
    is removing it; a removed key is gone, and the other rows stay in their
    order. *)
Theorem line_items_editor id e (items : list EditorItem) :
  (id ∉ editor_id <$> items → removeItem id (addItem id items) = items)
  ∧ editor_id <$> updateItem id e items = editor_id <$> items
  ∧ (∀ k item, items !! k = Some item → editor_id item ≠ id →
       updateItem id e items !! k = Some item)
  ∧ (∀ k item, items !! k = Some item → editor_id item = id →
       updateItem id e items !! k
       = Some {| editor_id := id; editor_item := edited e (editor_item item) |})
  ∧ (id ∉ editor_id <$> items → updateItem id e items = items)
  ∧ removeItem id (updateItem id e items) = removeItem id items
  ∧ (id ∉ editor_id <$> removeItem id items)
  ∧ (∀ id', id' ≠ id →
       filter (λ item, editor_id item = id') (removeItem id items)
       = filter (λ item, editor_id item = id') items)
  ∧ removeItem id (removeItem id items) = removeItem id items.
Proof.
  split.
  { intros Hfresh. unfold removeItem, addItem. rewrite filter_app.
    rewrite filter_cons_False by (cbn; by intros []). rewrite app_nil_r.
    induction items as [| item items IH]; [done |].
    rewrite fmap_cons, not_elem_of_cons in Hfresh. destruct Hfresh as [Hne Hf].
    rewrite filter_cons_True by done. by rewrite IH. }
  split.
  { unfold updateItem. rewrite <- list_fmap_compose. apply list_fmap_ext.
    intros k item _. cbn. by case_decide. }
  split.
  { intros k item Hk Hne. unfold updateItem.
    by rewrite list_lookup_fmap, Hk; cbn; rewrite decide_False. }
  split.
  { intros k item Hk Heq. unfold updateItem.
    rewrite list_lookup_fmap, Hk; cbn. rewrite decide_True by done.
    by rewrite Heq. }
  split.
  { intros Hfresh. unfold updateItem. rewrite <- (list_fmap_id items) at 2.
    apply list_fmap_ext. intros k item Hk. cbn. rewrite decide_False; [done |].
    intros Heq. apply Hfresh, list_elem_of_fmap. exists item.
    split; [done |]. by eapply list_elem_of_lookup_2. }
  split.
  { unfold removeItem, updateItem.
    induction items as [| item items IH]; [done |].
    rewrite fmap_cons, !filter_cons. cbn.
    destruct (decide (editor_id item = id)) as [Heq | Hne]; cbn.
    - rewrite !decide_False by (by intros []). exact IH.
    - rewrite !decide_True by done. by rewrite IH. }
  split.
  { intros (item & Heq & [Hne _]%list_elem_of_filter)%list_elem_of_fmap. done. }
  split.
  { intros id' Hne. unfold removeItem. rewrite list_filter_filter.
    apply list_filter_iff. intros item.
    split; [tauto | intros Hr; split; [done | congruence]]. }
  unfold removeItem. rewrite list_filter_filter. apply list_filter_iff.
  intros item. tauto.
Qed.

(** *** The rounding of the totals *)

Lemma round_div_error n d : 0 < d → 2 * Z.abs (d * round_div n d - n) ≤ d.
Proof.
  intros Hd. unfold round_div.
  pose proof (Z.div_mod (2 * Z.abs n + d) (2 * d) ltac:(lia)) as Hdm.
  pose proof (Z.mod_pos_bound (2 * Z.abs n + d) (2 * d) ltac:(lia)) as Hb.
  destruct (Z.sgn_spec n) as [[Hn ->] | [[Hn ->] | [Hn ->]]]; nia.
Qed.

Lemma round_div_sign n d : 0 < d → 0 ≤ n → 0 ≤ round_div n d.
Proof.
  intros Hd Hn. unfold round_div.
  assert (0 ≤ (2 * Z.abs n + d) `div` (2 * d)) by (apply Z.div_pos; lia).
  destruct (Z.sgn_spec n) as [[? ->] | [[? ->] | [? ->]]]; lia.
Qed.

(** The totals a row trigger stores are rounded to the cent once each: the
    subtotal is within half a cent of the exact sum of quantity x unit
    price, the tax amount within half a cent of subtotal x rate / 100 taken
    of the stored subtotal, and the total is their sum exactly. Line items
    of a non-negative sum and a non-negative rate give non-negative
    totals. *)
Theorem stored_totals_rounding t s d d' doc rate sub tax tot :
  execute t s d = Ok d' →
  doc ∈ recalculated t s d →
  stored_totals t d' doc = Some (rate, sub, tax, tot) →
  2 * Z.abs (100 * sub - sum_products doc (items_of t d')) ≤ 100
  ∧ 2 * Z.abs (10000 * tax - sub * rate) ≤ 10000
  ∧ tot = sub + tax
  ∧ (0 ≤ sum_products doc (items_of t d') → 0 ≤ rate →
     0 ≤ sub ∧ 0 ≤ tax ∧ sub ≤ tot).
Proof.
  intros (rows' & ds & -> & Hin & _)%execute_Ok Hdoc.
  rewrite stored_totals_docs, docs_with_docs, items_of_with_docs,
    items_of_with_items, (Hin _ Hdoc).
  destruct (docs t d !! doc) as [r|]; [| done].
  cbn [fmap option_fmap option_map]. intros Hr. apply (inj Some) in Hr.
  apply recalculated_row_agrees in Hr as (-> & -> & ->).
  unfold round2. change (10 ^ (4 - 2)) with 100. change (10 ^ (6 - 2)) with 10000.
  split; [apply round_div_error; lia |].
  split; [apply round_div_error; lia |].
  split; [done |].
  intros Hsum Hrate.
  assert (0 ≤ round_div (sum_products doc rows') 100)
    by (apply round_div_sign; lia).
  assert (0 ≤ round_div (round_div (sum_products doc rows') 100 * rate) 10000)
    by (apply round_div_sign; nia).
  lia.
Qed.

Lemma stored_totals_rounding_witness :
  let s := INSERT [ {| in_doc := 3; in_description := "Screws"; in_quantity := 33;
                       in_unit := "each"; in_unit_price := 5; in_sort_order := 0 |} ] in
  let d := Example.store 0 in
  let d' := unchecked (execute estimate_items_table s d) d in
  execute estimate_items_table s d = Ok d'
  ∧ sum_products 3 (estimate_items d') = 165
  ∧ stored_totals estimate_items_table d' 3 = Some (800, 2, 0, 2)
  ∧ 2 * Z.abs (100 * 2 - 165) ≤ 100.
Proof.
  intros s d d'.
  assert (Hex : execute estimate_items_table s d = Ok d') by reflexivity.
  assert (Hin : 3%positive ∈ recalculated estimate_items_table s d) by left.
  assert (Hst : stored_totals estimate_items_table d' 3 = Some (800, 2, 0, 2))
    by reflexivity.
  split; [exact Hex |]. split; [reflexivity |]. split; [exact Hst |].
  exact (proj1 (stored_totals_rounding estimate_items_table s d d'
                  3 800 2 0 2 Hex Hin Hst)).
Defined.

(** *** What a save that goes through stores *)

(** A save of the estimate form or of the invoice form that goes through
    stores the fields of the form in the row of the document, the line items
    of the form as the line items of the document, in the order of the form
    and numbered by position, and the totals of these line items at the tax
    rate of the form: the totals the estimate form sends with the row do not
    stay. An edit keeps the id, the owner and the archive mark of the
    document; an edit of an invoice keeps its paid date and source
    estimate. *)
Theorem saved_form_is_stored :
  (∀ props f st session resend d id d',
     items_reference_documents estimate_items_table d →
     handleSubmit props f st false session resend d = (saved id, d') →
     ∃ e, estimates d' !! id = Some e
       ∧ form_stored f e
       ∧ e_status e = st
       ∧ line_items_stored id (ef_items f) (estimate_items d')
       ∧ totals_agree estimate_items_table d' id
       ∧ match efp_mode props with
         | create => estimates d !! id = None ∧ e_user_id e = efp_userId props
                     ∧ e_archived_at e = None
         | edit => id = efp_initial_id props
                   ∧ ∃ e0, estimates d !! id = Some e0
                        ∧ e_user_id e = e_user_id e0
                        ∧ e_archived_at e = e_archived_at e0
         end)
  ∧ (∀ props f d id d',
       items_reference_documents invoice_items_table d →
       InvoiceForm_handleSubmit props f d = (saved id, d') →
       ∃ i, invoices d' !! id = Some i
         ∧ invoice_form_stored f i
         ∧ line_items_stored id (if_items f) (invoice_items d')
         ∧ totals_agree invoice_items_table d' id
         ∧ match ifp_mode props with
           | create => invoices d !! id = None ∧ inv_user_id i = ifp_userId props
                       ∧ inv_paid_date i = None
                       ∧ inv_source_estimate_id i = None
                       ∧ inv_archived_at i = None
           | edit => id = ifp_initial_id props
                     ∧ ∃ i0, invoices d !! id = Some i0
                          ∧ inv_user_id i = inv_user_id i0
                          ∧ inv_paid_date i = inv_paid_date i0
                          ∧ inv_source_estimate_id i = inv_source_estimate_id i0
                          ∧ inv_archived_at i = inv_archived_at i0
           end).
Proof.
  split.
  - intros props f st session resend d id d' Hfk Hsubmit.
    apply handleSubmit_saved in Hsubmit as (Hne & _ & _ & Hsave).
    destruct (efp_mode props) eqn:Hmode.
    + apply save_estimate_create_Ok in Hsave as (_ & Hnone & _ & rows & Hall & ->);
        [| done | done].
      eexists. split; [apply lookup_insert_eq |]. split; [done |]. split; [done |].
      pose proof (no_items_of_missing_doc estimate_items_table d id Hfk Hnone) as Hno.
      cbn [items_of] in Hno.
      pose proof (stored_rows_doc id _ _ (itemsToInsert_doc id _) Hall) as Hrows.
      split; [| split; [| done]].
      * unfold line_items_stored. cbn.
        by rewrite filter_app, (filter_doc_none _ _ Hno), (filter_doc_all _ _ Hrows).
      * intros rate sub tax tot. cbn. rewrite lookup_insert_eq. cbn.
        by intros [= <- <- <- <-].
    + apply save_estimate_edit_Ok in Hsave as (-> & e0 & rows & He0 & Hall & ->);
        [| done | done].
      set (id := efp_initial_id props) in *.
      eexists. split; [apply lookup_insert_eq |]. split; [done |]. split; [done |].
      assert (Hno : Forall (λ r, item_doc r ≠ id)
                      (filter (λ r, item_doc r ≠ id) (estimate_items d))).
      { apply Forall_forall. by intros r [Hr _]%list_elem_of_filter. }
      pose proof (stored_rows_doc id _ _ (itemsToInsert_doc id _) Hall) as Hrows.
      split; [| split; [| split; [done | by exists e0]]].
      * unfold line_items_stored. cbn.
        by rewrite filter_app, (filter_doc_none _ _ Hno), (filter_doc_all _ _ Hrows).
      * intros rate sub tax tot. cbn. rewrite lookup_insert_eq. cbn.
        by intros [= <- <- <- <-].
  - intros props f d id d' Hfk Hsubmit.
    apply InvoiceForm_handleSubmit_saved in Hsubmit as (Hne & _ & _ & Hsave).
    destruct (ifp_mode props) eqn:Hmode.
    + apply save_invoice_create_Ok in Hsave as (_ & Hnone & _ & rows & Hall & ->);
        [| done | done].
      eexists. split; [apply lookup_insert_eq |]. split; [done |].
      pose proof (no_items_of_missing_doc invoice_items_table d id Hfk Hnone) as Hno.
      cbn [items_of] in Hno.
      pose proof (stored_rows_doc id _ _ (itemsToInsert_doc id _) Hall) as Hrows.
      split; [| split; [| done]].
      * unfold line_items_stored. cbn.
        by rewrite filter_app, (filter_doc_none _ _ Hno), (filter_doc_all _ _ Hrows).
      * intros rate sub tax tot. cbn. rewrite lookup_insert_eq. cbn.
        by intros [= <- <- <- <-].
    + apply save_invoice_edit_Ok in Hsave as (-> & i0 & rows & Hi0 & Hall & ->);
        [| done | done].
      set (id := ifp_initial_id props) in *.
      eexists. split; [apply lookup_insert_eq |]. split; [done |].
      assert (Hno : Forall (λ r, item_doc r ≠ id)
                      (filter (λ r, item_doc r ≠ id) (invoice_items d))).
      { apply Forall_forall. by intros r [Hr _]%list_elem_of_filter. }
      pose proof (stored_rows_doc id _ _ (itemsToInsert_doc id _) Hall) as Hrows.
      split; [| split; [| split; [done | by exists i0]]].
      * unfold line_items_stored. cbn.
        by rewrite filter_app, (filter_doc_none _ _ Hno), (filter_doc_all _ _ Hrows).
      * intros rate sub tax tot. cbn. rewrite lookup_insert_eq. cbn.
        by intros [= <- <- <- <-].
Qed.

Lemma saved_form_is_stored_witness :
  let d := Example.store 0 in
  let r := handleSubmit (Example.new_estimate Example.tenant)
             Scenario.miscalculated_form sent false None (λ _, refused) d in
  r.1 = saved 4
  ∧ ef_total Scenario.miscalculated_form = 2
  ∧ stored_totals estimate_items_table r.2 4 = Some (800, 50000, 4000, 54000)
  ∧ ∃ e, estimates r.2 !! 4%positive = Some e
      ∧ e_status e = sent
      ∧ totals_agree estimate_items_table r.2 4.
Proof.
  intros d r.
  assert (Hfk : items_reference_documents estimate_items_table d).
  { repeat constructor. }
  assert (Hr : r = (saved 4, r.2)) by reflexivity.
  destruct (proj1 saved_form_is_stored (Example.new_estimate Example.tenant)
              Scenario.miscalculated_form sent None (λ _, refused) d 4%positive r.2
              Hfk Hr)
    as (e & He & _ & Hst & _ & Hagree & _).
  split; [reflexivity |]. split; [reflexivity |]. split; [reflexivity |].
  exists e. split; [exact He |]. split; [exact Hst | exact Hagree].
Defined.

(** *** The totals of estimates under the handlers *)

Lemma estimate_consistent_same_totals d d' :
  estimate_items d' = estimate_items d →
  (∀ k, stored_totals estimate_items_table d' k
        = stored_totals estimate_items_table d k) →
  estimate_totals_consistent d → estimate_totals_consistent d'.
Proof.
  intros Hitems Htot [Hfk Hagree]. split.
  - unfold items_reference_documents in *. cbn [items_of] in *.
    rewrite Hitems. eapply Forall_impl; [exact Hfk |].
    intros r Hr. cbn beta in *. rewrite doc_exists_docs in *.
    apply bool_decide_unpack in Hr. apply bool_decide_pack.
    specialize (Htot (item_doc r)). rewrite !stored_totals_docs in Htot.
    apply (fmap_is_Some (row_totals estimate_items_table)).
    rewrite Htot. by apply fmap_is_Some.
  - intros k Hk rate sub tax tot Hs. cbn [items_of]. rewrite Hitems in *.
    rewrite Htot in Hs. by apply (Hagree k Hk).
Qed.

Lemma same_estimates_consistent d d' :
  estimates d' = estimates d →
  estimate_items d' = estimate_items d →
  estimate_totals_consistent d → estimate_totals_consistent d'.
Proof.
  intros He Hitems. apply estimate_consistent_same_totals; [done |].
  intros k. cbn [stored_totals]. by rewrite He.
Qed.

Lemma estimate_alter_same_totals (f : estimate → estimate) id d :
  (∀ e, row_totals estimate_items_table (f e) = row_totals estimate_items_table e) →
  estimate_totals_consistent d →
  estimate_totals_consistent (with_estimates (alter f id (estimates d)) d).
Proof.
  intros Hf. apply estimate_consistent_same_totals; [done |].
  intros k. cbn [stored_totals with_estimates estimates].
  destruct (decide (k = id)) as [-> | Hk].
  - rewrite lookup_alter_eq. destruct (estimates d !! id) as [e |]; [| done].
    cbn. f_equal. apply (Hf e).
  - by rewrite lookup_alter_ne.
Qed.

Lemma estimate_fmap_same_totals (f : estimate → estimate) d d' :
  (∀ e, row_totals estimate_items_table (f e) = row_totals estimate_items_table e) →
  estimates d' = f <$> estimates d →
  estimate_items d' = estimate_items d →
  estimate_totals_consistent d → estimate_totals_consistent d'.
Proof.
  intros Hf He Hitems. apply estimate_consistent_same_totals; [done |].
  intros k. cbn [stored_totals]. rewrite He, lookup_fmap.
  destruct (estimates d !! k) as [e |]; [| done]. cbn. f_equal. apply (Hf e).
Qed.

Lemma insert_estimate_consistent e d id d1 :
  estimate_totals_consistent d →
  insert_estimate e d = Ok (id, d1) →
  estimate_totals_consistent d1.
Proof.
  intros [Hfk Hagree] (_ & Hnew & -> & _)%insert_estimate_Ok.
  split.
  - unfold items_reference_documents in *.
    cbn [items_of with_estimates estimate_items] in *.
    eapply Forall_impl; [exact Hfk |]. intros r Hr.
    cbn [doc_exists with_estimates estimates] in *.
    apply bool_decide_unpack in Hr. apply bool_decide_pack.
    rewrite lookup_insert_is_Some. destruct (decide (id = item_doc r)); auto.
  - intros k Hk rate sub tax tot.
    cbn [stored_totals items_of with_estimates estimates estimate_items] in *.
    destruct (decide (k = id)) as [-> | Hne].
    + exfalso. apply Hk, filter_doc_none.
      by apply (no_items_of_missing_doc estimate_items_table).
    + rewrite lookup_insert_ne by done. by apply (Hagree k).
Qed.

Lemma filter_doc_app_other k (rows new : list item_row) :
  Forall (λ r, item_doc r ≠ k) new →
  filter (λ r, item_doc r = k) (rows ++ new) = filter (λ r, item_doc r = k) rows.
Proof.
  intros Hnew. by rewrite filter_app, (filter_doc_none _ _ Hnew), app_nil_r.
Qed.

Lemma insert_estimate_items_consistent inputs d d' :
  estimate_totals_consistent d →
  insert_items estimate_items_table inputs d = Ok d' →
  estimate_totals_consistent d'.
Proof.
  intros [Hfk Hagree]
    (rows & ds & -> & Hst & _ & _ & Hex & Hin & Hout)%insert_items_Ok.
  pose proof (stored_as_doc _ _ Hst) as Hdocs.
  assert (Hkeys : ∀ k, is_Some (docs estimate_items_table d !! k) → is_Some (ds !! k)).
  { intros k Hk. destruct (decide (k ∈ in_doc <$> inputs)) as [Hi | Hi].
    - rewrite (Hin k Hi). by apply fmap_is_Some.
    - by rewrite (Hout k Hi). }
  split.
  - unfold items_reference_documents.
    rewrite items_of_with_docs, items_of_with_items. apply Forall_app. split.
    + eapply Forall_impl; [exact Hfk |]. intros r Hr. cbn beta in *.
      rewrite doc_exists_docs in *. rewrite docs_with_docs.
      apply bool_decide_pack, Hkeys. by apply bool_decide_unpack in Hr.
    + apply Forall_forall. intros r Hr. rewrite doc_exists_docs, docs_with_docs.
      apply bool_decide_pack, Hkeys.
      assert (Hd : item_doc r ∈ in_doc <$> inputs).
      { rewrite <- Hdocs. by apply list_elem_of_fmap_2. }
      apply list_elem_of_fmap in Hd as (i & -> & Hi).
      rewrite Forall_forall in Hex. by apply Hex.
  - intros k Hk rate sub tax tot.
    assert (Hitems : estimate_items
                       (with_docs estimate_items_table ds
                          (with_items estimate_items_table
                             (items_of estimate_items_table d ++ rows) d))
                     = estimate_items d ++ rows) by done.
    rewrite Hitems in Hk.
    rewrite stored_totals_docs, docs_with_docs, items_of_with_docs,
      items_of_with_items.
    destruct (decide (k ∈ in_doc <$> inputs)) as [Hi | Hi].
    + rewrite (Hin k Hi). destruct (docs estimate_items_table d !! k) as [r |];
        [| done]. cbn [fmap option_fmap option_map]. intros Hr.
      apply (inj Some) in Hr.
      by apply (recalculated_row_agrees estimate_items_table) in Hr.
    + assert (Hnew : Forall (λ r, item_doc r ≠ k) rows).
      { apply Forall_forall. intros r Hr <-. apply Hi. rewrite <- Hdocs.
        by apply list_elem_of_fmap_2. }
      rewrite (Hout k Hi). intros Hs.
      rewrite sum_products_app, (sum_products_none k rows Hnew), Z.add_0_r.
      rewrite filter_doc_app_other in Hk by done.
      apply (Hagree k Hk). by rewrite stored_totals_docs.
Qed.

(** After the line items of [id] are deleted, whatever its row held. *)
Lemma delete_estimate_items_consistent id d d' :
  Forall (λ r, item_doc r = id ∨ doc_exists estimate_items_table d (item_doc r))
         (estimate_items d) →
  (∀ k, k ≠ id → filter (λ r, item_doc r = k) (estimate_items d) ≠ [] →
        totals_agree estimate_items_table d k) →
  delete_items estimate_items_table (by_doc id) d = Ok d' →
  estimate_totals_consistent d'.
Proof.
  intros Hfk Hagree (ds & -> & Hin & Hout)%delete_items_Ok.
  rewrite filter_not_by_doc in *. cbn [items_of] in *.
  assert (Hother : ∀ k, k ≠ id → ds !! k = estimates d !! k).
  { intros k Hk. apply Hout. by intros [? _]%deleted_by_doc. }
  assert (Hitems : estimate_items
                     (with_docs estimate_items_table ds
                        (with_items estimate_items_table
                           (filter (λ r, item_doc r ≠ id) (estimate_items d)) d))
                   = filter (λ r, item_doc r ≠ id) (estimate_items d)) by done.
  split.
  - unfold items_reference_documents.
    rewrite items_of_with_docs, items_of_with_items.
    apply Forall_forall. intros r [Hr Hel]%list_elem_of_filter.
    rewrite Forall_forall in Hfk. destruct (Hfk r Hel) as [? | Hex]; [done |].
    rewrite doc_exists_docs, docs_with_docs in *.
    cbn [docs] in *. by rewrite (Hother _ Hr).
  - intros k Hk rate sub tax tot. rewrite Hitems in Hk.
    rewrite stored_totals_docs, docs_with_docs, items_of_with_docs,
      items_of_with_items.
    destruct (decide (k = id)) as [-> | Hne].
    + exfalso. apply Hk, filter_doc_none, Forall_forall.
      by intros r [Hr _]%list_elem_of_filter.
    + rewrite (Hother k Hne), sum_products_filter_other by done.
      intros Hs. apply (Hagree k Hne); [| by rewrite stored_totals_docs].
      intros Hnil. apply Hk. rewrite list_filter_filter.
      rewrite <- Hnil. apply list_filter_iff. intros r.
      split; [tauto | intros Hr; split; [done | congruence]].
Qed.

Lemma same_estimates_trans d1 d2 d3 :
  same_estimates d1 d2 → same_estimates d2 d3 → same_estimates d1 d3.
Proof. intros [H1 H2] [H3 H4]. split; congruence. Qed.

Lemma insert_invoice_items_same_estimates inputs d d' :
  insert_items invoice_items_table inputs d = Ok d' → same_estimates d d'.
Proof. by intros (rows & ds & -> & _)%insert_items_Ok. Qed.

Lemma delete_invoice_items_same_estimates f d d' :
  delete_items invoice_items_table f d = Ok d' → same_estimates d d'.
Proof. by intros (ds & -> & _)%delete_items_Ok. Qed.

Lemma save_invoice_same_estimates props f d :
  same_estimates d (save_invoice props f d).2.
Proof.
  unfold save_invoice. destruct (ifp_mode props).
  - destruct (insert_invoice _ d) as [[id d1] | e] eqn:Hins; [| done].
    apply insert_invoice_Ok in Hins as (_ & _ & -> & _).
    destruct (insert_items _ _ _) as [d2 | e] eqn:Hitems; [| done].
    by apply insert_invoice_items_same_estimates in Hitems.
  - cbv zeta. generalize (ifp_initial_id props). intros id.
    destruct (update_invoice _ _ d) as [d1 | e] eqn:Hupd; [| done].
    apply update_invoice_Ok in Hupd as ->.
    match goal with
    | |- context [unchecked (delete_items ?t ?f ?d1) ?d1] =>
        assert (Hdel : same_estimates d (unchecked (delete_items t f d1) d1))
    end.
    { destruct (delete_items _ _ _) as [d2 | e] eqn:Hdel; [| done].
      by apply delete_invoice_items_same_estimates in Hdel. }
    destruct (bool_decide _); [| done].
    destruct (insert_items _ _ _) as [d3 | e] eqn:Hitems; [| done].
    apply insert_invoice_items_same_estimates in Hitems.
    by eapply same_estimates_trans.
Qed.

Lemma handleConvertToInvoice_same_estimates userId v t_number t_issue t_due d :
  same_estimates d (handleConvertToInvoice userId v t_number t_issue t_due d).2.
Proof.
  unfold handleConvertToInvoice.
  destruct (insert_invoice _ d) as [[id d1] | e] eqn:Hins; [| done].
  apply insert_invoice_Ok in Hins as (_ & _ & -> & _).
  cbv zeta. destruct (bool_decide _); [| done].
  destruct (insert_items _ _ _) as [d2 | e] eqn:Hitems; [| done].
  by apply insert_invoice_items_same_estimates in Hitems.
Qed.

Lemma save_estimate_consistent props f st sendEmail d :
  estimate_totals_consistent d →
  estimate_totals_consistent (save_estimate props f st sendEmail d).2.
Proof.
  intros Hd. unfold save_estimate. destruct (efp_mode props).
  - destruct (insert_estimate _ d) as [[id d1] | e] eqn:Hins; [| done].
    apply (insert_estimate_consistent _ d id d1 Hd) in Hins as Hd1.
    destruct (insert_items _ _ d1) as [d2 | e] eqn:Hitems; [| done].
    by eapply insert_estimate_items_consistent.
  - cbv zeta. generalize (efp_initial_id props). intros id.
    destruct (update_estimate _ _ d) as [d1 | e] eqn:Hupd; [| done].
    apply update_estimate_Ok in Hupd.
    destruct (delete_by_doc_Ok estimate_items_table id d1) as (ds & Hdel & _).
    assert (Hd2 : estimate_totals_consistent
                    (unchecked (delete_items estimate_items_table (by_doc id) d1) d1)).
    { rewrite Hdel. cbn [unchecked]. destruct Hd as [Hfk Hagree].
      eapply (delete_estimate_items_consistent id d1); [| | exact Hdel].
      - subst d1. cbn [estimate_items with_estimates].
        eapply Forall_impl; [exact Hfk |]. intros r Hr. right.
        cbn [doc_exists with_estimates estimates] in *.
        apply bool_decide_unpack in Hr. apply bool_decide_pack.
        destruct (decide (item_doc r = id)) as [<- | Hk].
        + rewrite lookup_alter_eq. by apply fmap_is_Some.
        + by rewrite lookup_alter_ne.
      - intros k Hk Hne rate sub tax tot. subst d1.
        cbn [stored_totals items_of with_estimates estimates estimate_items] in *.
        rewrite lookup_alter_ne by done. by apply (Hagree k). }
    destruct (bool_decide _); [| done].
    destruct (insert_items _ _ _) as [d3 | e] eqn:Hitems; [| done].
    by eapply insert_estimate_items_consistent.
Qed.

Lemma sendEstimateAction_consistent session resend id d :
  estimate_totals_consistent d →
  estimate_totals_consistent (sendEstimateAction session resend id d).2.
Proof.
  intros Hd.
  destruct (sendEstimateAction session resend id d) as [[| why] d'] eqn:H.
  - apply sendEstimateAction_success in H as (_ & ->).
    by apply estimate_alter_same_totals.
  - by apply sendEstimateAction_failure in H as ->.
Qed.

Lemma delete_estimate_keeps_estimates_consistent id d d' :
  delete_estimate id d = Ok d' →
  estimate_totals_consistent d → estimate_totals_consistent d'.
Proof.
  unfold delete_estimate. destruct (estimates d !! id) eqn:Hid; [| by intros [= <-]].
  intros Hdel [Hfk Hagree].
  eapply (delete_estimate_items_consistent id); [| | exact Hdel].
  - cbn [estimate_items with_estimates with_invoices].
    eapply Forall_impl; [exact Hfk |]. intros r Hr.
    cbn [doc_exists with_estimates with_invoices estimates] in *.
    destruct (decide (item_doc r = id)) as [? | Hk]; [by left | right].
    apply bool_decide_unpack in Hr. apply bool_decide_pack.
    by rewrite lookup_delete_ne.
  - intros k Hk Hne rate sub tax tot.
    cbn [stored_totals items_of with_estimates with_invoices estimates
           estimate_items] in *.
    rewrite lookup_delete_ne by done. by apply (Hagree k).
Qed.

Lemma handle_estimates_consistent r d :
  estimate_totals_consistent d → estimate_totals_consistent (handle r d).
Proof.
  intros Hd. destruct r; cbn [handle].
  - unfold handleSubmit. repeat (case_match; [done |]).
    pose proof (save_estimate_consistent props f saveStatus sendEmail d Hd) as Hsave.
    destruct (save_estimate props f saveStatus sendEmail d) as [[id | e] d1];
      [| done].
    destruct sendEmail; [| done]. cbn [snd] in Hsave.
    pose proof (sendEstimateAction_consistent session resend id d1 Hsave) as Hsend.
    by destruct (sendEstimateAction session resend id d1) as [[| why] d2].
  - unfold InvoiceForm_handleSubmit. repeat (case_match; [done |]).
    destruct (save_invoice_same_estimates props f d) as [He Hitems].
    destruct (save_invoice props f d) as [[id | e] d1];
      by eapply same_estimates_consistent.
  - unfold handleSendToClient. case_match; [| done].
    by apply sendEstimateAction_consistent.
  - by apply estimate_alter_same_totals.
  - by apply estimate_alter_same_totals.
  - destruct (handleConvertToInvoice_same_estimates userId v t_number t_issue
                t_due d) as [He Hitems].
    by eapply same_estimates_consistent.
  - unfold EstimateDetail_handleDelete. destruct confirmed; [| done].
    destruct (delete_estimate id d) as [d' | e] eqn:Hdel; [| done].
    by eapply delete_estimate_keeps_estimates_consistent.
  - by eapply same_estimates_consistent.
  - by eapply same_estimates_consistent.
  - unfold InvoiceDetail_handleDelete. destruct confirmed; [| done].
    destruct (delete_invoice id d) as [d' | e] eqn:Hdel; [| done].
    unfold delete_invoice in Hdel. destruct (invoices d !! id).
    + apply delete_invoice_items_same_estimates in Hdel as [He Hitems].
      by eapply same_estimates_consistent.
    + by injection Hdel as <-.
  - by eapply same_estimates_consistent.
  - unfold ClientList_handleDelete. destruct confirmed; [| done].
    cbn [snd]. unfold delete_client. destruct (clients d !! id); [| done].
    apply (estimate_fmap_same_totals (estimate_client_set_null id) d); [| done ..].
    intros e. unfold estimate_client_set_null. by case_decide.
Qed.

(** Whatever the handlers of the client are asked to do, and in whatever
    order: every estimate line item keeps belonging to an estimate, and the
    stored totals of an estimate that has line items stay those of its line
    items. An estimate without line items may hold other totals: those its
    form sent, when the store refused the line items of a new estimate. *)
Theorem handlers_keep_estimate_totals rs d :
  estimate_totals_consistent d → estimate_totals_consistent (run rs d).
Proof.
  revert d. induction rs as [| r rs IH]; intros d Hd; [done |].
  cbn [run foldl]. by apply IH, handle_estimates_consistent.
Qed.

Lemma handlers_keep_estimate_totals_witness :
  let d := run Scenario.estimating (Example.store 0) in
  estimate_totals_consistent (Example.store 0)
  ∧ stored_totals estimate_items_table d 4
    = Some (800, 100000000, 8000000, 108000000)
  ∧ filter (λ r, item_doc r = 4%positive) (estimate_items d) = []
  ∧ stored_totals estimate_items_table d 2 = Some (800, 70000, 5600, 75600)
  ∧ estimate_totals_consistent d.
Proof.
  intros d.
  assert (Hstore : estimate_totals_consistent (Example.store 0)).
  { split; [by repeat constructor |]. intros id Hid.
    destruct (decide (id = 2%positive)) as [-> | Hne].
    - intros rate sub tax tot [= <- <- <- <-]. by vm_compute.
    - exfalso. apply Hid. cbn [Example.store estimate_items].
      by rewrite filter_cons_False, filter_nil by (cbn; congruence). }
  split; [exact Hstore |]. split; [reflexivity |]. split; [reflexivity |].
  split; [reflexivity |].
  exact (handlers_keep_estimate_totals Scenario.estimating (Example.store 0) Hstore).
Defined.

(** *** Archive and restore *)

Lemma alter_alter_id `{Countable K} {A} (f g : A → A) (k : K) (m : gmap K A) :
  (∀ x, m !! k = Some x → g (f x) = x) → alter g k (alter f k m) = m.
Proof.
  intros Hgf. apply map_eq. intros j. destruct (decide (j = k)) as [-> | Hj].
  - rewrite !lookup_alter_eq. destruct (m !! k) as [x |] eqn:Hx; [| done].
    cbn. by rewrite Hgf.
  - by rewrite !lookup_alter_ne.
Qed.

(** Archiving a document that is not archived and restoring it, each from
    its detail page, gives back the store as it was: the component shows the
    document as not archived again and no column of any row has changed.
    The archive date itself does not come back: a document that was archived,
    restored and archived again holds the time of the second archiving. *)
Theorem archive_then_restore id t0 t1 t2 st d :
  let r1 := handleArchive id None t1 d in
  let r2 := handleArchive id r1.1 t2 r1.2 in
  let a1 := handleArchive id (Some t0) t1 d in
  let a2 := handleArchive id a1.1 t2 a1.2 in
  let s1 := InvoiceDetail_handleArchive id st t1 d in
  let s2 := InvoiceDetail_handleArchive id s1.1 t2 s1.2 in
  ((∀ e, estimates d !! id = Some e → e_archived_at e = None) →
   r1.1 = Some t1 ∧ r2.1 = None ∧ r2.2 = d)
  ∧ (a2.1 = Some t2
     ∧ ∀ e, estimates d !! id = Some e →
            estimates a2.2 !! id = Some (estimate_set_archived_at (Some t2) e))
  ∧ ((∀ i, invoices d !! id = Some i → inv_archived_at i = None) →
     inv_archivedAt st = None →
     inv_archivedAt s1.1 = Some t1 ∧ s2.1 = st ∧ s2.2 = d)
  ∧ (inv_archivedAt st = Some t0 →
     inv_archivedAt s2.1 = Some t2
     ∧ ∀ i, invoices d !! id = Some i →
            invoices s2.2 !! id = Some (invoice_set_archived_at (Some t2) i)).
Proof.
  intros r1 r2 a1 a2 s1 s2. subst r1 r2 a1 a2 s1 s2.
  unfold handleArchive, InvoiceDetail_handleArchive.
  cbn [fst snd newArchivedAt with_estimates with_invoices estimates invoices
         inv_archivedAt currentStatus paidDate].
  split; [| split; [| split]].
  - intros He. split; [done |]. split; [done |].
    rewrite alter_alter_id; [by destruct d |].
    intros e Hid. specialize (He e Hid). destruct e. cbn in *. by subst.
  - split; [done |]. intros e He. by rewrite !lookup_alter_eq, He.
  - intros Hi Hst. rewrite Hst. cbn [newArchivedAt].
    split; [done |]. split; [destruct st; cbn in *; by subst |].
    rewrite alter_alter_id; [by destruct d |].
    intros i Hid. specialize (Hi i Hid). destruct i. cbn in *. by subst.
  - intros Hst. rewrite Hst. cbn [newArchivedAt]. split; [done |].
    intros i Hi. by rewrite !lookup_alter_eq, Hi.
Qed.

Lemma archive_then_restore_witness :
  let later := Example.now + 1000 in
  let r1 := handleArchive 2 None Example.now (Example.store 0) in
  let r2 := handleArchive 2 r1.1 later r1.2 in
  let s1 := InvoiceDetail_handleArchive 4 (InvoiceDetail_init Example.bill)
              Example.now Example.billing in
  let s2 := InvoiceDetail_handleArchive 4 s1.1 later s1.2 in
  (e_archived_at <$> estimates r1.2 !! 2%positive) = Some (Some Example.now)
  ∧ r2.2 = Example.store 0
  ∧ (inv_archived_at <$> invoices s1.2 !! 4%positive) = Some (Some Example.now)
  ∧ s2.2 = Example.billing.
Proof.
  intros later r1 r2 s1 s2.
  destruct (archive_then_restore 2 0 Example.now later
              (InvoiceDetail_init Example.bill) (Example.store 0))
    as (He & _ & _ & _).
  destruct (archive_then_restore 4 0 Example.now later
              (InvoiceDetail_init Example.bill) Example.billing)
    as (_ & _ & Hi & _).
  split; [reflexivity |]. split.
  - apply He. intros e [= <-]. reflexivity.
  - split; [reflexivity |]. apply Hi; [| reflexivity].
    intros i [= <-]. reflexivity.
Defined.
